(** * voicebox_pytorch: a shallow embedding of [voicebox_pytorch.py]

    Tensors are a shape together with row-major data.  Floating-point
    values are embedded as exact rationals ([Q]); integer tensors hold [Z],
    boolean masks hold [bool].  Python exceptions are the [Raise] case of
    [result].  The random number generators (Python's [random] and torch's
    generator), the training flag of the network and standard output are
    the explicit [world] threaded through the monad [M]. *)

From Stdlib Require Import String.
From Stdlib Require Import List ZArith QArith Qround Qabs Qminmax Bool Lia Arith PeanoNat.
Import ListNotations.

Local Open Scope Z_scope.

(** ** Exceptions and results *)

Inductive exn : Type :=
| AssertionError
| NameError (name : string)
| AttributeError (msg : string)
| ValueError (msg : string)
| IndexError
| ZeroDivisionError
| RuntimeError (msg : string)
| EinopsError (msg : string).

Inductive result (A : Type) : Type :=
| Ok (a : A)
| Raise (e : exn).
Arguments Ok {A} a.
Arguments Raise {A} e.

Definition rbind {A B} (r : result A) (k : A -> result B) : result B :=
  match r with
  | Ok a => k a
  | Raise e => Raise e
  end.

Notation "'let*' x ':=' r 'in' k" := (rbind r (fun x => k))
  (at level 10, x name, r at level 100, k at level 200).
Notation "'let*' ' p ':=' r 'in' k" := (rbind r (fun p => k))
  (at level 10, p pattern, r at level 100, k at level 200).

Definition assert (b : bool) : result unit :=
  if b then Ok tt else Raise AssertionError.

(** ** Helper functions of the source *)

(** [exists(val)]: [val is not None]. *)
Definition exists_ {A} (val : option A) : bool :=
  match val with Some _ => true | None => false end.

(** [default(val, d)]. *)
Definition default {A} (val : option A) (d : A) : A :=
  match val with Some v => v | None => d end.

(** [divisible_by(num, den)]: [(num % den) == 0]; Python's [%] on integers
    takes the sign of the divisor, as [Z.modulo] does. *)
Definition divisible_by (num den : Z) : bool := (num mod den) =? 0.

(** [is_odd(n)]: [not divisible_by(n, 2)]. *)
Definition is_odd (n : Z) : bool := negb (divisible_by n 2).

(** ** Tensors *)

Record tensor (A : Type) : Type := mkTensor { shape : list nat; data : list A }.
Arguments mkTensor {A} shape data.
Arguments shape {A} t.
Arguments data {A} t.

Definition numel (s : list nat) : nat := fold_right Nat.mul 1%nat s.
Definition ndim {A} (t : tensor A) : nat := length (shape t).

Definition scalar {A} (a : A) : tensor A := mkTensor [] [a].
Definition tmap {A B} (f : A -> B) (t : tensor A) : tensor B :=
  mkTensor (shape t) (map f (data t)).

Definition shape_eqb (s1 s2 : list nat) : bool :=
  if list_eq_dec Nat.eq_dec s1 s2 then true else false.

(** [chunks m k d]: the [k] consecutive blocks of [m] elements of [d]. *)
Fixpoint chunks {A} (m k : nat) (d : list A) : list (list A) :=
  match k with
  | O => []
  | S k' => firstn m d :: chunks m k' (skipn m d)
  end.

(** Shapes are aligned on the right; missing leading dimensions count as 1. *)
Definition pad_left (n : nat) (s : list nat) : list nat :=
  repeat 1%nat (n - length s) ++ s.

(** [Tensor.expand] on data, source and target shapes of equal length:
    a dimension of size 1 is repeated, an equal one is kept. *)
Fixpoint expand_aligned {A} (src tgt : list nat) (d : list A) : list A :=
  match src, tgt with
  | k :: ks, k' :: ks' =>
      let rows := map (expand_aligned ks ks') (chunks (numel ks) k d) in
      if (k =? k')%nat then concat rows
      else concat (repeat (hd [] rows) k')
  | _, _ => d
  end.

Fixpoint expandable (src tgt : list nat) : bool :=
  match src, tgt with
  | [], [] => true
  | k :: ks, k' :: ks' => ((k =? k')%nat || (k =? 1)%nat) && expandable ks ks'
  | _, _ => false
  end.

Definition expand {A} (t : tensor A) (tgt : list nat) : result (tensor A) :=
  let src := pad_left (length tgt) (shape t) in
  if (length (shape t) <=? length tgt)%nat && expandable src tgt
  then Ok (mkTensor tgt (expand_aligned src tgt (data t)))
  else Raise (RuntimeError "expand: sizes do not match").

(** Shape of the broadcast of two shapes (aligned, equal length). *)
Fixpoint broadcast_aligned (s1 s2 : list nat) : option (list nat) :=
  match s1, s2 with
  | [], [] => Some []
  | a :: s1', b :: s2' =>
      match broadcast_aligned s1' s2' with
      | None => None
      | Some r =>
          if (a =? b)%nat then Some (a :: r)
          else if (a =? 1)%nat then Some (b :: r)
          else if (b =? 1)%nat then Some (a :: r)
          else None
      end
  | _, _ => None
  end.

Definition broadcast_shapes (s1 s2 : list nat) : result (list nat) :=
  let n := Nat.max (length s1) (length s2) in
  match broadcast_aligned (pad_left n s1) (pad_left n s2) with
  | Some s => Ok s
  | None => Raise (RuntimeError "shapes cannot be broadcast")
  end.

Fixpoint zip_with {A B C} (f : A -> B -> C) (l1 : list A) (l2 : list B) : list C :=
  match l1, l2 with
  | a :: l1', b :: l2' => f a b :: zip_with f l1' l2'
  | _, _ => []
  end.

(** A binary elementwise torch operation, with broadcasting. *)
Definition bc_binop {A B C} (f : A -> B -> C) (a : tensor A) (b : tensor B)
  : result (tensor C) :=
  let* s := broadcast_shapes (shape a) (shape b) in
  let* a' := expand a s in
  let* b' := expand b s in
  Ok (mkTensor s (zip_with f (data a') (data b'))).

(** [t[..., None]]. *)
Definition unsqueeze_last {A} (t : tensor A) : tensor A :=
  mkTensor (shape t ++ [1%nat]) (data t).

(** [torch.arange(n, dtype = torch.long)]. *)
Definition arange (n : Z) : result (tensor Z) :=
  if n <? 0 then Raise (RuntimeError "arange: upper bound below lower bound")
  else Ok (mkTensor [Z.to_nat n] (map Z.of_nat (seq 0 (Z.to_nat n)))).

(** Size inference of [Tensor.reshape]: at most one dimension may be [-1]. *)
Definition infer_size (dims : list Z) (n : nat) : result (list nat) :=
  if existsb (fun d => d <? -1) dims
  then Raise (RuntimeError "invalid shape dimension")
  else if (1 <? length (filter (fun d => (d =? -1)%Z) dims))%nat
  then Raise (RuntimeError "only one dimension can be inferred")
  else
    let known := filter (fun d => negb (d =? -1)) dims in
    let newsize := numel (map Z.to_nat known) in
    let infer := existsb (fun d => d =? -1) dims in
    if (n =? newsize)%nat
       || (infer && (0 <? newsize)%nat && (n mod newsize =? 0)%nat)
    then
      if infer then
        if (newsize =? 0)%nat
        then Raise (RuntimeError "unspecified dimension size -1 is ambiguous")
        else Ok (map (fun d => if d =? -1 then (n / newsize)%nat else Z.to_nat d) dims)
      else Ok (map Z.to_nat dims)
    else Raise (RuntimeError "shape is invalid for input size").

Definition reshape {A} (t : tensor A) (dims : list Z) : result (tensor A) :=
  let* s := infer_size dims (length (data t)) in
  Ok (mkTensor s (data t)).

(** [Tensor.long()]: conversion to a 64-bit integer truncates toward zero;
    a value outside the 64-bit range converts to the smallest 64-bit
    integer. *)
Class Long (A : Type) : Type := long : A -> Z.
#[global] Instance Long_Z : Long Z := fun z => z.
#[global] Instance Long_Q : Long Q := fun q =>
  let z := Z.quot (Qnum q) (Zpos (Qden q)) in
  if (- 2 ^ 63 <=? z) && (z <? 2 ^ 63) then z else - 2 ^ 63.

(** Arithmetic on 64-bit integers wraps around. *)
Definition wrap64 (z : Z) : Z := (z + 2 ^ 63) mod 2 ^ 64 - 2 ^ 63.

(** ** Single-precision arithmetic

    [float32 q] is the binary32 number nearest to [q], ties to even: a
    significand of 24 bits, gradual underflow below 2^-126.  Overflow to
    infinity (from 2^128 on) is not represented. *)
Definition pow2 (k : Z) : Q :=
  if 0 <=? k then inject_Z (2 ^ k) else / inject_Z (2 ^ (- k)).

(** The integer part of the binary logarithm of a positive rational. *)
Definition floor_log2 (q : Q) : Z :=
  if Qle_bool 1 q then Z.log2 (Qfloor q) else - Z.log2_up (Qceiling (/ q)).

Definition round_half_even (q : Q) : Z :=
  let f := Qfloor q in
  match (q - inject_Z f ?= 1 # 2)%Q with
  | Lt => f
  | Gt => f + 1
  | Eq => if Z.even f then f else f + 1
  end.

Definition float32 (q : Q) : Q :=
  if Qeq_bool q 0 then 0%Q
  else
    let a := Qabs q in
    let k := Z.max (floor_log2 a - 23) (-149) in
    let m := (inject_Z (round_half_even (a * pow2 (- k))) * pow2 k)%Q in
    if Qle_bool 0 q then m else (- m)%Q.

(** ** Mask construction helpers *)

Definition mask_from_start_end_indices {A} `{Long A}
  (seq_len : Z) (start end_ : tensor A) : result (tensor bool) :=
  let* _ := assert (shape_eqb (shape start) (shape end_)) in
  let* seq0 := arange seq_len in
  let* seq1 := reshape seq0 (repeat (-1) (ndim start) ++ [seq_len]) in
  let* seq2 := expand seq1 (shape start ++ [Z.to_nat seq_len]) in
  let* mask := bc_binop Z.geb seq2 (tmap long (unsqueeze_last start)) in
  let* lt := bc_binop Z.ltb seq2 (tmap long (unsqueeze_last end_)) in
  bc_binop andb mask lt.

(** ** The world: random sources, training flag, standard output *)

(** Python's [random] module and torch's default generator are two streams
    of draws, each with the index of its next draw; [training] is the mode
    flag that [Module.train()] and [Module.eval()] set on the network. *)
Record world : Type := mkWorld {
  py_tape : nat -> Q;
  py_pos : nat;
  torch_tape : nat -> Q;
  torch_pos : nat;
  training : bool;
  stdout : list string
}.

Definition M (A : Type) : Type := world -> result A * world.

Definition ret {A} (a : A) : M A := fun w => (Ok a, w).
Definition lift {A} (r : result A) : M A := fun w => (r, w).
Definition bind {A B} (m : M A) (k : A -> M B) : M B :=
  fun w => match m w with
           | (Ok a, w') => k a w'
           | (Raise e, w') => (Raise e, w')
           end.

Notation "x <- m ;; k" := (bind m (fun x => k))
  (at level 61, m at next level, right associativity).
Notation "' p <- m ;; k" := (bind m (fun p => k))
  (at level 61, p pattern, m at next level, right associativity).
Notation "m ;;; k" := (bind m (fun _ => k))
  (at level 61, right associativity).

(** The fractional part of a rational: a value of the half-open unit
    interval, whatever the stream holds. *)
Definition unit_frac (q : Q) : Q := (q - inject_Z (Qfloor q))%Q.

(** [random()] of Python's [random] module: a draw from [0, 1). *)
Definition py_random : M Q := fun w =>
  (Ok (unit_frac (py_tape w (py_pos w))),
   mkWorld (py_tape w) (S (py_pos w)) (torch_tape w) (torch_pos w)
           (training w) (stdout w)).

Definition torch_advance (n : nat) (w : world) : world :=
  mkWorld (py_tape w) (py_pos w) (torch_tape w) (torch_pos w + n)
          (training w) (stdout w).

(** [torch.zeros(shape).float().uniform_(lo, hi)]: [numel shape] draws from
    [lo, hi). *)
Definition uniform_ (s : list nat) (lo hi : Q) : M (tensor Q) := fun w =>
  if Qle_bool lo hi then
    (Ok (mkTensor s
           (map (fun k => (lo + (hi - lo) * unit_frac (torch_tape w (torch_pos w + k)))%Q)
                (seq 0 (numel s)))),
     torch_advance (numel s) w)
  else (Raise (RuntimeError "uniform_ expects from <= to"), w).

(** [torch.randn(shape)] and [torch.randn_like]: [numel shape] normal draws,
    any value of the stream. *)
Definition randn (s : list nat) : M (tensor Q) := fun w =>
  (Ok (mkTensor s (map (fun k => torch_tape w (torch_pos w + k)%nat) (seq 0 (numel s)))),
   torch_advance (numel s) w).

Definition print (line : string) : M unit := fun w =>
  (Ok tt, mkWorld (py_tape w) (py_pos w) (torch_tape w) (torch_pos w)
                  (training w) (stdout w ++ [line])).

Definition set_training (b : bool) : M unit := fun w =>
  (Ok tt, mkWorld (py_tape w) (py_pos w) (torch_tape w) (torch_pos w)
                  b (stdout w)).

(** [coin_flip()]: [random() < 0.5]. *)
Definition coin_flip : M bool :=
  r <- py_random ;; ret (negb (Qle_bool (1 # 2) r)).

(** [prob_mask_like(shape, prob, device)]. *)
Definition prob_mask_like (s : list nat) (prob : Q) : M (tensor bool) :=
  if Qeq_bool prob 1 then ret (mkTensor s (repeat true (numel s)))
  else if Qeq_bool prob 0 then ret (mkTensor s (repeat false (numel s)))
  else u <- uniform_ s 0 1 ;; ret (tmap (fun x => negb (Qle_bool prob x)) u).

(** [mask_from_frac_lengths(seq_len, frac_lengths)], for a single-precision
    [frac_lengths] (as [forward] builds it): the product with [seq_len], the
    product of the 64-bit [max_start] with the single-precision [rand] and
    the sum [start + lengths] are single-precision operations, an integer
    operand being converted first. *)
Definition mask_from_frac_lengths (seq_len : Z) (frac_lengths : tensor Q)
  : M (tensor bool) :=
  let lengths :=
    tmap long (tmap (fun f => float32 (f * float32 (inject_Z seq_len))) frac_lengths) in
  let max_start := tmap (fun l => wrap64 (seq_len - l)) lengths in
  rand <- uniform_ (shape frac_lengths) 0 1 ;;
  prod <- lift (bc_binop (fun m r => float32 (float32 (inject_Z m) * r))
                         max_start rand) ;;
  let start := tmap (fun x => Qmax x 0) prod in
  end_ <- lift (bc_binop (fun s l => float32 (s + float32 (inject_Z l)))
                         start lengths) ;;
  lift (mask_from_start_end_indices seq_len start end_).

(** ** Module construction

    What the constructors build is recorded as a tree of the library layers
    they request.  The library's own argument checks are not part of the
    source: they are the operation [torch_rejects] of the class [Torch]. *)

Inductive tensor_init : Type := Zeros | Ones | Randn.

Inductive layer : Type :=
| nn_Linear (in_features out_features : Z) (bias : bool)
| nn_Embedding (num_embeddings embedding_dim : Z)
| nn_Conv1d (in_channels out_channels kernel_size groups padding : Z)
| nn_GELU
| nn_Parameter (init : tensor_init) (size : Z)
| inv_freq_buffer (dim theta : Z)
| Attend (flash : bool)
| einops_Rearrange (pattern : string).

Class Torch : Type := torch_rejects : layer -> option exn.

Definition new {T : Torch} (l : layer) : result layer :=
  match torch_rejects l with
  | Some e => Raise e
  | None => Ok l
  end.

(** The calls a working installation accepts: positive sizes, a group count
    that divides the channels, the attention kernel without flash. *)
Definition sane_call (l : layer) : bool :=
  match l with
  | nn_Linear i o _ => (0 <? i) && (0 <? o)
  | nn_Embedding n d => (0 <? n) && (0 <? d)
  | nn_Conv1d ci co k g p =>
      (0 <? ci) && (0 <? co) && (0 <? k) && (0 <? g) && (0 <=? p)
      && (ci mod g =? 0) && (co mod g =? 0)
  | nn_GELU => true
  | nn_Parameter _ n => 0 <? n
  | inv_freq_buffer d th => (0 <? d) && (0 <? th)
  | Attend flash => negb flash
  | einops_Rearrange _ => true
  end.

(** The names bound at module level by the imports and the definitions of
    [voicebox_pytorch.py]; none of them is a Python builtin. *)
Definition module_globals : list string :=
  [ "math"; "partial"; "random"; "torch"; "nn"; "Tensor"; "einsum"; "Module";
    "F"; "to"; "odeint"; "beartype"; "Tuple";
    "rearrange"; "repeat"; "reduce"; "pack"; "unpack"; "Attend";
    "exists"; "identity"; "default"; "divisible_by"; "is_odd"; "coin_flip";
    "pack_one"; "unpack_one"; "prob_mask_like";
    "mask_from_start_end_indices"; "mask_from_frac_lengths";
    "LearnedSinusoidalPosEmb"; "RotaryEmbedding"; "rotate_half";
    "apply_rotary_pos_emb"; "ConvPositionEmbed"; "RMSNorm"; "Attention";
    "FeedForward"; "Transformer"; "DurationPredictor"; "VoiceBox";
    "ConditionalFlowMatcherWrapper" ]%string.

(** Evaluation of a global name inside a function body. *)
Definition lookup_global (name : string) : result unit :=
  if in_dec string_dec name module_globals then Ok tt
  else Raise (NameError name).

Fixpoint mapM {A B} (f : A -> result B) (l : list A) : result (list B) :=
  match l with
  | [] => Ok []
  | a :: l' => let* b := f a in let* bs := mapM f l' in Ok (b :: bs)
  end.

(** [range(n)]. *)
Definition range (n : Z) : list Z := map Z.of_nat (seq 0 (Z.to_nat n)).

Module LearnedSinusoidalPosEmb.
Record t : Type := { weights : layer }.

Definition init {T : Torch} (dim : Z) : result t :=
  let* _ := assert (divisible_by dim 2) in
  let half_dim := dim / 2 in
  let* w := new (nn_Parameter Randn half_dim) in
  Ok {| weights := w |}.
End LearnedSinusoidalPosEmb.

Module RotaryEmbedding.
Record t : Type := { inv_freq : layer }.

Definition init {T : Torch} (dim : Z) (theta : Z) : result t :=
  let* b := new (inv_freq_buffer dim theta) in
  Ok {| inv_freq := b |}.
End RotaryEmbedding.

Module ConvPositionEmbed.
Record t : Type := { dw_conv1d : list layer }.

Definition init {T : Torch} (dim : Z) (kernel_size : Z) (groups : option Z)
  : result t :=
  let* _ := assert (is_odd kernel_size) in
  let groups := default groups dim in
  let* conv := new (nn_Conv1d dim dim kernel_size groups (kernel_size / 2)) in
  let* act := new nn_GELU in
  Ok {| dw_conv1d := [conv; act] |}.
End ConvPositionEmbed.

Module RMSNorm.
(** [scale] is [dim ** 0.5]: the field keeps [dim]. *)
Record t : Type := { scale_squared : Z; gamma : layer }.

Definition init {T : Torch} (dim : Z) : result t :=
  let* g := new (nn_Parameter Ones dim) in
  Ok {| scale_squared := dim; gamma := g |}.
End RMSNorm.

Module Attention.
(** [scale] is [dim_head ** -0.5]: the field keeps [dim_head]; Python
    raises [ZeroDivisionError] for a zero base. *)
Record t : Type := {
  heads : Z;
  scale_inv_squared : Z;
  attend : layer;
  norm : RMSNorm.t;
  to_qkv : layer;
  to_out : layer
}.

Definition init {T : Torch} (dim dim_head heads : Z) (flash : bool) : result t :=
  let* _ := (if dim_head =? 0 then Raise ZeroDivisionError else Ok tt) in
  let dim_inner := dim_head * heads in
  let* a := new (Attend flash) in
  let* n := RMSNorm.init dim in
  let* qkv := new (nn_Linear dim (dim_inner * 3) false) in
  let* out := new (nn_Linear dim_inner dim false) in
  Ok {| heads := heads; scale_inv_squared := dim_head; attend := a;
        norm := n; to_qkv := qkv; to_out := out |}.
End Attention.

Module FeedForward.
Record t : Type := { norm : RMSNorm.t; proj_in : layer; act : layer; proj_out : layer }.

Definition init {T : Torch} (dim mult : Z) : result t :=
  let* n := RMSNorm.init dim in
  let* a := new (nn_Linear dim (dim * mult) true) in
  let* g := new nn_GELU in
  let* b := new (nn_Linear (dim * mult) dim true) in
  Ok {| norm := n; proj_in := a; act := g; proj_out := b |}.
End FeedForward.

Module Transformer.
Record block : Type := {
  skip_combiner : option layer;
  attn : Attention.t;
  ff : FeedForward.t
}.

Record t : Type := {
  layers : list block;
  rotary_emb : RotaryEmbedding.t;
  final_norm : RMSNorm.t
}.

Definition init_block {T : Torch} (dim depth dim_head heads ff_mult : Z)
  (attn_flash : bool) (ind : Z) : result block :=
  let layer := ind + 1 in
  let has_skip := (depth / 2) <? layer in
  let* s := (if has_skip
             then let* l := new (nn_Linear (dim * 2) dim true) in Ok (Some l)
             else Ok None) in
  let* a := Attention.init dim dim_head heads attn_flash in
  let* f := FeedForward.init dim ff_mult in
  Ok {| skip_combiner := s; attn := a; ff := f |}.

Definition init {T : Torch} (dim depth dim_head heads ff_mult : Z)
  (attn_flash : bool) : result t :=
  let* _ := assert (divisible_by depth 2) in
  let* r := RotaryEmbedding.init dim_head 10000 in
  let* ls := mapM (init_block dim depth dim_head heads ff_mult attn_flash)
                  (range depth) in
  let* n := RMSNorm.init dim in
  Ok {| layers := ls; rotary_emb := r; final_norm := n |}.
End Transformer.

(** ** Tensor plumbing used by the forward passes *)

Local Open Scope Q_scope.

Definition Qsum (l : list Q) : Q := fold_right Qplus 0 l.

(** [t.mean()]: a 0-dimensional tensor.  Of an empty tensor torch returns
    nan; rationals have no nan, and the quotient by zero is 0 here: the
    definition follows the program on tensors with at least one entry only,
    and the property on the value of the two losses takes such tensors. *)
Definition tmean (t : tensor Q) : tensor Q :=
  scalar (Qsum (data t) / inject_Z (Z.of_nat (length (data t)))).

(** [x.shape[-1]]. *)
Definition last_dim {A} (t : tensor A) : result nat :=
  match rev (shape t) with
  | d :: _ => Ok d
  | [] => Raise IndexError
  end.

(** [batch, seq_len, cond_dim = cond.shape]. *)
Definition unpack3 (s : list nat) : result (nat * nat * nat) :=
  match s with
  | [a; b; c] => Ok (a, b, c)
  | _ => Raise (ValueError "wrong number of values to unpack")
  end.

(** [repeat(times, '-> b', b = n)] and [repeat(times, '1 -> b', b = n)]. *)
Definition repeat_to_batch {A} (t : tensor A) (n : nat) : result (tensor A) :=
  match data t with
  | [a] => Ok (mkTensor [n] (repeat a n))
  | _ => Raise (EinopsError "repeat: shape mismatch")
  end.

Fixpoint zip_with3 {A B C D} (f : A -> B -> C -> D)
  (l1 : list A) (l2 : list B) (l3 : list C) : list D :=
  match l1, l2, l3 with
  | a :: l1', b :: l2', c :: l3' => f a b c :: zip_with3 f l1' l2' l3'
  | _, _, _ => []
  end.

(** [torch.where(c, a, b)], with broadcasting of the three operands. *)
Definition where_ {A} (c : tensor bool) (a b : tensor A) : result (tensor A) :=
  let* s1 := broadcast_shapes (shape c) (shape a) in
  let* s := broadcast_shapes s1 (shape b) in
  let* c' := expand c s in
  let* a' := expand a s in
  let* b' := expand b s in
  Ok (mkTensor s (zip_with3 (fun x y z => if x : bool then y else z)
                            (data c') (data a') (data b'))).

(** [t.masked_fill(mask, v)]: the mask is broadcast to the shape of [t]. *)
Definition masked_fill {A} (t : tensor A) (mask : tensor bool) (v : A)
  : result (tensor A) :=
  let* m := expand mask (shape t) in
  Ok (mkTensor (shape t) (zip_with (fun x b => if b : bool then v else x)
                                   (data t) (data m))).

(** One block of each operand per outer index, in turn. *)
Fixpoint interleave {A} (outer : nat) (blocks : list (nat * list A)) : list A :=
  match outer with
  | O => []
  | S o =>
      flat_map (fun b => firstn (fst b) (snd b)) blocks
      ++ interleave o (map (fun b => (fst b, skipn (fst b) (snd b))) blocks)
  end.

Definition same_but_axis (axis : nat) (s1 s2 : list nat) : bool :=
  shape_eqb (firstn axis s1) (firstn axis s2)
  && shape_eqb (skipn (S axis) s1) (skipn (S axis) s2)
  && (axis <? length s1)%nat && (axis <? length s2)%nat.

(** [torch.cat(ts, dim = axis)]. *)
Definition cat_axis {A} (axis : nat) (ts : list (tensor A)) : result (tensor A) :=
  match ts with
  | [] => Raise (RuntimeError "cat: expected a non-empty list of tensors")
  | t0 :: _ =>
      if forallb (fun t => same_but_axis axis (shape t0) (shape t)) ts then
        let s0 := shape t0 in
        let total := fold_right Nat.add 0%nat (map (fun t => nth axis (shape t) 0%nat) ts) in
        Ok (mkTensor (firstn axis s0 ++ [total] ++ skipn (S axis) s0)
              (interleave (numel (firstn axis s0))
                 (map (fun t => (numel (skipn axis (shape t)), data t)) ts)))
      else Raise (RuntimeError "cat: sizes of tensors must match except in the cat dimension")
  end.

(** [torch.cat(ts, dim = -1)]. *)
Definition cat_last {A} (ts : list (tensor A)) : result (tensor A) :=
  match ts with
  | [] => Raise (RuntimeError "cat: expected a non-empty list of tensors")
  | t0 :: _ =>
      match ndim t0 with
      | O => Raise (RuntimeError "cat: zero-dimensional tensor cannot be concatenated")
      | S k => cat_axis k ts
      end
  end.

(** [pack((a, b), 'b * d')]: both operands are viewed as (b, -1, d) and
    concatenated along the middle axis; the second component is the list of
    the middle shapes. *)
Definition middle (s : list nat) : list nat := removelast (tl s).

(** The view of one operand: [reshape(t, (b, -1, d))], which torch refuses
    when [b * d = 0], the size of the dimension -1 being then ambiguous. *)
Definition view_b_star_d {A} (t : tensor A) : result (tensor A) :=
  match shape t with
  | b :: _ :: _ =>
      let* d := last_dim t in
      let* s := infer_size [Z.of_nat b; (-1)%Z; Z.of_nat d] (numel (shape t)) in
      Ok (mkTensor s (data t))
  | _ => Raise (EinopsError "pack: too few dimensions for pattern b * d")
  end.

Definition pack_b_star_d {A} (ts : list (tensor A))
  : result (tensor A * list (list nat)) :=
  let* vs := mapM view_b_star_d ts in
  let* packed := cat_axis 1 vs in
  Ok (packed, map (fun t => middle (shape t)) ts).

(** [unpack(t, ps, 'b * d')]: the middle axis is cut at the cumulated sizes
    of [ps], the last piece taking what remains; every piece is reshaped
    to (b, *p, d). *)
Fixpoint cut_positions (sizes : list nat) (from total : nat) : list (nat * nat) :=
  match sizes with
  | [] => []
  | [_] => [(from, total - from)%nat]
  | m :: rest => (from, m) :: cut_positions rest (from + m) total
  end.

Definition unpack_b_star_d {A} (t : tensor A) (ps : list (list nat))
  : result (list (tensor A)) :=
  match shape t with
  | [b; total; d] =>
      let rows := chunks (total * d) b (data t) in
      mapM (fun '(p, (off, len)) =>
              if (len =? numel p)%nat then
                Ok (mkTensor (b :: p ++ [d])
                      (flat_map (fun row => firstn (len * d) (skipn (off * d) row)) rows))
              else Raise (RuntimeError "unpack: could not split axis into requested shapes"))
           (combine ps (cut_positions (map numel ps) 0 total))
  | _ => Raise (EinopsError "unpack: wrong number of dimensions for pattern b * d")
  end.

(** [pack_one(t, 'b *')], [unpack_one(t, ps, 'b *')] and
    [rearrange(t, 'b ... -> b (...)')].  Packing views the tensor with
    [reshape(t, (b, -1))], which torch refuses for an empty batch. *)
Definition pack_one {A} (t : tensor A) : result (tensor A * list (list nat)) :=
  match shape t with
  | b :: rest =>
      let* s := infer_size [Z.of_nat b; (-1)%Z] (numel (shape t)) in
      Ok (mkTensor s (data t), [rest])
  | [] => Raise (EinopsError "pack: too few dimensions for pattern b *")
  end.

Definition unpack_one {A} (t : tensor A) (ps : list (list nat)) : result (tensor A) :=
  match shape t, ps with
  | [b; total], p :: _ =>
      if (total =? numel p)%nat then Ok (mkTensor (b :: p) (data t))
      else Raise (RuntimeError "unpack: could not split axis into requested shapes")
  | _, [] => Raise IndexError
  | _, _ => Raise (EinopsError "unpack: wrong number of dimensions for pattern b *")
  end.

Definition flatten_but_batch {A} (t : tensor A) : result (tensor A) :=
  match shape t with
  | b :: rest => Ok (mkTensor [b; numel rest] (data t))
  | [] => Raise (EinopsError "rearrange: too few dimensions for pattern b ...")
  end.

(** [reduce(t, 'b n d -> b n', 'mean')]. *)
Definition reduce_mean_bnd (t : tensor Q) : result (tensor Q) :=
  match shape t with
  | [b; n; d] =>
      Ok (mkTensor [b; n]
            (map (fun row => Qsum row / inject_Z (Z.of_nat d)) (chunks d (b * n) (data t))))
  | _ => Raise (EinopsError "reduce: wrong number of dimensions for b n d")
  end.

(** [reduce(t, 'b n -> b', 'sum')]. *)
Definition reduce_sum_bn (t : tensor Q) : result (tensor Q) :=
  match shape t with
  | [b; n] => Ok (mkTensor [b] (map Qsum (chunks n b (data t))))
  | _ => Raise (EinopsError "reduce: wrong number of dimensions for b n")
  end.

(** [mask.sum(dim = -1)]: the count of True entries along the last axis,
    an integer tensor. *)
Definition count_true (l : list bool) : Z := Z.of_nat (length (filter (fun b => b) l)).

Definition sum_last (mask : tensor bool) : tensor Z :=
  match rev (shape mask) with
  | n :: outer_rev =>
      mkTensor (rev outer_rev) (map count_true (chunks n (numel (rev outer_rev)) (data mask)))
  | [] => mkTensor [] (map count_true [data mask])
  end.

(** [t.clamp(min = 1e-5)] of an integer tensor: promoted to floating point. *)
Definition clamp_min (lo : Q) (t : tensor Z) : tensor Q :=
  tmap (fun z => Qmax (inject_Z z) lo) t.

Definition Qsq (q : Q) : Q := q * q.

(** [F.mse_loss] and [F.l1_loss]; both read [target.size()] first, which
    fails on [None]. *)
Definition no_size : exn :=
  AttributeError "'NoneType' object has no attribute 'size'".

Definition F_mse_loss_none (input : tensor Q) (target : option (tensor Q))
  : result (tensor Q) :=
  match target with
  | None => Raise no_size
  | Some tg => bc_binop (fun a b => Qsq (a - b)) input tg
  end.

Definition F_mse_loss (input : tensor Q) (target : option (tensor Q))
  : result (tensor Q) :=
  let* l := F_mse_loss_none input target in Ok (tmean l).

Definition F_l1_loss_none (input : tensor Q) (target : option (tensor Q))
  : result (tensor Q) :=
  match target with
  | None => Raise no_size
  | Some tg => bc_binop (fun a b => Qabs (a - b)) input tg
  end.

Definition F_l1_loss (input : tensor Q) (target : option (tensor Q))
  : result (tensor Q) :=
  let* l := F_l1_loss_none input target in Ok (tmean l).

(** The lines under the comment [# masked mean], shared by both predictors. *)
Definition masked_mean (loss : tensor Q) (mask : tensor bool) : result (tensor Q) :=
  let* num := reduce_sum_bn loss in
  let den := clamp_min (1 # 100000) (sum_last mask) in
  let* loss := bc_binop Qdiv num den in
  Ok (tmean loss).

Local Close Scope Q_scope.

(** ** Numerical behaviour of the layers

    The kernels of the layers (matrix products, convolution, sine and
    cosine, attention) are outside this development; their action on
    tensors is the class [Numerics]. *)

Class Numerics : Type := {
  Embedding_forward : layer -> tensor Z -> result (tensor Q);
  Linear_forward : layer -> tensor Q -> result (tensor Q);
  Parameter_value : layer -> tensor Q;
  LearnedSinusoidalPosEmb_forward : LearnedSinusoidalPosEmb.t -> tensor Q -> result (tensor Q);
  ConvPositionEmbed_forward : ConvPositionEmbed.t -> tensor Q -> result (tensor Q);
  Transformer_forward : Transformer.t -> tensor Q -> result (tensor Q)
}.

(** The mask built when the caller gives none (both predictors). *)
Definition construct_mask (batch seq_len : nat) (frac_lengths_mask : Q * Q)
  (p_drop_prob : Q) (mask : option (tensor bool)) : M (option (tensor bool)) :=
  if negb (exists_ mask) then
    c <- coin_flip ;;
    if c : bool then
      frac_lengths <- uniform_ [batch] (fst frac_lengths_mask) (snd frac_lengths_mask) ;;
      m <- mask_from_frac_lengths (Z.of_nat seq_len) frac_lengths ;;
      ret (Some m)
    else
      m <- prob_mask_like [batch; seq_len] p_drop_prob ;;
      ret (Some m)
  else ret mask.

(** Classifier-free guidance: the dropped batch items get the null
    conditioning and the null phoneme id. *)
Definition drop_condition (batch : nat) (cond_drop_prob : Q)
  (null_cond : tensor Q) (null_phoneme_id : Z)
  (cond : tensor Q) (phoneme_ids : tensor Z) : M (tensor Q * tensor Z) :=
  if negb (Qle_bool cond_drop_prob 0) then
    cond_drop_mask <- prob_mask_like [batch] cond_drop_prob ;;
    let m11 := mkTensor (shape cond_drop_mask ++ [1; 1]%nat) (data cond_drop_mask) in
    cond' <- lift (where_ m11 null_cond cond) ;;
    let m1 := mkTensor (shape cond_drop_mask ++ [1]%nat) (data cond_drop_mask) in
    ids' <- lift (where_ m1 (scalar null_phoneme_id) phoneme_ids) ;;
    ret (cond', ids')
  else ret (cond, phoneme_ids).

(** [null_logits + (logits - null_logits) * cond_scale]. *)
Definition guide (logits null_logits : tensor Q) (cond_scale : Q) : result (tensor Q) :=
  let* diff := bc_binop Qminus logits null_logits in
  bc_binop Qplus null_logits (tmap (fun d => (d * cond_scale)%Q) diff).

Module DurationPredictor.
Module Args.
Record t : Type := {
  num_phoneme_tokens : Z;
  dim_phoneme_emb : Z;
  dim : Z;
  depth : Z;
  dim_head : Z;
  heads : Z;
  ff_mult : Z;
  conv_pos_embed_kernel_size : Z;
  conv_pos_embed_groups : option Z;
  attn_flash : bool;
  p_drop_prob : Q;
  frac_lengths_mask : Q * Q
}.

(** The defaults of the signature. *)
Definition defaults (num_phoneme_tokens : Z) : t :=
  {| num_phoneme_tokens := num_phoneme_tokens; dim_phoneme_emb := 512;
     dim := 512; depth := 10; dim_head := 64; heads := 8; ff_mult := 4;
     conv_pos_embed_kernel_size := 31; conv_pos_embed_groups := None;
     attn_flash := false; p_drop_prob := (2 # 10)%Q;
     frac_lengths_mask := ((1 # 10)%Q, 1%Q) |}.
End Args.

Record t : Type := {
  null_phoneme_id : Z;
  to_phoneme_emb : layer;
  p_drop_prob : Q;
  frac_lengths_mask : Q * Q;
  to_embed : layer;
  null_cond : layer;
  conv_embed : ConvPositionEmbed.t;
  transformer : Transformer.t;
  to_pred : list layer
}.

Definition init {T : Torch} (a : Args.t) : result t :=
  let dim := Args.dim a in
  let* emb := new (nn_Embedding (Args.num_phoneme_tokens a + 1) (Args.dim_phoneme_emb a)) in
  let* to_embed := new (nn_Linear (dim * 2 + Args.dim_phoneme_emb a) dim true) in
  let* null_cond := new (nn_Parameter Zeros dim) in
  let* conv := ConvPositionEmbed.init dim (Args.conv_pos_embed_kernel_size a)
                 (Args.conv_pos_embed_groups a) in
  let* tr := Transformer.init dim (Args.depth a) (Args.dim_head a) (Args.heads a)
               (Args.ff_mult a) (Args.attn_flash a) in
  let* lin := new (nn_Linear dim 1 true) in
  let* _ := lookup_global "Rearrange" in
  let* re := new (einops_Rearrange "... 1 -> ...") in
  Ok {| null_phoneme_id := Args.num_phoneme_tokens a;
        to_phoneme_emb := emb;
        p_drop_prob := Args.p_drop_prob a;
        frac_lengths_mask := Args.frac_lengths_mask a;
        to_embed := to_embed;
        null_cond := null_cond;
        conv_embed := conv;
        transformer := tr;
        to_pred := [lin; re] |}.

(** The loss of [forward], from the test on [mask] to the batch mean. *)
Definition loss (x : tensor Q) (target : option (tensor Q))
  (mask : option (tensor bool)) : result (tensor Q) :=
  match mask with
  | None => F_l1_loss x target
  | Some mask =>
      let* loss := F_l1_loss_none x target in
      let* loss := masked_fill loss mask 0%Q in
      masked_mean loss mask
  end.

Definition forward {N : Numerics} (self : t) (x : tensor Q)
  (phoneme_ids : tensor Z) (cond : tensor Q) (cond_drop_prob : Q)
  (target : option (tensor Q)) (mask : option (tensor bool)) : M (tensor Q) :=
  '(batch, seq_len, cond_dim) <- lift (unpack3 (shape cond)) ;;
  xd <- lift (last_dim x) ;;
  lift (assert (cond_dim =? xd)%nat) ;;;
  mask <- construct_mask batch seq_len (frac_lengths_mask self) (p_drop_prob self) mask ;;
  '(cond, phoneme_ids) <- drop_condition batch cond_drop_prob
      (Parameter_value (null_cond self)) (null_phoneme_id self) cond phoneme_ids ;;
  phoneme_emb <- lift (Embedding_forward (to_phoneme_emb self) phoneme_ids) ;;
  embed <- lift (cat_last [x; phoneme_emb; cond]) ;;
  x <- lift (Linear_forward (to_embed self) embed) ;;
  c <- lift (ConvPositionEmbed_forward (conv_embed self) x) ;;
  x <- lift (bc_binop Qplus c x) ;;
  x <- lift (Transformer_forward (transformer self) x) ;;
  lift (loss x target mask).

Definition forward_with_cond_scale {N : Numerics} (self : t) (x : tensor Q)
  (cond_scale : Q) (phoneme_ids : tensor Z) (cond : tensor Q)
  (target : option (tensor Q)) (mask : option (tensor bool)) : M (tensor Q) :=
  logits <- forward self x phoneme_ids cond 0%Q target mask ;;
  if Qeq_bool cond_scale 1 then ret logits
  else
    null_logits <- forward self x phoneme_ids cond 1%Q target mask ;;
    lift (guide logits null_logits cond_scale).
End DurationPredictor.

Module VoiceBox.
Module Args.
Record t : Type := {
  num_phoneme_tokens : Z;
  dim_phoneme_emb : Z;
  dim : Z;
  depth : Z;
  dim_head : Z;
  heads : Z;
  ff_mult : Z;
  conv_pos_embed_kernel_size : Z;
  conv_pos_embed_groups : option Z;
  attn_flash : bool;
  p_drop_prob : Q;
  frac_lengths_mask : Q * Q
}.

Definition defaults (num_phoneme_tokens : Z) : t :=
  {| num_phoneme_tokens := num_phoneme_tokens; dim_phoneme_emb := 1024;
     dim := 1024; depth := 24; dim_head := 64; heads := 16; ff_mult := 4;
     conv_pos_embed_kernel_size := 31; conv_pos_embed_groups := None;
     attn_flash := false; p_drop_prob := (3 # 10)%Q;
     frac_lengths_mask := ((7 # 10)%Q, 1%Q) |}.
End Args.

Record t : Type := {
  sinu_pos_emb : LearnedSinusoidalPosEmb.t;
  null_phoneme_id : Z;
  to_phoneme_emb : layer;
  p_drop_prob : Q;
  frac_lengths_mask : Q * Q;
  to_embed : layer;
  null_cond : layer;
  conv_embed : ConvPositionEmbed.t;
  transformer : Transformer.t;
  to_pred : layer
}.

Definition init {T : Torch} (a : Args.t) : result t :=
  let dim := Args.dim a in
  let* sinu := LearnedSinusoidalPosEmb.init dim in
  let* emb := new (nn_Embedding (Args.num_phoneme_tokens a + 1) (Args.dim_phoneme_emb a)) in
  let* to_embed := new (nn_Linear (dim * 2 + Args.dim_phoneme_emb a) dim true) in
  let* null_cond := new (nn_Parameter Zeros dim) in
  let* conv := ConvPositionEmbed.init dim (Args.conv_pos_embed_kernel_size a)
                 (Args.conv_pos_embed_groups a) in
  let* tr := Transformer.init dim (Args.depth a) (Args.dim_head a) (Args.heads a)
               (Args.ff_mult a) (Args.attn_flash a) in
  let* pred := new (nn_Linear dim dim false) in
  Ok {| sinu_pos_emb := sinu;
        null_phoneme_id := Args.num_phoneme_tokens a;
        to_phoneme_emb := emb;
        p_drop_prob := Args.p_drop_prob a;
        frac_lengths_mask := Args.frac_lengths_mask a;
        to_embed := to_embed;
        null_cond := null_cond;
        conv_embed := conv;
        transformer := tr;
        to_pred := pred |}.

(** The automatic shape management of [times]. *)
Definition manage_times (times : tensor Q) (batch : nat) : result (tensor Q) :=
  let* times := (if (ndim times =? 0)%nat then repeat_to_batch times batch
                 else Ok times) in
  if shape_eqb (shape times) [1%nat] then repeat_to_batch times batch
  else Ok times.

(** The loss of [forward] when a target is given, from the test on
    [mask] to the batch mean. *)
Definition loss (x : tensor Q) (target : option (tensor Q))
  (mask : option (tensor bool)) : result (tensor Q) :=
  match mask with
  | None => F_mse_loss x target
  | Some mask =>
      let* loss := F_mse_loss_none x target in
      let* loss := reduce_mean_bnd loss in
      let* loss := masked_fill loss mask 0%Q in
      masked_mean loss mask
  end.

Definition forward {N : Numerics} (self : t) (x : tensor Q)
  (phoneme_ids : tensor Z) (cond : tensor Q) (times : tensor Q)
  (cond_drop_prob : Q)
  (target : option (tensor Q)) (mask : option (tensor bool)) : M (tensor Q) :=
  '(batch, seq_len, cond_dim) <- lift (unpack3 (shape cond)) ;;
  xd <- lift (last_dim x) ;;
  lift (assert (cond_dim =? xd)%nat) ;;;
  times <- lift (manage_times times batch) ;;
  mask <- construct_mask batch seq_len (frac_lengths_mask self) (p_drop_prob self) mask ;;
  '(cond, phoneme_ids) <- drop_condition batch cond_drop_prob
      (Parameter_value (null_cond self)) (null_phoneme_id self) cond phoneme_ids ;;
  phoneme_emb <- lift (Embedding_forward (to_phoneme_emb self) phoneme_ids) ;;
  embed <- lift (cat_last [x; phoneme_emb; cond]) ;;
  x <- lift (Linear_forward (to_embed self) embed) ;;
  c <- lift (ConvPositionEmbed_forward (conv_embed self) x) ;;
  x <- lift (bc_binop Qplus c x) ;;
  time_emb <- lift (LearnedSinusoidalPosEmb_forward (sinu_pos_emb self) times) ;;
  '(x, ps) <- lift (pack_b_star_d [time_emb; x]) ;;
  x <- lift (Transformer_forward (transformer self) x) ;;
  x <- lift (Linear_forward (to_pred self) x) ;;
  parts <- lift (unpack_b_star_d x ps) ;;
  x <- lift (match parts with
             | [_; x] => Ok x
             | _ => Raise (ValueError "wrong number of values to unpack")
             end) ;;
  if negb (exists_ target) then ret x
  else lift (loss x target mask).

Definition forward_with_cond_scale {N : Numerics} (self : t) (x : tensor Q)
  (cond_scale : Q) (phoneme_ids : tensor Z) (cond : tensor Q)
  (times : tensor Q)
  (target : option (tensor Q)) (mask : option (tensor bool)) : M (tensor Q) :=
  logits <- forward self x phoneme_ids cond times 0%Q target mask ;;
  if Qeq_bool cond_scale 1 then ret logits
  else
    null_logits <- forward self x phoneme_ids cond times 1%Q target mask ;;
    lift (guide logits null_logits cond_scale).
End VoiceBox.

(** ** The wrapper for the continuous normalizing flow *)

(** The two integrators are libraries outside the source: [odeint] of
    torchdiffeq, and the solver that [sample] assembles from torchode's
    term, step method, step size controller and adjoint.  Each receives the
    velocity field as a callback that acts on the world. *)
Record odeint_kwargs : Type := {
  atol : Q;
  rtol : Q;
  method : string;
  step_size : Q
}.

Class Solvers : Type := {
  odeint : (tensor Q -> tensor Q -> M (tensor Q)) ->
           tensor Q -> tensor Q -> odeint_kwargs -> M (tensor Q);
  torchode_solve : string -> Q -> Q ->
                   (tensor Q -> tensor Q -> M (tensor Q)) ->
                   tensor Q -> tensor Q -> M (tensor Q)
}.

(** [torch.linspace(0, 1, steps)]. *)
Definition linspace01 (steps : Z) : result (tensor Q) :=
  if steps <? 0 then Raise (RuntimeError "number of steps must be non-negative")
  else
    Ok (mkTensor [Z.to_nat steps]
          (map (fun k => if steps =? 1 then 0%Q
                         else (inject_Z k / inject_Z (steps - 1))%Q)
               (range steps))).

(** [t[-1]]. *)
Definition last_along_first {A} (t : tensor A) : result (tensor A) :=
  match shape t with
  | S k :: rest => Ok (mkTensor rest (skipn (k * numel rest) (data t)))
  | _ => Raise IndexError
  end.

(** [t[:, -1]]. *)
Definition last_along_second {A} (t : tensor A) : result (tensor A) :=
  match shape t with
  | b :: S k :: rest =>
      Ok (mkTensor (b :: rest)
            (flat_map (fun row => skipn (k * numel rest) row)
                      (chunks (S k * numel rest) b (data t))))
  | _ => Raise IndexError
  end.

(** [repeat(t, 'n -> b n', b = batch)]. *)
Definition repeat_rows {A} (t : tensor A) (batch : nat) : result (tensor A) :=
  match shape t with
  | [n] => Ok (mkTensor [batch; n] (concat (repeat (data t) batch)))
  | _ => Raise (EinopsError "repeat: wrong number of dimensions for n")
  end.

Module ConditionalFlowMatcherWrapper.
Record t : Type := {
  sigma : Q;
  voicebox : VoiceBox.t;
  cond_drop_prob : Q;
  use_torchode : bool;
  torchode_method_klass : string;
  kwargs : odeint_kwargs
}.

Definition init (voicebox : VoiceBox.t) (sigma ode_atol ode_rtol ode_step_size : Q)
  (use_torchode : bool) (torchdiffeq_ode_method torchode_method_klass : string)
  (cond_drop_prob : Q) : t :=
  {| sigma := sigma; voicebox := voicebox; cond_drop_prob := cond_drop_prob;
     use_torchode := use_torchode;
     torchode_method_klass := torchode_method_klass;
     kwargs := {| atol := ode_atol; rtol := ode_rtol;
                  method := torchdiffeq_ode_method;
                  step_size := ode_step_size |} |}.

(** The callback [fn] of [sample]. *)
Definition fn {N : Numerics} (self : t) (phoneme_ids : tensor Z) (cond : tensor Q)
  (cond_scale : Q) (packed_shape : option (list (list nat)))
  (t : tensor Q) (x : tensor Q) : M (tensor Q) :=
  x <- lift (match packed_shape with
             | Some ps => unpack_one x ps
             | None => Ok x
             end) ;;
  out <- VoiceBox.forward_with_cond_scale (voicebox self) x cond_scale
           phoneme_ids cond t None None ;;
  lift (match packed_shape with
        | Some _ => flatten_but_batch out
        | None => Ok out
        end).

Definition sample {N : Numerics} {S : Solvers} (self : t) (phoneme_ids : tensor Z)
  (cond : tensor Q) (mask : option (tensor bool)) (steps : Z)
  (cond_scale : Q) : M (tensor Q) :=
  let shape := shape cond in
  batch <- lift (match shape with b :: _ => Ok b | [] => Raise IndexError end) ;;
  set_training false ;;;
  y0 <- randn shape ;;
  t <- lift (linspace01 steps) ;;
  if negb (use_torchode self) then
    print "sampling with torchdiffeq" ;;;
    trajectory <- odeint (fn self phoneme_ids cond cond_scale None) y0 t (kwargs self) ;;
    lift (last_along_first trajectory)
  else
    print "sampling with torchode" ;;;
    t <- lift (repeat_rows t batch) ;;
    '(y0, packed_shape) <- lift (pack_one y0) ;;
    ys <- torchode_solve (torchode_method_klass self)
            (atol (kwargs self)) (rtol (kwargs self))
            (fn self phoneme_ids cond cond_scale (Some packed_shape)) y0 t ;;
    sampled <- lift (last_along_second ys) ;;
    lift (unpack_one sampled packed_shape).

(** The interpolant [w] and the target [flow] of [forward]; [t] is
    [rearrange(times, 'b -> b 1 1')]. *)
Definition w (sigma : Q) (t x0 x1 : tensor Q) : result (tensor Q) :=
  let* a := bc_binop Qmult (tmap (fun v => (1 - (1 - sigma) * v)%Q) t) x0 in
  let* b := bc_binop Qmult t x1 in
  bc_binop Qplus a b.

Definition flow (sigma : Q) (x0 x1 : tensor Q) : result (tensor Q) :=
  bc_binop Qminus x1 (tmap (fun v => ((1 - sigma) * v)%Q) x0).

Definition forward {N : Numerics} (self : t) (x1 : tensor Q)
  (phoneme_ids : tensor Z) (cond : tensor Q) (mask : option (tensor bool))
  : M (tensor Q) :=
  '(batch, seq_len) <- lift (match shape x1 with
                             | b :: n :: _ => Ok (b, n)
                             | _ => Raise (ValueError "not enough values to unpack")
                             end) ;;
  x0 <- randn (shape x1) ;;
  times <- uniform_ [batch] 0 1 ;;
  let t := mkTensor [batch; 1; 1]%nat (data times) in
  w <- lift (w (sigma self) t x0 x1) ;;
  flow <- lift (flow (sigma self) x0 x1) ;;
  set_training true ;;;
  VoiceBox.forward (voicebox self) w phoneme_ids cond times
    (cond_drop_prob self) (Some flow) mask.
End ConditionalFlowMatcherWrapper.

(** ** The layer loop of the transformer

    The kernels of the blocks (rotary table, attention, feed-forward,
    normalisation) are the class [Blocks]; the skip combiner is a linear
    layer of [Numerics]. *)

Class Blocks : Type := {
  RotaryEmbedding_forward : RotaryEmbedding.t -> nat -> result (tensor Q);
  Attention_forward : Attention.t -> tensor Q -> tensor Q -> result (tensor Q);
  FeedForward_forward : FeedForward.t -> tensor Q -> result (tensor Q);
  RMSNorm_forward : RMSNorm.t -> tensor Q -> result (tensor Q)
}.

(** [x.shape[-2]]. *)
Definition penultimate_dim {A} (t : tensor A) : result nat :=
  match rev (shape t) with
  | _ :: n :: _ => Ok n
  | _ => Raise IndexError
  end.

(** The body of the loop of [Transformer.forward]; [skip_connects] is a
    stack, its top at the head. *)
Fixpoint Transformer_layers {N : Numerics} {B : Blocks} (rotary_emb : tensor Q)
  (layers : list Transformer.block) (skip_connects : list (tensor Q))
  (x : tensor Q) : result (tensor Q) :=
  match layers with
  | [] => Ok x
  | blk :: rest =>
      let* xs :=
        match Transformer.skip_combiner blk with
        | None => Ok (x, x :: skip_connects)
        | Some skip_combiner =>
            match skip_connects with
            | [] => Raise IndexError
            | top :: below =>
                let* x := cat_last [x; top] in
                let* x := Linear_forward skip_combiner x in
                Ok (x, below)
            end
        end in
      let x := fst xs in
      let* a := Attention_forward (Transformer.attn blk) x rotary_emb in
      let* x := bc_binop Qplus a x in
      let* f := FeedForward_forward (Transformer.ff blk) x in
      let* x := bc_binop Qplus f x in
      Transformer_layers rotary_emb rest (snd xs) x
  end.

(** [Transformer.forward]. *)
Definition Transformer_forward_body {N : Numerics} {B : Blocks}
  (self : Transformer.t) (x : tensor Q) : result (tensor Q) :=
  let* n := penultimate_dim x in
  let* rotary_emb := RotaryEmbedding_forward (Transformer.rotary_emb self) n in
  let* x := Transformer_layers rotary_emb (Transformer.layers self) [] x in
  RMSNorm_forward (Transformer.final_norm self) x.

(** ** Rotary positional embedding

    Sine and cosine are outside this development: the class [Trig]. *)

Class Trig : Type := { cos : Q -> Q; sin : Q -> Q }.

(** [RotaryEmbedding.forward], for the values of the buffer [inv_freq]. *)
Definition RotaryEmbedding_table (inv_freq : list Q) (seq_len : nat)
  : result (tensor Q) :=
  let* t := arange (Z.of_nat seq_len) in
  let freqs := mkTensor (shape t ++ [length inv_freq])
                 (flat_map (fun i => map (fun f => (inject_Z i * f)%Q) inv_freq)
                           (data t)) in
  cat_last [freqs; freqs].

(** [t.chunk(2, dim = -1)]: chunks of size ceil(d / 2) along the last
    dimension; a last dimension of size 1 gives one chunk only. *)
Definition chunk2_last {A} (t : tensor A) : result (list (tensor A)) :=
  match rev (shape t) with
  | [] => Raise (RuntimeError "chunk expects at least a 1-dimensional tensor")
  | d :: rpre =>
      let pre := rev rpre in
      let c := ((d + 1) / 2)%nat in
      let rows := chunks d (numel pre) (data t) in
      let first := mkTensor (pre ++ [c]) (flat_map (firstn c) rows) in
      let second := mkTensor (pre ++ [(d - c)%nat]) (flat_map (skipn c) rows) in
      if (d =? 1)%nat then Ok [first] else Ok [first; second]
  end.

Definition rotate_half (x : tensor Q) : result (tensor Q) :=
  let* cs := chunk2_last x in
  match cs with
  | [x1; x2] => cat_last [tmap Qopp x2; x1]
  | _ => Raise (ValueError "not enough values to unpack (expected 2, got 1)")
  end.

Definition apply_rotary_pos_emb {Tr : Trig} (pos t : tensor Q) : result (tensor Q) :=
  let* a := bc_binop Qmult t (tmap cos pos) in
  let* r := rotate_half t in
  let* b := bc_binop Qmult r (tmap sin pos) in
  bc_binop Qplus a b.

(** The rotary step of [Attention.forward]:
    [q, k = map(lambda t: apply_rotary_pos_emb(t, rotary_emb), (q, k))]. *)
Definition Attention_rotate {Tr : Trig} (rotary_emb : option (tensor Q))
  (q k : tensor Q) : result (tensor Q * tensor Q) :=
  match rotary_emb with
  | Some rotary_emb =>
      let* q := apply_rotary_pos_emb q rotary_emb in
      let* k := apply_rotary_pos_emb k rotary_emb in
      Ok (q, k)
  | None => Ok (q, k)
  end.

(** ** Vocabulary of the statements *)

(** One row of a mask: True exactly on the half-open range. *)
Definition row_mask (seq_len s e : Z) : list bool :=
  map (fun p => (p >=? s) && (p <? e)) (range seq_len).

(** [z] is a rounding of [q] to the nearest integer, whatever the rule
    for ties. *)
Definition is_round (q : Q) (z : Z) : Prop := (Qabs (q - inject_Z z) <= 1 # 2)%Q.

(** A world whose random streams are constant. *)
Definition constant_world (py torch : Q) : world :=
  mkWorld (fun _ => py) 0 (fun _ => torch) 0 true [].

(** A library that accepts exactly the sane calls. *)
Definition sane_torch : Torch :=
  fun l => if sane_call l then None else Some (RuntimeError "rejected by the library").

(** A library that accepts every call. *)
Definition lenient_torch : Torch := fun _ => None.

(** The library accepts every sane call. *)
Definition accepts_sane (T : Torch) : Prop :=
  forall l, sane_call l = true -> torch_rejects l = None.

(** A group count that the convolution can use. *)
Definition groups_ok (dim : Z) (groups : option Z) : Prop :=
  match groups with
  | None => True
  | Some g => 0 < g /\ dim mod g = 0
  end.

(** Constructor arguments with positive sizes that pass the parity checks
    of the sub-modules. *)
Definition DurationPredictor_valid_args (a : DurationPredictor.Args.t) : Prop :=
  0 <= DurationPredictor.Args.num_phoneme_tokens a
  /\ 0 < DurationPredictor.Args.dim_phoneme_emb a
  /\ 0 < DurationPredictor.Args.dim a
  /\ Z.even (DurationPredictor.Args.depth a) = true
  /\ 0 < DurationPredictor.Args.dim_head a
  /\ 0 < DurationPredictor.Args.heads a
  /\ 0 < DurationPredictor.Args.ff_mult a
  /\ Z.odd (DurationPredictor.Args.conv_pos_embed_kernel_size a) = true
  /\ 0 < DurationPredictor.Args.conv_pos_embed_kernel_size a
  /\ groups_ok (DurationPredictor.Args.dim a) (DurationPredictor.Args.conv_pos_embed_groups a)
  /\ DurationPredictor.Args.attn_flash a = false.

(** The default arguments with an even kernel size of the convolution. *)
Definition args_even_kernel : DurationPredictor.Args.t :=
  {| DurationPredictor.Args.num_phoneme_tokens := 50;
     DurationPredictor.Args.dim_phoneme_emb := 512;
     DurationPredictor.Args.dim := 512;
     DurationPredictor.Args.depth := 10;
     DurationPredictor.Args.dim_head := 64;
     DurationPredictor.Args.heads := 8;
     DurationPredictor.Args.ff_mult := 4;
     DurationPredictor.Args.conv_pos_embed_kernel_size := 30;
     DurationPredictor.Args.conv_pos_embed_groups := None;
     DurationPredictor.Args.attn_flash := false;
     DurationPredictor.Args.p_drop_prob := (2 # 10)%Q;
     DurationPredictor.Args.frac_lengths_mask := ((1 # 10)%Q, 1%Q) |}.

(** Layers with the simplest numerical behaviour: an embedding of width 1
    that reads the id as a number, and identities. *)
Definition plain_numerics : Numerics :=
  {| Embedding_forward := fun _ ids =>
       Ok (mkTensor (shape ids ++ [1%nat]) (map inject_Z (data ids)));
     Linear_forward := fun _ x => Ok x;
     Parameter_value := fun _ => scalar 0%Q;
     LearnedSinusoidalPosEmb_forward := fun _ t =>
       Ok (mkTensor (shape t ++ [1%nat]) (data t));
     ConvPositionEmbed_forward := fun _ x => Ok x;
     Transformer_forward := fun _ x => Ok x |}.

(** A duration predictor assembled by hand (its constructor returns none). *)
Definition handmade_predictor : DurationPredictor.t :=
  {| DurationPredictor.null_phoneme_id := 50;
     DurationPredictor.to_phoneme_emb := nn_Embedding 51 1;
     DurationPredictor.p_drop_prob := (2 # 10)%Q;
     DurationPredictor.frac_lengths_mask := ((1 # 10)%Q, 1%Q);
     DurationPredictor.to_embed := nn_Linear 3 3 true;
     DurationPredictor.null_cond := nn_Parameter Zeros 1;
     DurationPredictor.conv_embed :=
       {| ConvPositionEmbed.dw_conv1d := [nn_Conv1d 3 3 31 3 15; nn_GELU] |};
     DurationPredictor.transformer :=
       {| Transformer.layers := [];
          Transformer.rotary_emb :=
            {| RotaryEmbedding.inv_freq := inv_freq_buffer 64 10000 |};
          Transformer.final_norm :=
            {| RMSNorm.scale_squared := 3; RMSNorm.gamma := nn_Parameter Ones 3 |} |};
     DurationPredictor.to_pred := [nn_Linear 3 1 true; einops_Rearrange "... 1 -> ..."] |}.

(** A velocity-field predictor assembled by hand, of model width 3. *)
Definition handmade_voicebox : VoiceBox.t :=
  {| VoiceBox.sinu_pos_emb :=
       {| LearnedSinusoidalPosEmb.weights := nn_Parameter Randn 1 |};
     VoiceBox.null_phoneme_id := 50;
     VoiceBox.to_phoneme_emb := nn_Embedding 51 1;
     VoiceBox.p_drop_prob := (3 # 10)%Q;
     VoiceBox.frac_lengths_mask := ((7 # 10)%Q, 1%Q);
     VoiceBox.to_embed := nn_Linear 3 3 true;
     VoiceBox.null_cond := nn_Parameter Zeros 1;
     VoiceBox.conv_embed :=
       {| ConvPositionEmbed.dw_conv1d := [nn_Conv1d 3 3 31 3 15; nn_GELU] |};
     VoiceBox.transformer :=
       {| Transformer.layers := [];
          Transformer.rotary_emb :=
            {| RotaryEmbedding.inv_freq := inv_freq_buffer 64 10000 |};
          Transformer.final_norm :=
            {| RMSNorm.scale_squared := 3; RMSNorm.gamma := nn_Parameter Ones 3 |} |};
     VoiceBox.to_pred := nn_Linear 3 3 false |}.

(** Layers as in [plain_numerics], with a time embedding of width 3 that
    repeats the time. *)
Definition wide_numerics : Numerics :=
  {| Embedding_forward := fun _ ids =>
       Ok (mkTensor (shape ids ++ [1%nat]) (map inject_Z (data ids)));
     Linear_forward := fun _ x => Ok x;
     Parameter_value := fun _ => scalar 0%Q;
     LearnedSinusoidalPosEmb_forward := fun _ t =>
       Ok (mkTensor (shape t ++ [3%nat]) (flat_map (fun v => [v; v; v]) (data t)));
     ConvPositionEmbed_forward := fun _ x => Ok x;
     Transformer_forward := fun _ x => Ok x |}.

(** Kernels that return a tensor of the shape of their input, and a linear
    layer that maps the last dimension from its input width to its output
    width. *)
Definition keeps_shape (f : tensor Q -> result (tensor Q)) : Prop :=
  forall x, exists y, f x = Ok y /\ shape y = shape x.

Definition shape_contract (N : Numerics) (B : Blocks) : Prop :=
  (forall r n, exists f, RotaryEmbedding_forward r n = Ok f)
  /\ (forall a rot, keeps_shape (fun x => Attention_forward a x rot))
  /\ (forall f, keeps_shape (FeedForward_forward f))
  /\ (forall n, keeps_shape (RMSNorm_forward n))
  /\ (forall i o b x pre, shape x = pre ++ [Z.to_nat i] ->
        exists y, Linear_forward (nn_Linear i o b) x = Ok y
                  /\ shape y = pre ++ [Z.to_nat o]).

(** Blocks that return their input, and a linear layer that returns zeros
    of the output width. *)
Definition plain_blocks : Blocks :=
  {| RotaryEmbedding_forward := fun _ n => Ok (mkTensor [n; 0%nat] []);
     Attention_forward := fun _ x _ => Ok x;
     FeedForward_forward := fun _ x => Ok x;
     RMSNorm_forward := fun _ x => Ok x |}.

Definition zero_linear_numerics : Numerics :=
  {| Embedding_forward := fun _ ids =>
       Ok (mkTensor (shape ids ++ [1%nat]) (map inject_Z (data ids)));
     Linear_forward := fun l x =>
       match l with
       | nn_Linear _ o _ =>
           let s := removelast (shape x) ++ [Z.to_nat o] in
           Ok (mkTensor s (repeat 0%Q (numel s)))
       | _ => Ok x
       end;
     Parameter_value := fun _ => scalar 0%Q;
     LearnedSinusoidalPosEmb_forward := fun _ t =>
       Ok (mkTensor (shape t ++ [1%nat]) (data t));
     ConvPositionEmbed_forward := fun _ x => Ok x;
     Transformer_forward := fun _ x => Ok x |}.

(** The transformer that the constructor returns for [dim = 4],
    [depth = 2], [dim_head = 2], [heads = 1], [ff_mult = 1]. *)
Definition small_attention : Attention.t :=
  {| Attention.heads := 1;
     Attention.scale_inv_squared := 2;
     Attention.attend := Attend false;
     Attention.norm :=
       {| RMSNorm.scale_squared := 4; RMSNorm.gamma := nn_Parameter Ones 4 |};
     Attention.to_qkv := nn_Linear 4 6 false;
     Attention.to_out := nn_Linear 2 4 false |}.

Definition small_feedforward : FeedForward.t :=
  {| FeedForward.norm :=
       {| RMSNorm.scale_squared := 4; RMSNorm.gamma := nn_Parameter Ones 4 |};
     FeedForward.proj_in := nn_Linear 4 4 true;
     FeedForward.act := nn_GELU;
     FeedForward.proj_out := nn_Linear 4 4 true |}.

Definition small_transformer : Transformer.t :=
  {| Transformer.layers :=
       [ {| Transformer.skip_combiner := None;
            Transformer.attn := small_attention;
            Transformer.ff := small_feedforward |};
         {| Transformer.skip_combiner := Some (nn_Linear 8 4 true);
            Transformer.attn := small_attention;
            Transformer.ff := small_feedforward |} ];
     Transformer.rotary_emb :=
       {| RotaryEmbedding.inv_freq := inv_freq_buffer 2 10000 |};
     Transformer.final_norm :=
       {| RMSNorm.scale_squared := 4; RMSNorm.gamma := nn_Parameter Ones 4 |} |}.

(** Polynomial stand-ins for cosine and sine. *)
Definition poly_trig : Trig :=
  {| cos := fun x => (1 - x * x / 2)%Q; sin := fun x => x |}.

(** What the integrators return, as to shapes: torchdiffeq's [odeint] one
    state per evaluation time, stacked along a new first axis; torchode's
    solution [ys] of shape (batch, times, features). *)
Definition solver_shapes (S : Solvers) : Prop :=
  (forall f y0 t kw w r,
     fst (odeint f y0 t kw w) = Ok r ->
     shape r = nth 0 (shape t) 0%nat :: shape y0)
  /\ (forall klass atol rtol f y0 t w r,
        fst (torchode_solve klass atol rtol f y0 t w) = Ok r ->
        shape r = [nth 0 (shape y0) 0%nat; nth 1 (shape t) 0%nat;
                   nth 1 (shape y0) 0%nat]).

(** Integrators that keep the initial state at every evaluation time. *)
Definition frozen_solvers : Solvers :=
  {| odeint := fun _ y0 t _ =>
       ret (mkTensor (nth 0 (shape t) 0%nat :: shape y0)
              (concat (repeat (data y0) (nth 0 (shape t) 0%nat))));
     torchode_solve := fun _ _ _ _ y0 t =>
       ret (mkTensor [nth 0 (shape y0) 0%nat; nth 1 (shape t) 0%nat;
                      nth 1 (shape y0) 0%nat]
              (flat_map (fun row => concat (repeat row (nth 1 (shape t) 0%nat)))
                 (chunks (nth 1 (shape y0) 0%nat) (nth 0 (shape y0) 0%nat)
                         (data y0)))) |}.

(** Constructor arguments of [VoiceBox] with positive sizes that pass the
    parity checks of the sub-modules. *)
Definition VoiceBox_valid_args (a : VoiceBox.Args.t) : Prop :=
  0 <= VoiceBox.Args.num_phoneme_tokens a
  /\ 0 < VoiceBox.Args.dim_phoneme_emb a
  /\ 0 < VoiceBox.Args.dim a
  /\ Z.even (VoiceBox.Args.dim a) = true
  /\ Z.even (VoiceBox.Args.depth a) = true
  /\ 0 < VoiceBox.Args.dim_head a
  /\ 0 < VoiceBox.Args.heads a
  /\ 0 < VoiceBox.Args.ff_mult a
  /\ Z.odd (VoiceBox.Args.conv_pos_embed_kernel_size a) = true
  /\ 0 < VoiceBox.Args.conv_pos_embed_kernel_size a
  /\ groups_ok (VoiceBox.Args.dim a) (VoiceBox.Args.conv_pos_embed_groups a)
  /\ VoiceBox.Args.attn_flash a = false.

(** What the layers of [VoiceBox] return, as to shapes: an embedding adds
    its width as a last dimension when every index is a row of its table; a
    parameter has its size; the sinusoidal embedding of [b] times has one
    sine and one cosine per weight; the convolutional position embedding
    keeps the shape of its input. *)
Definition numerics_shapes (N : Numerics) : Prop :=
  (forall k e ids, Forall (fun i => 0 <= i < k) (data ids) ->
     exists y, Embedding_forward (nn_Embedding k e) ids = Ok y
               /\ shape y = shape ids ++ [Z.to_nat e])
  /\ (forall i sz, exists v,
        Parameter_value (nn_Parameter i sz) = mkTensor [Z.to_nat sz] v
        /\ length v = Z.to_nat sz)
  /\ (forall h t b, shape t = [b] ->
        exists y,
          LearnedSinusoidalPosEmb_forward
            {| LearnedSinusoidalPosEmb.weights := nn_Parameter Randn h |} t = Ok y
          /\ shape y = [b; (Z.to_nat h + Z.to_nat h)%nat])
  /\ (forall c, keeps_shape (ConvPositionEmbed_forward c)).

(** The transformer of [Numerics] runs the layer loop on the kernels of
    [Blocks]. *)
Definition transformer_runs_layers (N : Numerics) (B : Blocks) : Prop :=
  forall m x, Transformer_forward m x = Transformer_forward_body m x.

(** Layers that return zeros of the right shape, and the transformer that
    runs the layer loop over them. *)
Definition zeros (s : list nat) : tensor Q := mkTensor s (repeat 0%Q (numel s)).

Definition shaped_leaves : Numerics :=
  {| Embedding_forward := fun l ids =>
       match l with
       | nn_Embedding _ e => Ok (zeros (shape ids ++ [Z.to_nat e]))
       | _ => Ok (zeros (shape ids))
       end;
     Linear_forward := fun l x =>
       match l with
       | nn_Linear _ o _ => Ok (zeros (removelast (shape x) ++ [Z.to_nat o]))
       | _ => Ok x
       end;
     Parameter_value := fun l =>
       match l with
       | nn_Parameter _ sz => zeros [Z.to_nat sz]
       | _ => scalar 0%Q
       end;
     LearnedSinusoidalPosEmb_forward := fun m t =>
       match LearnedSinusoidalPosEmb.weights m with
       | nn_Parameter _ h => Ok (zeros (shape t ++ [(Z.to_nat h + Z.to_nat h)%nat]))
       | _ => Ok t
       end;
     ConvPositionEmbed_forward := fun _ x => Ok x;
     Transformer_forward := fun _ x => Ok x |}.

Definition shaped_numerics : Numerics :=
  {| Embedding_forward := @Embedding_forward shaped_leaves;
     Linear_forward := @Linear_forward shaped_leaves;
     Parameter_value := @Parameter_value shaped_leaves;
     LearnedSinusoidalPosEmb_forward := @LearnedSinusoidalPosEmb_forward shaped_leaves;
     ConvPositionEmbed_forward := @ConvPositionEmbed_forward shaped_leaves;
     Transformer_forward := @Transformer_forward_body shaped_leaves plain_blocks |}.

(** The arguments of a small [VoiceBox] and the model that the constructor
    returns for them. *)
Definition small_voicebox_args : VoiceBox.Args.t :=
  {| VoiceBox.Args.num_phoneme_tokens := 10;
     VoiceBox.Args.dim_phoneme_emb := 3;
     VoiceBox.Args.dim := 4;
     VoiceBox.Args.depth := 2;
     VoiceBox.Args.dim_head := 2;
     VoiceBox.Args.heads := 1;
     VoiceBox.Args.ff_mult := 1;
     VoiceBox.Args.conv_pos_embed_kernel_size := 31;
     VoiceBox.Args.conv_pos_embed_groups := None;
     VoiceBox.Args.attn_flash := false;
     VoiceBox.Args.p_drop_prob := (3 # 10)%Q;
     VoiceBox.Args.frac_lengths_mask := ((7 # 10)%Q, 1%Q) |}.

Definition small_voicebox : VoiceBox.t :=
  {| VoiceBox.sinu_pos_emb :=
       {| LearnedSinusoidalPosEmb.weights := nn_Parameter Randn 2 |};
     VoiceBox.null_phoneme_id := 10;
     VoiceBox.to_phoneme_emb := nn_Embedding 11 3;
     VoiceBox.p_drop_prob := (3 # 10)%Q;
     VoiceBox.frac_lengths_mask := ((7 # 10)%Q, 1%Q);
     VoiceBox.to_embed := nn_Linear 11 4 true;
     VoiceBox.null_cond := nn_Parameter Zeros 4;
     VoiceBox.conv_embed :=
       {| ConvPositionEmbed.dw_conv1d := [nn_Conv1d 4 4 31 4 15; nn_GELU] |};
     VoiceBox.transformer := small_transformer;
     VoiceBox.to_pred := nn_Linear 4 4 false |}.

(** * Properties *)

(** ** Lists and tensors *)

Lemma concat_chunks {A} (m k : nat) (d : list A) :
  length d = (k * m)%nat -> concat (chunks m k d) = d.
Proof.
  revert d; induction k as [|k IH]; intros d Hd; simpl in *.
  - destruct d; [reflexivity|discriminate].
  - rewrite IH.
    + apply firstn_skipn.
    + rewrite length_skipn. lia.
Qed.

Lemma Forall_chunks {A} (m k : nat) (d : list A) :
  length d = (k * m)%nat -> Forall (fun c => length c = m) (chunks m k d).
Proof.
  revert d; induction k as [|k IH]; intros d Hd; simpl in *; constructor.
  - rewrite length_firstn. lia.
  - apply IH. rewrite length_skipn. lia.
Qed.

Lemma chunks_singletons {A} (k : nat) (d : list A) :
  length d = k -> chunks 1 k d = map (fun x => [x]) d.
Proof.
  revert d; induction k as [|k IH]; intros d Hd; destruct d as [|x d];
    simpl in *; try discriminate; [reflexivity|].
  f_equal. apply IH. lia.
Qed.

Lemma expand_aligned_id {A} (s : list nat) (d : list A) :
  length d = numel s -> expand_aligned s s d = d.
Proof.
  revert d; induction s as [|k ks IH]; intros d Hd; simpl; [reflexivity|].
  rewrite Nat.eqb_refl.
  assert (Hall : Forall (fun c => length c = numel ks) (chunks (numel ks) k d))
    by (apply Forall_chunks; exact Hd).
  rewrite (map_ext_Forall _ (fun c => c)).
  - rewrite map_id. apply concat_chunks. exact Hd.
  - eapply Forall_impl; [|exact Hall]. intros c Hc. apply IH. exact Hc.
Qed.

Lemma expandable_refl (s : list nat) : expandable s s = true.
Proof. induction s as [|k ks IH]; simpl; [reflexivity|]. now rewrite Nat.eqb_refl, IH. Qed.

Lemma pad_left_same (s : list nat) : pad_left (length s) s = s.
Proof. unfold pad_left. now rewrite Nat.sub_diag. Qed.

Lemma broadcast_aligned_refl (s : list nat) : broadcast_aligned s s = Some s.
Proof. induction s as [|k ks IH]; simpl; [reflexivity|]. now rewrite IH, Nat.eqb_refl. Qed.

Lemma expand_same {A} (s : list nat) (d : list A) :
  length d = numel s -> expand (mkTensor s d) s = Ok (mkTensor s d).
Proof.
  intros Hd. unfold expand. simpl.
  rewrite pad_left_same, Nat.leb_refl, expandable_refl. simpl.
  now rewrite expand_aligned_id.
Qed.

(** On operands of one shape a broadcasting operation is the pointwise one. *)
Lemma bc_binop_same_shape {A B C} (f : A -> B -> C) (s : list nat)
  (d1 : list A) (d2 : list B) :
  length d1 = numel s -> length d2 = numel s ->
  bc_binop f (mkTensor s d1) (mkTensor s d2) = Ok (mkTensor s (zip_with f d1 d2)).
Proof.
  intros H1 H2. unfold bc_binop, broadcast_shapes. simpl.
  rewrite Nat.max_id, pad_left_same, broadcast_aligned_refl. simpl.
  rewrite !expand_same by assumption. reflexivity.
Qed.

Lemma zip_with_app {A B C} (f : A -> B -> C) (l1 l2 : list A) (r1 r2 : list B) :
  length l1 = length r1 ->
  zip_with f (l1 ++ l2) (r1 ++ r2) = zip_with f l1 r1 ++ zip_with f l2 r2.
Proof.
  revert r1; induction l1 as [|a l1 IH]; intros [|b r1] H; simpl in *;
    try discriminate; [reflexivity|].
  f_equal. apply IH. lia.
Qed.

Lemma zip_with_length {A B C} (f : A -> B -> C) (l : list A) (r : list B) :
  length l = length r -> length (zip_with f l r) = length l.
Proof.
  revert r; induction l as [|a l IH]; intros [|b r] H; simpl in *;
    try discriminate; [reflexivity|].
  f_equal. apply IH. lia.
Qed.

Lemma zip_with_repeat_r {A B C} (f : A -> B -> C) (l : list A) (b : B) :
  zip_with f l (repeat b (length l)) = map (fun a => f a b) l.
Proof. induction l as [|a l IH]; simpl; [reflexivity|]. now rewrite IH. Qed.

Lemma zip_with_map_same {A B C D} (f : B -> C -> D) (g : A -> B) (h : A -> C)
  (l : list A) :
  zip_with f (map g l) (map h l) = map (fun a => f (g a) (h a)) l.
Proof. induction l as [|a l IH]; simpl; [reflexivity|]. now rewrite IH. Qed.

Lemma concat_repeat_length {A} (l : list A) (b : nat) :
  length (concat (repeat l b)) = (b * length l)%nat.
Proof. induction b as [|b IH]; simpl; [reflexivity|]. rewrite length_app, IH. lia. Qed.

(** A row against a column: [rng] repeated for every entry of [col], each
    entry repeated along the row. *)
Lemma zip_with_row_column {A B C} (f : A -> B -> C) (rng : list A) (col : list B) :
  zip_with f (concat (repeat rng (length col)))
             (flat_map (fun x => repeat x (length rng)) col)
  = flat_map (fun x => map (fun p => f p x) rng) col.
Proof.
  induction col as [|x col IH]; simpl; [reflexivity|].
  rewrite zip_with_app by now rewrite repeat_length.
  now rewrite zip_with_repeat_r, IH.
Qed.

Lemma zip_with_flat_map {A B C D E} (f : C -> D -> E)
  (g : A -> list C) (h : B -> list D) (la : list A) (lb : list B) :
  (forall a b, length (g a) = length (h b)) ->
  length la = length lb ->
  zip_with f (flat_map g la) (flat_map h lb)
  = concat (zip_with (fun a b => zip_with f (g a) (h b)) la lb).
Proof.
  intros Hgh. revert lb; induction la as [|a la IH]; intros [|b lb] H;
    simpl in *; try discriminate; [reflexivity|].
  rewrite zip_with_app by apply Hgh. f_equal. apply IH. lia.
Qed.

Lemma flat_map_length_const {A B} (f : A -> list B) (n : nat) (l : list A) :
  (forall a, length (f a) = n) -> length (flat_map f l) = (length l * n)%nat.
Proof.
  intros Hf. induction l as [|a l IH]; simpl; [reflexivity|].
  rewrite length_app, Hf, IH. lia.
Qed.

Lemma nth_concat_const {A} (rows : list (list A)) (n i p : nat) (d : A) :
  Forall (fun r => length r = n) rows -> (p < n)%nat ->
  nth (i * n + p) (concat rows) d = nth p (nth i rows []) d.
Proof.
  intros Hall Hp. revert i; induction Hall as [|r rows Hr Hall IH]; intros i.
  - simpl. destruct (i * n + p)%nat, i, p; reflexivity.
  - destruct i as [|i]; simpl.
    + apply app_nth1. lia.
    + rewrite app_nth2 by lia. rewrite <- IH. f_equal. lia.
Qed.

Lemma nth_zip_with {A B C} (f : A -> B -> C) (l : list A) (r : list B)
  (i : nat) (da : A) (db : B) (dc : C) :
  (i < length l)%nat -> (i < length r)%nat ->
  nth i (zip_with f l r) dc = f (nth i l da) (nth i r db).
Proof.
  revert r i; induction l as [|a l IH]; intros [|b r] [|i] Hl Hr;
    simpl in *; try lia; [reflexivity|].
  apply IH; lia.
Qed.

(** ** [mask_from_start_end_indices] *)

Lemma range_length (n : Z) : length (range n) = Z.to_nat n.
Proof. unfold range. now rewrite length_map, length_seq. Qed.

Lemma row_mask_length (n s e : Z) : length (row_mask n s e) = Z.to_nat n.
Proof. unfold row_mask. now rewrite length_map, range_length. Qed.

Lemma nth_range (n : Z) (p : nat) :
  (p < Z.to_nat n)%nat -> nth p (range n) 0 = Z.of_nat p.
Proof.
  intros Hp. unfold range.
  transitivity (Z.of_nat (nth p (seq 0 (Z.to_nat n)) 0%nat)).
  - exact (map_nth Z.of_nat _ 0%nat p).
  - now rewrite seq_nth.
Qed.

Lemma nth_row_mask (n s e : Z) (p : nat) :
  (p < Z.to_nat n)%nat ->
  nth p (row_mask n s e) false = (Z.of_nat p >=? s) && (Z.of_nat p <? e).
Proof.
  intros Hp. unfold row_mask.
  rewrite (nth_indep _ false ((fun q => (q >=? s) && (q <? e)) 0))
    by (rewrite length_map, range_length; exact Hp).
  rewrite (map_nth (fun q => (q >=? s) && (q <? e))), nth_range by exact Hp.
  reflexivity.
Qed.

Lemma infer_size_row (n : Z) :
  0 < n -> infer_size [-1; n] (Z.to_nat n) = Ok [1%nat; Z.to_nat n].
Proof.
  intros Hn. unfold infer_size. simpl.
  assert (H1 : (n <? -1) = false) by lia.
  assert (H2 : (n =? -1) = false) by lia.
  rewrite H1, H2. simpl.
  rewrite Nat.mul_1_r, Nat.eqb_refl. simpl.
  destruct (Z.to_nat n =? 0)%nat eqn:E; [apply Nat.eqb_eq in E; lia|].
  rewrite Nat.div_same by lia. reflexivity.
Qed.

Lemma expand_row {A} (rng : list A) (b : nat) :
  expand (mkTensor [1%nat; length rng] rng) [b; length rng]
  = Ok (mkTensor [b; length rng] (concat (repeat rng b))).
Proof.
  unfold expand, pad_left. simpl.
  rewrite Nat.eqb_refl, Bool.orb_true_r. simpl.
  rewrite Nat.mul_1_r, firstn_all, map_id, concat_chunks by lia.
  destruct b as [|[|b]]; simpl; rewrite ?app_nil_r; reflexivity.
Qed.

Lemma expand_column {A} (col : list A) (n : nat) :
  expand (mkTensor [length col; 1%nat] col) [length col; n]
  = Ok (mkTensor [length col; n] (flat_map (fun x => repeat x n) col)).
Proof.
  unfold expand, pad_left. simpl.
  rewrite Nat.eqb_refl, Bool.orb_true_r. simpl.
  do 2 f_equal.
  rewrite chunks_singletons by reflexivity.
  rewrite map_map, flat_map_concat_map. f_equal.
  apply map_ext. intros x.
  destruct n as [|[|n]]; simpl; rewrite ?app_nil_r; try reflexivity.
  f_equal. f_equal. induction n as [|n IH]; simpl; [reflexivity|].
  now rewrite IH.
Qed.

Lemma broadcast_row_column (b n : nat) :
  broadcast_shapes [b; n] [b; 1%nat] = Ok [b; n].
Proof.
  unfold broadcast_shapes, pad_left. simpl.
  rewrite Nat.eqb_refl.
  destruct (n =? 1)%nat eqn:E; [apply Nat.eqb_eq in E; subst|]; reflexivity.
Qed.

(** The comparison of the positions with one start or end index per row. *)
Lemma bc_binop_row_column {B C} (f : Z -> B -> C) (n : Z) (col : list B) :
  bc_binop f
    (mkTensor [length col; Z.to_nat n] (concat (repeat (range n) (length col))))
    (mkTensor [length col; 1%nat] col)
  = Ok (mkTensor [length col; Z.to_nat n]
          (flat_map (fun x => map (fun p => f p x) (range n)) col)).
Proof.
  unfold bc_binop. simpl shape. rewrite broadcast_row_column. simpl rbind.
  rewrite expand_same
    by (rewrite concat_repeat_length, range_length; simpl; lia).
  simpl rbind. rewrite expand_column. simpl.
  do 2 f_equal. rewrite <- (range_length n). apply zip_with_row_column.
Qed.

(** For one-dimensional [start] and [end] and a positive [seq_len], the mask
    of row [i] is True exactly on [long start_i <= p < long end_i]. *)
Lemma mask_from_start_end_indices_1d {A} `{Long A} (seq_len : Z) (st en : list A) :
  0 < seq_len -> length st = length en ->
  mask_from_start_end_indices seq_len
    (mkTensor [length st] st) (mkTensor [length st] en)
  = Ok (mkTensor [length st; Z.to_nat seq_len]
          (concat (zip_with (fun s e => row_mask seq_len (long s) (long e)) st en))).
Proof.
  intros Hn Hlen. unfold mask_from_start_end_indices, ndim. simpl shape.
  unfold shape_eqb. destruct (list_eq_dec Nat.eq_dec [length st] [length st]) as [_|N];
    [|congruence].
  simpl rbind. unfold arange.
  destruct (seq_len <? 0) eqn:E; [lia|]. simpl rbind.
  unfold reshape. simpl data. fold (range seq_len).
  rewrite range_length. simpl app. rewrite infer_size_row by exact Hn.
  simpl rbind.
  rewrite <- (range_length seq_len) at 1 2. rewrite expand_row. simpl rbind.
  rewrite range_length.
  unfold unsqueeze_last, tmap. simpl shape. simpl data. simpl app.
  rewrite <- (length_map long st) at 1 2 3.
  rewrite bc_binop_row_column. simpl rbind.
  rewrite (length_map long st), Hlen.
  rewrite <- (length_map long en) at 1 2 3.
  rewrite bc_binop_row_column. simpl rbind.
  rewrite (length_map long en).
  rewrite bc_binop_same_shape.
  - do 2 f_equal. rewrite !flat_map_concat_map, !map_map, <- !flat_map_concat_map.
    rewrite zip_with_flat_map.
    + f_equal. clear Hn E. revert en Hlen.
      induction st as [|s st IH]; intros [|e en] Hlen; simpl in *;
        try discriminate; [reflexivity|].
      f_equal; [|apply IH; lia].
      unfold row_mask. apply zip_with_map_same.
    + intros a b. now rewrite !length_map.
    + exact Hlen.
  - rewrite (flat_map_length_const _ (Z.to_nat seq_len)).
    + rewrite length_map. simpl. lia.
    + intros a. now rewrite length_map, range_length.
  - rewrite (flat_map_length_const _ (Z.to_nat seq_len)).
    + rewrite length_map. simpl. lia.
    + intros a. now rewrite length_map, range_length.
Qed.

Theorem mask_from_start_end_indices_shape_mismatch {A} `{Long A}
  (seq_len : Z) (start end_ : tensor A) :
  shape start <> shape end_ ->
  mask_from_start_end_indices seq_len start end_ = Raise AssertionError.
Proof.
  intros Hs. unfold mask_from_start_end_indices, shape_eqb.
  destruct (list_eq_dec Nat.eq_dec (shape start) (shape end_)); [contradiction|].
  reflexivity.
Qed.

Lemma filter_repeat_minus_one (k : nat) (n : Z) :
  0 <= n ->
  length (filter (fun d => d =? -1) (repeat (-1) k ++ [n])) = k.
Proof.
  intros Hn. induction k as [|k IH]; simpl.
  - destruct (n =? -1) eqn:E; [lia|reflexivity].
  - now rewrite IH.
Qed.

Lemma existsb_repeat_minus_one (k : nat) (n : Z) :
  0 <= n -> existsb (fun d => d <? -1) (repeat (-1) k ++ [n]) = false.
Proof.
  intros Hn. induction k as [|k IH]; simpl.
  - destruct (n <? -1) eqn:E; [lia|reflexivity].
  - exact IH.
Qed.

(** With [start] of two or more dimensions the reshape of the positions
    asks for several inferred sizes and raises. *)
Theorem mask_from_start_end_indices_ndim_ge_2 {A} `{Long A}
  (seq_len : Z) (start end_ : tensor A) :
  0 <= seq_len -> shape start = shape end_ -> (2 <= ndim start)%nat ->
  mask_from_start_end_indices seq_len start end_
  = Raise (RuntimeError "only one dimension can be inferred").
Proof.
  intros Hn Hs Hd. unfold mask_from_start_end_indices, shape_eqb.
  destruct (list_eq_dec Nat.eq_dec (shape start) (shape end_)); [|contradiction].
  simpl rbind. unfold arange.
  destruct (seq_len <? 0) eqn:E; [lia|]. simpl rbind.
  unfold reshape, infer_size.
  rewrite existsb_repeat_minus_one, filter_repeat_minus_one by exact Hn.
  destruct (1 <? ndim start)%nat eqn:E1; [reflexivity|].
  apply Nat.ltb_ge in E1. lia.
Qed.

(** C9. On a two-dimensional [start] (shape (1, 1), [seq_len] 3) the
    function raises instead of returning a mask of shape (1, 1, 3), and so
    it does on one-dimensional indices with [seq_len] 0: the positions are
    reshaped with one [-1] per dimension of [start]. *)
Theorem mask_from_start_end_indices_raises :
  mask_from_start_end_indices 3 (mkTensor [1; 1]%nat [0]) (mkTensor [1; 1]%nat [1])
  = Raise (RuntimeError "only one dimension can be inferred")
  /\ mask_from_start_end_indices 0 (mkTensor [1]%nat [0]) (mkTensor [1]%nat [0])
     = Raise (RuntimeError "unspecified dimension size -1 is ambiguous").
Proof. split; reflexivity. Qed.

(** ** [mask_from_frac_lengths] *)

(** *** Single-precision rounding

    Rounding a rational below 2^24 to single precision never crosses an
    integer, and keeps the integers. *)

Lemma Qabs_nonneg_eq (q : Q) : (0 <= q)%Q -> Qabs q = q.
Proof.
  destruct q as [n d]. unfold Qle, Qabs. simpl. intros H.
  rewrite Z.abs_eq by lia. reflexivity.
Qed.

Lemma pow2_nonneg_eq (j : Z) : 0 <= j -> pow2 j = inject_Z (2 ^ j).
Proof. intros H. unfold pow2. destruct (Z.leb_spec 0 j); [reflexivity|lia]. Qed.

Lemma pow2_int_pos (j : Z) : 0 <= j -> (0 < inject_Z (2 ^ j))%Q.
Proof.
  intros H. change 0%Q with (inject_Z 0). rewrite <- Zlt_Qlt.
  apply Z.pow_pos_nonneg; lia.
Qed.

Lemma pow2_pos (k : Z) : (0 < pow2 k)%Q.
Proof.
  unfold pow2. destruct (Z.leb_spec 0 k).
  - apply pow2_int_pos. assumption.
  - apply Qinv_lt_0_compat. apply pow2_int_pos. lia.
Qed.

Lemma pow2_cancel (j : Z) : 0 <= j -> (inject_Z (2 ^ j) * pow2 (- j) == 1)%Q.
Proof.
  intros H. unfold pow2. destruct (Z.leb_spec 0 (- j)).
  - assert (j = 0) by lia. subst j. reflexivity.
  - rewrite Z.opp_involutive. apply Qmult_inv_r.
    intros E. pose proof (pow2_int_pos j H) as P. rewrite E in P.
    revert P. apply Qlt_irrefl.
Qed.

Lemma round_half_even_range (x : Q) :
  round_half_even x = Qfloor x
  \/ (round_half_even x = Qfloor x + 1 /\ (inject_Z (Qfloor x) < x)%Q).
Proof.
  unfold round_half_even.
  assert (G : (1 # 2 <= x - inject_Z (Qfloor x))%Q -> (inject_Z (Qfloor x) < x)%Q).
  { intros H. apply Qlt_minus_iff.
    eapply Qlt_le_trans; [|exact H]. reflexivity. }
  destruct (Qcompare_spec (x - inject_Z (Qfloor x)) (1 # 2)) as [E|L|L].
  - destruct (Z.even (Qfloor x)); [left; reflexivity|right].
    split; [reflexivity|]. apply G. rewrite E. apply Qle_refl.
  - left. reflexivity.
  - right. split; [reflexivity|]. apply G. apply Qlt_le_weak. exact L.
Qed.

Lemma round_half_even_le (x : Q) (z : Z) :
  (x <= inject_Z z)%Q -> round_half_even x <= z.
Proof.
  intros H.
  assert (F : Qfloor x <= z).
  { rewrite <- (Qfloor_Z z). apply Qfloor_resp_le. exact H. }
  destruct (round_half_even_range x) as [->|[-> L]]; [exact F|].
  assert (Qfloor x < z); [|lia].
  rewrite Zlt_Qlt. eapply Qlt_le_trans; [exact L|exact H].
Qed.

Lemma round_half_even_ge (x : Q) (z : Z) :
  (inject_Z z <= x)%Q -> z <= round_half_even x.
Proof.
  intros H.
  assert (F : z <= Qfloor x).
  { rewrite <- (Qfloor_Z z). apply Qfloor_resp_le. exact H. }
  destruct (round_half_even_range x) as [->|[-> _]]; lia.
Qed.

Lemma floor_log2_small (q : Q) :
  (0 < q)%Q -> (q < inject_Z (2 ^ 24))%Q -> floor_log2 q <= 23.
Proof.
  intros H0 H1. unfold floor_log2.
  destruct (Qle_bool 1 q) eqn:E.
  - apply Qle_bool_iff in E.
    assert (F1 : 1 <= Qfloor q).
    { rewrite <- (Qfloor_Z 1). apply Qfloor_resp_le. exact E. }
    assert (F2 : Qfloor q < 2 ^ 24).
    { rewrite Zlt_Qlt. eapply Qle_lt_trans; [apply Qfloor_le|exact H1]. }
    assert (Z.log2 (Qfloor q) < 24); [|lia].
    apply Z.log2_lt_pow2; lia.
  - pose proof (Z.log2_up_nonneg (Qceiling (/ q))). lia.
Qed.

Lemma float32_le_int (q : Q) (z : Z) :
  (0 <= q)%Q -> (q < inject_Z (2 ^ 24))%Q -> (q <= inject_Z z)%Q ->
  (float32 q <= inject_Z z)%Q.
Proof.
  intros H0 H1 Hz. unfold float32.
  destruct (Qeq_bool q 0) eqn:E0.
  - apply Qeq_bool_iff in E0. rewrite <- E0. exact Hz.
  - assert (Hpos : (0 < q)%Q).
    { apply Qle_lteq in H0. destruct H0 as [H0|H0]; [exact H0|].
      symmetry in H0. apply Qeq_bool_iff in H0. congruence. }
    rewrite (Qabs_nonneg_eq q H0).
    assert (Hle : Qle_bool 0 q = true) by (apply Qle_bool_iff; exact H0).
    rewrite Hle. cbv zeta.
    set (k := Z.max (floor_log2 q - 23) (-149)).
    assert (Hk : k <= 0) by (pose proof (floor_log2_small q Hpos H1); lia).
    set (j := - k). assert (Hj : 0 <= j) by lia.
    replace k with (- j) by lia.
    rewrite (pow2_nonneg_eq j Hj).
    assert (R : round_half_even (q * inject_Z (2 ^ j)) <= z * 2 ^ j).
    { apply round_half_even_le. rewrite inject_Z_mult.
      apply Qmult_le_compat_r; [exact Hz|].
      apply Qlt_le_weak, pow2_int_pos, Hj. }
    rewrite Zle_Qle in R.
    apply Qle_trans with (y := (inject_Z (z * 2 ^ j) * pow2 (- j))%Q).
    + apply Qmult_le_compat_r; [exact R|]. apply Qlt_le_weak, pow2_pos.
    + rewrite inject_Z_mult, <- Qmult_assoc, (pow2_cancel j Hj), Qmult_1_r.
      apply Qle_refl.
Qed.

Lemma float32_ge_int (q : Q) (z : Z) :
  (0 <= q)%Q -> (q < inject_Z (2 ^ 24))%Q -> (inject_Z z <= q)%Q ->
  (inject_Z z <= float32 q)%Q.
Proof.
  intros H0 H1 Hz. unfold float32.
  destruct (Qeq_bool q 0) eqn:E0.
  - apply Qeq_bool_iff in E0. rewrite <- E0. exact Hz.
  - assert (Hpos : (0 < q)%Q).
    { apply Qle_lteq in H0. destruct H0 as [H0|H0]; [exact H0|].
      symmetry in H0. apply Qeq_bool_iff in H0. congruence. }
    rewrite (Qabs_nonneg_eq q H0).
    assert (Hle : Qle_bool 0 q = true) by (apply Qle_bool_iff; exact H0).
    rewrite Hle. cbv zeta.
    set (k := Z.max (floor_log2 q - 23) (-149)).
    assert (Hk : k <= 0) by (pose proof (floor_log2_small q Hpos H1); lia).
    set (j := - k). assert (Hj : 0 <= j) by lia.
    replace k with (- j) by lia.
    rewrite (pow2_nonneg_eq j Hj).
    assert (R : z * 2 ^ j <= round_half_even (q * inject_Z (2 ^ j))).
    { apply round_half_even_ge. rewrite inject_Z_mult.
      apply Qmult_le_compat_r; [exact Hz|].
      apply Qlt_le_weak, pow2_int_pos, Hj. }
    rewrite Zle_Qle in R.
    apply Qle_trans with (y := (inject_Z (z * 2 ^ j) * pow2 (- j))%Q).
    + rewrite inject_Z_mult, <- Qmult_assoc, (pow2_cancel j Hj), Qmult_1_r.
      apply Qle_refl.
    + apply Qmult_le_compat_r; [exact R|]. apply Qlt_le_weak, pow2_pos.
Qed.

Lemma float32_int (z : Z) :
  0 <= z < 2 ^ 24 -> (float32 (inject_Z z) == inject_Z z)%Q.
Proof.
  intros [H0 H1].
  assert (A : (0 <= inject_Z z)%Q)
    by (change 0%Q with (inject_Z 0); rewrite <- Zle_Qle; lia).
  assert (B : (inject_Z z < inject_Z (2 ^ 24))%Q) by (rewrite <- Zlt_Qlt; exact H1).
  apply Qle_antisym; [apply float32_le_int|apply float32_ge_int];
    try assumption; apply Qle_refl.
Qed.

Lemma long_Q_nonneg (q : Q) :
  (0 <= q)%Q -> (q < inject_Z (2 ^ 63))%Q -> long q = Qfloor q.
Proof.
  intros Hq Hlt.
  assert (E : Z.quot (Qnum q) (Zpos (Qden q)) = Qfloor q).
  { destruct q as [n d]. unfold Qle, Qfloor in *. simpl in *.
    apply Z.quot_div_nonneg; lia. }
  assert (F0 : 0 <= Qfloor q)
    by (rewrite <- (Qfloor_Z 0); apply Qfloor_resp_le; exact Hq).
  assert (F1 : Qfloor q < 2 ^ 63).
  { rewrite Zlt_Qlt. eapply Qle_lt_trans; [apply Qfloor_le|exact Hlt]. }
  unfold long, Long_Q. cbv zeta. rewrite E.
  destruct (Z.leb_spec (- 2 ^ 63) (Qfloor q)); [|lia].
  destruct (Z.ltb_spec (Qfloor q) (2 ^ 63)); [reflexivity|lia].
Qed.

Lemma Qfloor_unique (q : Q) (z : Z) :
  (inject_Z z <= q)%Q -> (q < inject_Z (z + 1))%Q -> Qfloor q = z.
Proof.
  intros Hlo Hhi.
  assert (H1 : z <= Qfloor q)
    by (rewrite <- (Qfloor_Z z); apply Qfloor_resp_le; exact Hlo).
  assert (H2 : Qfloor q < z + 1).
  { rewrite Zlt_Qlt. eapply Qle_lt_trans; [apply Qfloor_le|exact Hhi]. }
  lia.
Qed.

Lemma Qfloor_plus_Z (q : Q) (z : Z) : Qfloor (q + inject_Z z) = Qfloor q + z.
Proof.
  apply Qfloor_unique.
  - rewrite inject_Z_plus. apply Qplus_le_l, Qfloor_le.
  - replace (Qfloor q + z + 1) with ((Qfloor q + 1) + z) by lia.
    rewrite inject_Z_plus. apply Qplus_lt_l, Qlt_floor.
Qed.

Lemma unit_frac_range (q : Q) : (0 <= unit_frac q)%Q /\ (unit_frac q < 1)%Q.
Proof.
  unfold unit_frac. split.
  - unfold Qminus. rewrite <- Qle_minus_iff. apply Qfloor_le.
  - apply Qplus_lt_l with (z := inject_Z (Qfloor q)).
    setoid_replace (q - inject_Z (Qfloor q) + inject_Z (Qfloor q))%Q with q by ring.
    setoid_replace (1 + inject_Z (Qfloor q))%Q with (inject_Z (Qfloor q + 1))
      by (rewrite inject_Z_plus; ring).
    apply Qlt_floor.
Qed.

Lemma nth_map_in {A B} (f : A -> B) (l : list A) (i : nat) (da : A) (db : B) :
  (i < length l)%nat -> nth i (map f l) db = f (nth i l da).
Proof.
  intros Hi. rewrite (nth_indep _ db (f da)) by now rewrite length_map.
  apply map_nth.
Qed.

Lemma inject_Z_nonneg (z : Z) : 0 <= z -> (0 <= inject_Z z)%Q.
Proof. intros H. change 0%Q with (inject_Z 0). rewrite <- Zle_Qle. exact H. Qed.

Lemma wrap64_small (z : Z) : - 2 ^ 63 <= z < 2 ^ 63 -> wrap64 z = z.
Proof.
  intros H. unfold wrap64.
  change (2 ^ 63) with 9223372036854775808 in *.
  change (2 ^ 64) with 18446744073709551616.
  rewrite Z.mod_small; lia.
Qed.

(** The span of one batch item: the truncated end is the truncated start
    plus [len], or one more when the single-precision sum [start + len]
    rounds up to the next integer; the span stays inside the sequence. *)
Lemma span_bounds (seq_len : Z) (f r : Q) :
  1 <= seq_len -> seq_len < 2 ^ 24 ->
  (0 < f)%Q -> (f <= 1)%Q -> (0 <= r)%Q -> (r < 1)%Q ->
  let len := long (float32 (f * float32 (inject_Z seq_len))) in
  let start := Qmax (float32 (float32 (inject_Z (wrap64 (seq_len - len))) * r)) 0 in
  let end_ := float32 (start + float32 (inject_Z len)) in
  len = Qfloor (float32 (f * float32 (inject_Z seq_len)))
  /\ 0 <= len
  /\ 0 <= long start
  /\ long start + len <= long end_ <= long start + len + 1
  /\ long end_ <= seq_len.
Proof.
  intros Hn HS Hf0 Hf1 Hr0 Hr1 len start end_.
  assert (T24 : (inject_Z (2 ^ 24) < inject_Z (2 ^ 63))%Q)
    by (rewrite <- Zlt_Qlt; reflexivity).
  assert (HSq : (inject_Z seq_len < inject_Z (2 ^ 24))%Q)
    by (rewrite <- Zlt_Qlt; exact HS).
  assert (HS0 : (0 <= inject_Z seq_len)%Q) by (apply inject_Z_nonneg; lia).
  assert (FS : (float32 (inject_Z seq_len) == inject_Z seq_len)%Q)
    by (apply float32_int; lia).
  (* the product *)
  assert (P0 : (0 <= f * float32 (inject_Z seq_len))%Q).
  { rewrite FS. apply Qmult_le_0_compat; [apply Qlt_le_weak; exact Hf0|exact HS0]. }
  assert (P1 : (f * float32 (inject_Z seq_len) <= inject_Z seq_len)%Q).
  { rewrite FS.
    setoid_replace (inject_Z seq_len) with (1 * inject_Z seq_len)%Q at 2 by ring.
    apply Qmult_le_compat_r; [exact Hf1|exact HS0]. }
  assert (P2 : (f * float32 (inject_Z seq_len) < inject_Z (2 ^ 24))%Q)
    by (eapply Qle_lt_trans; [exact P1|exact HSq]).
  set (p := float32 (f * float32 (inject_Z seq_len))) in *.
  assert (Pp0 : (0 <= p)%Q) by (apply (float32_ge_int _ 0); assumption).
  assert (Pp1 : (p <= inject_Z seq_len)%Q) by (apply float32_le_int; assumption).
  assert (Hlen : len = Qfloor p).
  { apply long_Q_nonneg; [exact Pp0|].
    eapply Qle_lt_trans; [exact Pp1|]. eapply Qlt_trans; [exact HSq|exact T24]. }
  assert (Hlen0 : 0 <= len)
    by (rewrite Hlen, <- (Qfloor_Z 0); apply Qfloor_resp_le; exact Pp0).
  assert (Hlen1 : len <= seq_len)
    by (rewrite Hlen, <- (Qfloor_Z seq_len); apply Qfloor_resp_le; exact Pp1).
  (* the start *)
  assert (W : wrap64 (seq_len - len) = seq_len - len).
  { apply wrap64_small. change (2 ^ 63) with 9223372036854775808.
    change (2 ^ 24) with 16777216 in HS. lia. }
  unfold end_. unfold start. rewrite W. clear end_ start.
  set (ms := seq_len - len).
  assert (Hms0 : 0 <= ms) by (unfold ms; lia).
  assert (Hms1 : ms <= seq_len) by (unfold ms; lia).
  assert (Fms : (float32 (inject_Z ms) == inject_Z ms)%Q)
    by (apply float32_int; lia).
  assert (Hmsq : (0 <= inject_Z ms)%Q) by (apply inject_Z_nonneg; exact Hms0).
  assert (X0 : (0 <= float32 (inject_Z ms) * r)%Q)
    by (rewrite Fms; apply Qmult_le_0_compat; assumption).
  assert (X1 : (float32 (inject_Z ms) * r <= inject_Z ms)%Q).
  { rewrite Fms.
    setoid_replace (inject_Z ms) with (inject_Z ms * 1)%Q at 2 by ring.
    rewrite (Qmult_comm _ r), (Qmult_comm _ 1).
    apply Qmult_le_compat_r; [apply Qlt_le_weak; exact Hr1|exact Hmsq]. }
  assert (Hmsle : (inject_Z ms <= inject_Z seq_len)%Q) by (rewrite <- Zle_Qle; exact Hms1).
  assert (X2 : (float32 (inject_Z ms) * r < inject_Z (2 ^ 24))%Q).
  { eapply Qle_lt_trans; [exact X1|]. eapply Qle_lt_trans; [exact Hmsle|exact HSq]. }
  set (start := Qmax (float32 (float32 (inject_Z ms) * r)) 0).
  assert (Hs0 : (0 <= start)%Q) by apply Q.le_max_r.
  assert (Hs1 : (start <= inject_Z ms)%Q).
  { unfold start. apply Q.max_lub; [|exact Hmsq]. apply float32_le_int; assumption. }
  assert (Hls : long start = Qfloor start).
  { apply long_Q_nonneg; [exact Hs0|].
    eapply Qle_lt_trans; [exact Hs1|]. eapply Qle_lt_trans; [exact Hmsle|].
    eapply Qlt_trans; [exact HSq|exact T24]. }
  assert (Ha0 : 0 <= Qfloor start)
    by (rewrite <- (Qfloor_Z 0); apply Qfloor_resp_le; exact Hs0).
  assert (Ha1 : Qfloor start <= ms)
    by (rewrite <- (Qfloor_Z ms); apply Qfloor_resp_le; exact Hs1).
  (* the end *)
  assert (FL : (float32 (inject_Z len) == inject_Z len)%Q)
    by (apply float32_int; lia).
  set (y := (start + float32 (inject_Z len))%Q).
  assert (Y0 : (inject_Z (Qfloor start + len) <= y)%Q).
  { unfold y. rewrite FL, inject_Z_plus. apply Qplus_le_l, Qfloor_le. }
  assert (Y1 : (y <= inject_Z (Qfloor start + len + 1))%Q).
  { unfold y. rewrite FL.
    replace (Qfloor start + len + 1) with ((Qfloor start + 1) + len) by lia.
    rewrite inject_Z_plus. apply Qplus_le_l, Qlt_le_weak, Qlt_floor. }
  assert (Y2 : (y <= inject_Z seq_len)%Q).
  { unfold y. rewrite FL.
    replace seq_len with (ms + len) at 1 by (unfold ms; lia).
    rewrite inject_Z_plus. apply Qplus_le_l. exact Hs1. }
  assert (Y3 : (0 <= y)%Q).
  { eapply Qle_trans; [|exact Y0]. apply inject_Z_nonneg. lia. }
  assert (Y4 : (y < inject_Z (2 ^ 24))%Q)
    by (eapply Qle_lt_trans; [exact Y2|exact HSq]).
  assert (E0 : (inject_Z (Qfloor start + len) <= float32 y)%Q)
    by (apply float32_ge_int; assumption).
  assert (E1 : (float32 y <= inject_Z (Qfloor start + len + 1))%Q)
    by (apply float32_le_int; assumption).
  assert (E2 : (float32 y <= inject_Z seq_len)%Q)
    by (apply float32_le_int; assumption).
  assert (Hle : long (float32 y) = Qfloor (float32 y)).
  { apply long_Q_nonneg.
    - eapply Qle_trans; [|exact E0]. apply inject_Z_nonneg. lia.
    - eapply Qle_lt_trans; [exact E2|]. eapply Qlt_trans; [exact HSq|exact T24]. }
  assert (G0 : Qfloor start + len <= Qfloor (float32 y))
    by (rewrite <- (Qfloor_Z (Qfloor start + len)); apply Qfloor_resp_le; exact E0).
  assert (G1 : Qfloor (float32 y) <= Qfloor start + len + 1)
    by (rewrite <- (Qfloor_Z (Qfloor start + len + 1)); apply Qfloor_resp_le; exact E1).
  assert (G2 : Qfloor (float32 y) <= seq_len)
    by (rewrite <- (Qfloor_Z seq_len); apply Qfloor_resp_le; exact E2).
  rewrite Hle, Hls.
  split; [exact Hlen|]. split; [exact Hlen0|]. split; [exact Ha0|].
  split; [split; [exact G0|exact G1]|exact G2].
Qed.

Lemma numel_1d (b : nat) : numel [b] = b.
Proof. simpl. lia. Qed.

(** What [mask_from_frac_lengths] computes on a one-dimensional tensor:
    the lengths, the random starts and the rows of the mask. *)
Lemma mask_from_frac_lengths_1d (seq_len : Z) (fr : list Q) (w : world) :
  1 <= seq_len ->
  let rand := map (fun k => (0 + (1 - 0) * unit_frac (torch_tape w (torch_pos w + k)))%Q)
                  (seq 0 (length fr)) in
  let lens := map long (map (fun f => float32 (f * float32 (inject_Z seq_len))) fr) in
  let starts := map (fun x => Qmax x 0)
                    (zip_with (fun m r => float32 (float32 (inject_Z m) * r))
                              (map (fun l => wrap64 (seq_len - l)) lens) rand) in
  let ends := zip_with (fun s l => float32 (s + float32 (inject_Z l))) starts lens in
  mask_from_frac_lengths seq_len (mkTensor [length fr] fr) w
  = (Ok (mkTensor [length fr; Z.to_nat seq_len]
           (concat (zip_with (fun s e => row_mask seq_len (long s) (long e)) starts ends))),
     torch_advance (length fr) w).
Proof.
  intros Hn rand lens starts ends.
  assert (Lrand : length rand = length fr)
    by (unfold rand; now rewrite length_map, length_seq).
  assert (Llens : length lens = length fr)
    by (unfold lens; now rewrite !length_map).
  assert (Lprod : length (zip_with (fun m r => float32 (float32 (inject_Z m) * r))
                              (map (fun l => wrap64 (seq_len - l)) lens) rand) = length fr)
    by (rewrite zip_with_length; rewrite length_map; congruence).
  assert (Lstarts : length starts = length fr)
    by (unfold starts; now rewrite length_map).
  assert (Lends : length ends = length fr)
    by (unfold ends; rewrite zip_with_length; congruence).
  unfold mask_from_frac_lengths, bind, uniform_, lift, tmap. simpl shape. simpl data.
  change (Qle_bool 0 1) with true. cbv iota.
  rewrite numel_1d. fold rand. fold lens.
  rewrite bc_binop_same_shape
    by (rewrite ?length_map, ?numel_1d; congruence).
  simpl shape. simpl data. fold starts.
  rewrite bc_binop_same_shape by (rewrite ?numel_1d; congruence).
  fold ends.
  rewrite <- Lstarts at 1 2.
  rewrite mask_from_start_end_indices_1d by (try lia; congruence).
  rewrite Lstarts. reflexivity.
Qed.

Lemma rows_length {A B} (n : Z) (g : A -> Z) (h : B -> Z) (l1 : list A) (l2 : list B) :
  Forall (fun r => length r = Z.to_nat n)
         (zip_with (fun s e => row_mask n (g s) (h e)) l1 l2).
Proof.
  revert l2; induction l1 as [|s l1 IH]; intros [|e l2]; simpl; constructor;
    [apply row_mask_length|apply IH].
Qed.

(** C4 (amended). For [1 <= seq_len < 2^24] and single-precision fractions
    in (0, 1], every row of the mask is True exactly on one contiguous span
    inside [0, seq_len).  With [l] the single-precision product
    [frac * seq_len] truncated to an integer (not rounded), the span has
    [l] positions, or [l + 1] when the single-precision sum
    [start + lengths] rounds up to the next integer. *)
Theorem mask_from_frac_lengths_span (seq_len : Z) (fr : list Q) (w : world) :
  1 <= seq_len -> seq_len < 2 ^ 24 ->
  Forall (fun f => (0 < f)%Q /\ (f <= 1)%Q) fr ->
  exists (mask : list bool) (w' : world),
    mask_from_frac_lengths seq_len (mkTensor [length fr] fr) w
    = (Ok (mkTensor [length fr; Z.to_nat seq_len] mask), w')
    /\ forall i, (i < length fr)%nat ->
       exists s len,
         let l := Qfloor (float32 (nth i fr 0%Q * float32 (inject_Z seq_len))) in
         (len = l \/ len = l + 1)
         /\ 0 <= l /\ 0 <= s /\ s + len <= seq_len
         /\ forall p, (p < Z.to_nat seq_len)%nat ->
              nth (i * Z.to_nat seq_len + p) mask false = true
              <-> s <= Z.of_nat p < s + len.
Proof.
  intros Hn HS Hfr.
  rewrite mask_from_frac_lengths_1d by exact Hn.
  set (rand := map _ (seq 0 (length fr))).
  set (lens := map long (map (fun f => float32 (f * float32 (inject_Z seq_len))) fr)).
  set (starts := map (fun x => Qmax x 0) _).
  set (ends := zip_with _ starts lens).
  assert (Lrand : length rand = length fr)
    by (unfold rand; now rewrite length_map, length_seq).
  assert (Llens : length lens = length fr)
    by (unfold lens; now rewrite !length_map).
  assert (Lprod : length (zip_with (fun m r => float32 (float32 (inject_Z m) * r))
                              (map (fun l => wrap64 (seq_len - l)) lens) rand) = length fr)
    by (rewrite zip_with_length; rewrite length_map; congruence).
  assert (Lstarts : length starts = length fr)
    by (unfold starts; now rewrite length_map).
  assert (Lends : length ends = length fr)
    by (unfold ends; rewrite zip_with_length; congruence).
  eexists. eexists. split; [reflexivity|].
  intros i Hi.
  set (f := nth i fr 0%Q).
  set (r := nth i rand 0%Q).
  assert (Hf : (0 < f)%Q /\ (f <= 1)%Q).
  { rewrite Forall_forall in Hfr. apply Hfr. apply nth_In. exact Hi. }
  assert (Hr : (0 <= r)%Q /\ (r < 1)%Q).
  { unfold r, rand.
    rewrite (nth_map_in _ _ _ 0%nat) by now rewrite length_seq.
    destruct (unit_frac_range (torch_tape w (torch_pos w + nth i (seq 0 (length fr)) 0)%nat))
      as [H0 H1].
    split.
    - setoid_replace (0 + (1 - 0) * unit_frac (torch_tape w (torch_pos w + nth i (seq 0 (length fr)) 0)%nat))%Q
        with (unit_frac (torch_tape w (torch_pos w + nth i (seq 0 (length fr)) 0)%nat)) by ring.
      exact H0.
    - setoid_replace (0 + (1 - 0) * unit_frac (torch_tape w (torch_pos w + nth i (seq 0 (length fr)) 0)%nat))%Q
        with (unit_frac (torch_tape w (torch_pos w + nth i (seq 0 (length fr)) 0)%nat)) by ring.
      exact H1. }
  assert (Elen : nth i lens 0 = long (float32 (f * float32 (inject_Z seq_len)))).
  { unfold lens. rewrite map_map. now rewrite (nth_map_in _ _ _ 0%Q). }
  assert (Estart : nth i starts 0%Q
                   = Qmax (float32 (float32 (inject_Z (wrap64 (seq_len - nth i lens 0))) * r)) 0).
  { unfold starts. rewrite (nth_map_in _ _ _ 0%Q) by congruence.
    rewrite (nth_zip_with _ _ _ _ 0 0%Q) by (rewrite ?length_map; congruence).
    now rewrite (nth_map_in _ _ _ 0) by congruence. }
  assert (Eend : nth i ends 0%Q
                 = float32 (nth i starts 0%Q + float32 (inject_Z (nth i lens 0%Z)))).
  { unfold ends. now rewrite (nth_zip_with _ _ _ _ 0%Q 0) by congruence. }
  destruct Hf as [Hf0 Hf1]. destruct Hr as [Hr0 Hr1].
  destruct (span_bounds seq_len f r Hn HS Hf0 Hf1 Hr0 Hr1)
    as (Hfloor & Hlen0 & Hs0 & Hend & Hin).
  cbv zeta in Hfloor, Hlen0, Hs0, Hend, Hin.
  rewrite <- Elen in Hfloor, Hlen0, Hs0, Hend, Hin.
  rewrite <- Estart in Hs0, Hend, Hin.
  rewrite <- Eend in Hend, Hin.
  exists (long (nth i starts 0%Q)),
         (long (nth i ends 0%Q) - long (nth i starts 0%Q)).
  cbv zeta. fold f. rewrite <- Hfloor.
  split; [lia|]. split; [exact Hlen0|]. split; [exact Hs0|]. split; [lia|].
  intros p Hp.
  rewrite (nth_concat_const _ (Z.to_nat seq_len)) by (try apply rows_length; exact Hp).
  rewrite (nth_zip_with _ _ _ _ 0%Q 0%Q) by congruence.
  rewrite nth_row_mask by exact Hp.
  rewrite Bool.andb_true_iff, Z.geb_le, Z.ltb_lt. lia.
Qed.

(** C4 (as stated, refuted). With [seq_len] 5 and the fraction 3/4 the span
    has 3 positions, and 3 is not a rounding of 3.75. *)
Lemma mask_from_frac_lengths_truncates :
  exists w',
    mask_from_frac_lengths 5 (mkTensor [1%nat] [(3 # 4)%Q]) (constant_world 0 0)
    = (Ok (mkTensor [1; 5]%nat [true; true; true; false; false]), w')
    /\ count_true [true; true; true; false; false] = 3
    /\ ~ is_round ((3 # 4) * inject_Z 5) 3.
Proof.
  eexists. split; [vm_compute; reflexivity|]. split; [reflexivity|].
  unfold is_round. intros H. vm_compute in H. apply H. reflexivity.
Qed.

(** The product is rounded to single precision before it is truncated:
    with [seq_len] 10 and the single-precision number nearest to 0.7
    (which is below 0.7) the span has 7 positions, where the exact product
    6.99999988 would give 6. *)
Lemma mask_from_frac_lengths_rounds_product :
  exists w',
    mask_from_frac_lengths 10 (mkTensor [1%nat] [(11744051 # 16777216)%Q])
      (constant_world 0 0)
    = (Ok (mkTensor [1; 10]%nat
             [true; true; true; true; true; true; true; false; false; false]), w')
    /\ Qfloor ((11744051 # 16777216) * inject_Z 10) = 6.
Proof. eexists. split; [vm_compute; reflexivity|reflexivity]. Qed.

(** The span can be one position longer than [lengths]: with [seq_len] 6,
    the fraction 1/2 and the draw 1 - 2^-24, [lengths] is 3, the start
    2.99999976 truncates to 2 and the sum [start + lengths] rounds to 6. *)
Lemma mask_from_frac_lengths_span_one_longer :
  exists w',
    mask_from_frac_lengths 6 (mkTensor [1%nat] [(1 # 2)%Q])
      (constant_world 0 (16777215 # 16777216))
    = (Ok (mkTensor [1; 6]%nat [false; false; true; true; true; true]), w')
    /\ Qfloor (float32 ((1 # 2) * float32 (inject_Z 6))) = 3.
Proof. eexists. split; [vm_compute; reflexivity|reflexivity]. Qed.

Lemma mask_from_frac_lengths_span_witness :
  1 <= 4 /\ 4 < 2 ^ 24
  /\ Forall (fun f => (0 < f)%Q /\ (f <= 1)%Q) [(1 # 2)%Q; 1%Q]
  /\ exists (mask : list bool) (w' : world),
       mask_from_frac_lengths 4 (mkTensor [2%nat] [(1 # 2)%Q; 1%Q])
         (constant_world 0 (1 # 3))
       = (Ok (mkTensor [2%nat; Z.to_nat 4] mask), w')
       /\ forall i, (i < 2)%nat ->
          exists s len,
            let l := Qfloor (float32 (nth i [(1 # 2)%Q; 1%Q] 0%Q * float32 (inject_Z 4))) in
            (len = l \/ len = l + 1)
            /\ 0 <= l /\ 0 <= s /\ s + len <= 4
            /\ forall p, (p < Z.to_nat 4)%nat ->
                 nth (i * Z.to_nat 4 + p) mask false = true
                 <-> s <= Z.of_nat p < s + len.
Proof.
  assert (H1 : 1 <= 4) by lia.
  assert (H1' : 4 < 2 ^ 24) by reflexivity.
  assert (H2 : Forall (fun f => (0 < f)%Q /\ (f <= 1)%Q) [(1 # 2)%Q; 1%Q]).
  { repeat constructor; unfold Qlt, Qle; simpl; lia. }
  split; [exact H1|]. split; [exact H1'|]. split; [exact H2|].
  exact (mask_from_frac_lengths_span 4 [(1 # 2)%Q; 1%Q] (constant_world 0 (1 # 3))
           H1 H1' H2).
Defined.

(** ** Construction *)

Lemma divisible_by_2_odd (n : Z) : Z.odd n = true -> divisible_by n 2 = false.
Proof. intros H. unfold divisible_by. rewrite Zmod_odd, H. reflexivity. Qed.

Lemma divisible_by_2_even (n : Z) : Z.even n = true -> divisible_by n 2 = true.
Proof. intros H. unfold divisible_by. rewrite Zmod_even, H. reflexivity. Qed.

Lemma is_odd_even (n : Z) : Z.even n = true -> is_odd n = false.
Proof. intros H. unfold is_odd. now rewrite divisible_by_2_even. Qed.

Lemma is_odd_odd (n : Z) : Z.odd n = true -> is_odd n = true.
Proof. intros H. unfold is_odd. now rewrite divisible_by_2_odd. Qed.

Section Construction.
Context (T : Torch).

Lemma LearnedSinusoidalPosEmb_odd_dim (dim : Z) :
  Z.odd dim = true -> LearnedSinusoidalPosEmb.init dim = Raise AssertionError.
Proof.
  intros H. unfold LearnedSinusoidalPosEmb.init.
  now rewrite divisible_by_2_odd.
Qed.

Lemma Transformer_odd_depth (dim depth dim_head heads ff_mult : Z) (flash : bool) :
  Z.odd depth = true ->
  Transformer.init dim depth dim_head heads ff_mult flash = Raise AssertionError.
Proof.
  intros H. unfold Transformer.init.
  now rewrite divisible_by_2_odd.
Qed.

Lemma ConvPositionEmbed_even_kernel (dim kernel_size : Z) (groups : option Z) :
  Z.even kernel_size = true ->
  ConvPositionEmbed.init dim kernel_size groups = Raise AssertionError.
Proof.
  intros H. unfold ConvPositionEmbed.init.
  now rewrite is_odd_even.
Qed.

Hypothesis Hsane : accepts_sane T.

Lemma new_sane (l : layer) : sane_call l = true -> new l = Ok l.
Proof. intros H. unfold new. now rewrite (Hsane l H). Qed.

Lemma LearnedSinusoidalPosEmb_ok (dim : Z) :
  Z.even dim = true -> 0 < dim ->
  exists m, LearnedSinusoidalPosEmb.init dim = Ok m.
Proof.
  intros He Hd. unfold LearnedSinusoidalPosEmb.init.
  rewrite divisible_by_2_even by exact He. simpl rbind.
  rewrite new_sane.
  - eexists; reflexivity.
  - simpl. apply Z.ltb_lt.
    rewrite (Zeven_div2 dim) in Hd by (apply Zeven_bool_iff; exact He).
    rewrite Z.div2_div in Hd. lia.
Qed.

Lemma ConvPositionEmbed_ok (dim kernel_size : Z) (groups : option Z) :
  Z.odd kernel_size = true -> 0 < kernel_size -> 0 < dim -> groups_ok dim groups ->
  exists m, ConvPositionEmbed.init dim kernel_size groups = Ok m.
Proof.
  intros Ho Hk Hd Hg. unfold ConvPositionEmbed.init.
  rewrite is_odd_odd by exact Ho. simpl rbind.
  rewrite new_sane.
  - simpl rbind. rewrite new_sane by reflexivity. eexists; reflexivity.
  - simpl.
    assert (0 <= kernel_size / 2) by (apply Z.div_pos; lia).
    destruct groups as [g|]; simpl in *.
    + destruct Hg as [Hg0 Hgd]. rewrite Hgd.
      repeat (apply andb_true_intro; split); lia.
    + rewrite Z_mod_same_full.
      repeat (apply andb_true_intro; split); lia.
Qed.

Lemma RMSNorm_ok (dim : Z) :
  0 < dim ->
  RMSNorm.init dim
  = Ok {| RMSNorm.scale_squared := dim; RMSNorm.gamma := nn_Parameter Ones dim |}.
Proof.
  intros Hd. unfold RMSNorm.init. rewrite new_sane; [reflexivity|].
  simpl. lia.
Qed.

Lemma Attention_ok (dim dim_head heads : Z) :
  0 < dim -> 0 < dim_head -> 0 < heads ->
  exists m, Attention.init dim dim_head heads false = Ok m.
Proof.
  intros Hd Hh Hn. unfold Attention.init.
  destruct (dim_head =? 0) eqn:E; [lia|]. simpl rbind.
  rewrite new_sane by reflexivity. simpl rbind.
  rewrite RMSNorm_ok by exact Hd. simpl rbind.
  assert (0 < dim_head * heads) by (apply Z.mul_pos_pos; assumption).
  rewrite new_sane by (simpl; lia). simpl rbind.
  rewrite new_sane by (simpl; lia). simpl rbind.
  eexists; reflexivity.
Qed.

Lemma FeedForward_ok (dim mult : Z) :
  0 < dim -> 0 < mult -> exists m, FeedForward.init dim mult = Ok m.
Proof.
  intros Hd Hm. unfold FeedForward.init.
  rewrite RMSNorm_ok by exact Hd. simpl rbind.
  assert (0 < dim * mult) by (apply Z.mul_pos_pos; assumption).
  rewrite new_sane by (simpl; lia). simpl rbind.
  rewrite new_sane by reflexivity. simpl rbind.
  rewrite new_sane by (simpl; lia). simpl rbind.
  eexists; reflexivity.
Qed.

Lemma init_block_ok (dim depth dim_head heads ff_mult ind : Z) :
  0 < dim -> 0 < dim_head -> 0 < heads -> 0 < ff_mult ->
  exists b, Transformer.init_block dim depth dim_head heads ff_mult false ind = Ok b.
Proof.
  intros Hd Hh Hn Hm. unfold Transformer.init_block.
  destruct (Attention_ok dim dim_head heads Hd Hh Hn) as [a Ha].
  destruct (FeedForward_ok dim ff_mult Hd Hm) as [f Hf].
  destruct (depth / 2 <? ind + 1).
  - rewrite new_sane by (simpl; lia). simpl rbind.
    rewrite Ha. simpl rbind. rewrite Hf. simpl rbind. eexists; reflexivity.
  - simpl rbind.
    rewrite Ha. simpl rbind. rewrite Hf. simpl rbind. eexists; reflexivity.
Qed.

Lemma mapM_ok {A B} (f : A -> result B) (l : list A) :
  (forall a, exists b, f a = Ok b) -> exists bs, mapM f l = Ok bs.
Proof.
  intros Hf. induction l as [|a l [bs IH]]; simpl.
  - eexists; reflexivity.
  - destruct (Hf a) as [b Hb]. rewrite Hb, IH. simpl. eexists; reflexivity.
Qed.

Lemma Transformer_ok (dim depth dim_head heads ff_mult : Z) :
  Z.even depth = true -> 0 < dim -> 0 < dim_head -> 0 < heads -> 0 < ff_mult ->
  exists m, Transformer.init dim depth dim_head heads ff_mult false = Ok m.
Proof.
  intros He Hd Hh Hn Hm. unfold Transformer.init.
  rewrite divisible_by_2_even by exact He. simpl rbind.
  unfold RotaryEmbedding.init. rewrite new_sane by (simpl; lia). simpl rbind.
  destruct (mapM_ok (Transformer.init_block dim depth dim_head heads ff_mult false)
              (range depth)) as [bs Hbs].
  { intros ind. apply init_block_ok; assumption. }
  rewrite Hbs. simpl rbind. rewrite RMSNorm_ok by exact Hd. simpl rbind.
  eexists; reflexivity.
Qed.
End Construction.

Lemma sane_torch_accepts_sane : accepts_sane sane_torch.
Proof. intros l H. unfold torch_rejects, sane_torch. now rewrite H. Qed.

(** C8. A [LearnedSinusoidalPosEmb] of odd dimension, a [Transformer] of odd
    depth and a [ConvPositionEmbed] of even kernel size are refused by the
    assertion of their constructor; with an even dimension, an even depth,
    an odd kernel size and positive sizes that the library accepts, the
    three constructors return a module. *)
Theorem configuration_checked_at_construction (T : Torch)
  (bad_dim bad_depth bad_kernel_size : Z)
  (dim depth dim_head heads ff_mult kernel_size : Z) (groups : option Z) :
  Z.odd bad_dim = true -> Z.odd bad_depth = true -> Z.even bad_kernel_size = true ->
  accepts_sane T ->
  Z.even dim = true -> Z.even depth = true -> Z.odd kernel_size = true ->
  0 < dim -> 0 < dim_head -> 0 < heads -> 0 < ff_mult -> 0 < kernel_size ->
  groups_ok dim groups ->
  LearnedSinusoidalPosEmb.init bad_dim = Raise AssertionError
  /\ (forall d dh h m fl, Transformer.init d bad_depth dh h m fl = Raise AssertionError)
  /\ (forall d g, ConvPositionEmbed.init d bad_kernel_size g = Raise AssertionError)
  /\ (exists m, LearnedSinusoidalPosEmb.init dim = Ok m)
  /\ (exists m, Transformer.init dim depth dim_head heads ff_mult false = Ok m)
  /\ (exists m, ConvPositionEmbed.init dim kernel_size groups = Ok m).
Proof.
  intros Hbd Hbp Hbk Hsane Hed Hep Hok Hd Hh Hn Hm Hk Hg.
  split; [apply LearnedSinusoidalPosEmb_odd_dim; exact Hbd|].
  split; [intros; apply Transformer_odd_depth; exact Hbp|].
  split; [intros; apply ConvPositionEmbed_even_kernel; exact Hbk|].
  split; [apply LearnedSinusoidalPosEmb_ok; assumption|].
  split; [apply Transformer_ok; assumption|].
  apply ConvPositionEmbed_ok; assumption.
Qed.

Lemma configuration_checked_at_construction_witness :
  LearnedSinusoidalPosEmb.init (T := sane_torch) 3 = Raise AssertionError
  /\ (forall d dh h m fl,
        Transformer.init (T := sane_torch) d 3 dh h m fl = Raise AssertionError)
  /\ (forall d g,
        ConvPositionEmbed.init (T := sane_torch) d 30 g = Raise AssertionError)
  /\ (exists m, LearnedSinusoidalPosEmb.init (T := sane_torch) 8 = Ok m)
  /\ (exists m, Transformer.init (T := sane_torch) 8 2 4 2 4 false = Ok m)
  /\ (exists m, ConvPositionEmbed.init (T := sane_torch) 8 31 None = Ok m).
Proof.
  apply (configuration_checked_at_construction sane_torch 3 3 30 8 2 4 2 4 31 None);
    try reflexivity; try lia; try exact I.
  exact sane_torch_accepts_sane.
Defined.

(** C2 (as stated, refuted). With an even kernel size of the convolution the
    constructor fails on the assertion of [ConvPositionEmbed], before the
    name [Rearrange] is evaluated: not every failure is an unresolved name. *)
Lemma DurationPredictor_init_even_kernel :
  DurationPredictor.init (T := sane_torch) args_even_kernel = Raise AssertionError
  /\ ~ (forall (T : Torch) (a : DurationPredictor.Args.t),
          exists name, DurationPredictor.init a = Raise (NameError name)).
Proof.
  assert (E : DurationPredictor.init (T := sane_torch) args_even_kernel
              = Raise AssertionError) by (vm_compute; reflexivity).
  split; [exact E|].
  intros H. destruct (H sane_torch args_even_kernel) as [name Hn].
  rewrite E in Hn. discriminate.
Qed.

Lemma rbind_raises {A B} (r : result A) (k : A -> result B) :
  (forall a, exists e, k a = Raise e) -> exists e, rbind r k = Raise e.
Proof.
  intros Hk. destruct r as [a|e]; simpl; [apply Hk|eexists; reflexivity].
Qed.

(** C2 (amended). No call of the constructor of [DurationPredictor] returns:
    every call raises.  When the arguments are valid and the library
    accepts the sub-modules, the exception is the unresolved name
    [Rearrange]; an invalid argument makes an earlier step fail (the
    assertions on the kernel size and the depth among them). *)
Theorem DurationPredictor_init_raises (T T' : Torch)
  (a a' : DurationPredictor.Args.t) :
  accepts_sane T' -> DurationPredictor_valid_args a' ->
  (exists e, DurationPredictor.init (T := T) a = Raise e)
  /\ DurationPredictor.init (T := T') a' = Raise (NameError "Rearrange").
Proof.
  intros Hsane Hvalid. split.
  - unfold DurationPredictor.init.
    change (lookup_global "Rearrange") with (@Raise unit (NameError "Rearrange")).
    do 6 (apply rbind_raises; intros ?).
    cbn [rbind]. eexists; reflexivity.
  - destruct a' as [npt dpe dim depth dh heads mult ks groups flash pdp flm].
    unfold DurationPredictor_valid_args in Hvalid. simpl in Hvalid.
    destruct Hvalid as (Hn & Hpe & Hd & Hep & Hh & Hhe & Hm & Hok & Hk & Hg & Hf).
    subst flash. unfold DurationPredictor.init. simpl.
    rewrite (new_sane T' Hsane) by (simpl; lia). simpl rbind.
    rewrite (new_sane T' Hsane) by (simpl; lia). simpl rbind.
    rewrite (new_sane T' Hsane) by (simpl; lia). simpl rbind.
    destruct (ConvPositionEmbed_ok T' Hsane dim ks groups Hok Hk Hd Hg) as [c Hc].
    rewrite Hc. simpl rbind.
    destruct (Transformer_ok T' Hsane dim depth dh heads mult Hep Hd Hh Hhe Hm) as [t Ht].
    rewrite Ht. simpl rbind.
    rewrite (new_sane T' Hsane) by (simpl; lia). simpl rbind.
    reflexivity.
Qed.

Lemma DurationPredictor_init_raises_witness :
  accepts_sane sane_torch
  /\ DurationPredictor_valid_args (DurationPredictor.Args.defaults 50)
  /\ (exists e, DurationPredictor.init (T := lenient_torch) args_even_kernel = Raise e)
  /\ DurationPredictor.init (T := sane_torch) (DurationPredictor.Args.defaults 50)
     = Raise (NameError "Rearrange").
Proof.
  assert (H1 : accepts_sane sane_torch) by exact sane_torch_accepts_sane.
  assert (H2 : DurationPredictor_valid_args (DurationPredictor.Args.defaults 50)).
  { unfold DurationPredictor_valid_args. simpl. repeat split; try lia; reflexivity. }
  split; [exact H1|]. split; [exact H2|].
  exact (DurationPredictor_init_raises lenient_torch sane_torch args_even_kernel
           (DurationPredictor.Args.defaults 50) H1 H2).
Defined.

(** ** The forward passes *)

Lemma bind_raises {A B} (m : M A) (k : A -> M B) :
  (forall a w, exists e, fst (k a w) = Raise e) ->
  forall w, exists e, fst (bind m k w) = Raise e.
Proof.
  intros Hk w. unfold bind. destruct (m w) as [[a|e] w'].
  - apply Hk.
  - eexists; reflexivity.
Qed.

Lemma bind_ret {A} (m : M A) (w : world) : bind m (fun a => ret a) w = m w.
Proof. unfold bind, ret. destruct (m w) as [[a|e] w']; reflexivity. Qed.

(** The mask is never absent once [construct_mask] has run: the branch of
    both predictors for an absent mask is unreachable. *)
Lemma construct_mask_some (batch seq_len : nat) (flm : Q * Q) (p : Q)
  (mask : option (tensor bool)) (w : world) :
  fst (construct_mask batch seq_len flm p mask w) <> Ok None.
Proof.
  unfold construct_mask. destruct mask as [m|]; simpl; [discriminate|].
  unfold bind. destruct (coin_flip w) as [[[|]|e] w1]; try discriminate.
  - destruct (uniform_ [batch] (fst flm) (snd flm) w1) as [[fl|e] w2]; try discriminate.
    destruct (mask_from_frac_lengths (Z.of_nat seq_len) fl w2) as [[m|e] w3]; discriminate.
  - destruct (prob_mask_like [batch; seq_len] p w1) as [[m|e] w2]; discriminate.
Qed.

Lemma DurationPredictor_loss_no_target (x : tensor Q) (mask : option (tensor bool)) :
  DurationPredictor.loss x None mask = Raise no_size.
Proof. destruct mask; reflexivity. Qed.

(** C1. Without a target, [DurationPredictor.forward] returns no
    prediction: every call raises, whatever the layers compute, the other
    arguments and the random draws; when the layers succeed the exception
    is the one of [F.l1_loss] on a target that is [None]. *)
Theorem DurationPredictor_forward_without_target_raises (N : Numerics)
  (self : DurationPredictor.t) (x : tensor Q) (phoneme_ids : tensor Z)
  (cond : tensor Q) (cond_drop_prob : Q) (mask : option (tensor bool))
  (w : world) :
  (exists e,
     fst (DurationPredictor.forward self x phoneme_ids cond cond_drop_prob None mask w)
     = Raise e)
  /\ fst (DurationPredictor.forward (N := plain_numerics) handmade_predictor
            (mkTensor [1; 2; 1]%nat [1; 2]%Q) (mkTensor [1; 2]%nat [7; 8])
            (mkTensor [1; 2; 1]%nat [3; 4]%Q) 0%Q None None (constant_world 0 0))
     = Raise no_size.
Proof.
  split; [|vm_compute; reflexivity].
  unfold DurationPredictor.forward. revert w.
  apply bind_raises; intros [[batch seq_len] cond_dim] w.
  do 3 (apply bind_raises; intros ? ?).
  apply bind_raises; intros [cond' ids'] w'.
  do 6 (apply bind_raises; intros ? ?).
  unfold lift. simpl. rewrite DurationPredictor_loss_no_target.
  eexists; reflexivity.
Qed.

(** C6. With [cond_scale = 1], [forward_with_cond_scale] is the single call
    of [forward] with [cond_drop_prob = 0]: the same result or exception and
    the same world afterwards, for both predictors. *)
Theorem forward_with_cond_scale_one (N : Numerics)
  (vb : VoiceBox.t) (dp : DurationPredictor.t)
  (x : tensor Q) (phoneme_ids : tensor Z) (cond times : tensor Q)
  (target : option (tensor Q)) (mask : option (tensor bool)) (w : world) :
  VoiceBox.forward_with_cond_scale vb x 1%Q phoneme_ids cond times target mask w
  = VoiceBox.forward vb x phoneme_ids cond times 0%Q target mask w
  /\ DurationPredictor.forward_with_cond_scale dp x 1%Q phoneme_ids cond target mask w
     = DurationPredictor.forward dp x phoneme_ids cond 0%Q target mask w.
Proof.
  unfold VoiceBox.forward_with_cond_scale, DurationPredictor.forward_with_cond_scale.
  change (Qeq_bool 1 1) with true. cbv iota.
  split; apply bind_ret.
Qed.

(** C10. [sample] does not read its [mask] argument: two calls that differ
    in the mask only, from the same world, give the same result and the
    same world afterwards, for any layers and any integrator. *)
Theorem sample_ignores_mask (N : Numerics) (S : Solvers)
  (self : ConditionalFlowMatcherWrapper.t) (phoneme_ids : tensor Z)
  (cond : tensor Q) (mask1 mask2 : option (tensor bool)) (steps : Z)
  (cond_scale : Q) (w : world) :
  ConditionalFlowMatcherWrapper.sample self phoneme_ids cond mask1 steps cond_scale w
  = ConditionalFlowMatcherWrapper.sample self phoneme_ids cond mask2 steps cond_scale w.
Proof. reflexivity. Qed.

(** ** The masked loss *)

(** The denominator of the masked mean is at least the floor 1e-5, hence
    never zero. *)
Lemma masked_mean_denominator_floor (mask : tensor bool) :
  Forall (fun den => (1 # 100000 <= den)%Q /\ ~ (den == 0)%Q)
         (data (clamp_min (1 # 100000) (sum_last mask))).
Proof.
  unfold clamp_min, tmap. simpl data. apply Forall_forall. intros den Hin.
  apply in_map_iff in Hin. destruct Hin as [z [<- _]].
  assert (H : (1 # 100000 <= Qmax (inject_Z z) (1 # 100000))%Q) by apply Q.le_max_r.
  split; [exact H|].
  intros E. rewrite E in H. revert H. unfold Qle. simpl. lia.
Qed.

(** C3. On one batch item with two positions whose losses are 4 and 16
    (VoiceBox) or 2 and 4 (DurationPredictor), the loss with an all-False
    mask is the sum divided by the floor 1e-5, not the plain mean (10 and
    3); with an all-True mask the loss is 0. *)
Theorem masked_loss_all_false_is_not_the_mean :
  let all_false := mkTensor [1; 2]%nat [false; false] in
  let all_true := mkTensor [1; 2]%nat [true; true] in
  let x3 := mkTensor [1; 2; 1]%nat [2; 4]%Q in
  let y3 := mkTensor [1; 2; 1]%nat [0; 0]%Q in
  let x2 := mkTensor [1; 2]%nat [2; 4]%Q in
  let y2 := mkTensor [1; 2]%nat [0; 0]%Q in
  (exists q, VoiceBox.loss x3 (Some y3) (Some all_false) = Ok (scalar q)
             /\ (q == 2000000)%Q)
  /\ (exists q, VoiceBox.loss x3 (Some y3) None = Ok (scalar q) /\ (q == 10)%Q)
  /\ (exists q, VoiceBox.loss x3 (Some y3) (Some all_true) = Ok (scalar q)
                /\ (q == 0)%Q)
  /\ (exists q, DurationPredictor.loss x2 (Some y2) (Some all_false) = Ok (scalar q)
                /\ (q == 600000)%Q)
  /\ (exists q, DurationPredictor.loss x2 (Some y2) None = Ok (scalar q) /\ (q == 3)%Q)
  /\ (exists q, DurationPredictor.loss x2 (Some y2) (Some all_true) = Ok (scalar q)
                /\ (q == 0)%Q).
Proof.
  cbv zeta. repeat split; eexists; (split; [vm_compute; reflexivity|reflexivity]).
Qed.

(** ** The interpolation path of [ConditionalFlowMatcherWrapper.forward] *)

Lemma concat_repeat_repeat {A} (v : A) (d n : nat) :
  concat (repeat (repeat v d) n) = repeat v (n * d).
Proof.
  induction n as [|n IH]; simpl; [reflexivity|].
  now rewrite IH, repeat_app.
Qed.

Lemma numel_3d (b n d : nat) : numel [b; n; d] = (b * (n * d))%nat.
Proof. simpl. now rewrite Nat.mul_1_r. Qed.

Lemma expand_aligned_one {A} (v : A) (d : nat) :
  expand_aligned [1%nat] [d] [v] = repeat v d.
Proof.
  destruct d as [|[|d]]; simpl; rewrite ?app_nil_r; try reflexivity.
  do 2 f_equal. induction d as [|d IH]; simpl; [reflexivity|]. now rewrite IH.
Qed.

Lemma expand_aligned_cell {A} (v : A) (n d : nat) :
  expand_aligned [1; 1]%nat [n; d] [v] = repeat v (n * d).
Proof.
  change (expand_aligned [1; 1]%nat [n; d] [v])
    with (if (1 =? n)%nat then concat [expand_aligned [1%nat] [d] [v]]
          else concat (repeat (hd [] [expand_aligned [1%nat] [d] [v]]) n)).
  rewrite expand_aligned_one. simpl hd.
  destruct (1 =? n)%nat eqn:E.
  - apply Nat.eqb_eq in E. subst n. simpl. now rewrite app_nil_r, Nat.add_0_r.
  - apply concat_repeat_repeat.
Qed.

Lemma expand_batch {A} (tl : list A) (n d : nat) :
  expand (mkTensor [length tl; 1; 1]%nat tl) [length tl; n; d]
  = Ok (mkTensor [length tl; n; d] (flat_map (fun v => repeat v (n * d)) tl)).
Proof.
  unfold expand, pad_left. simpl length. simpl app. simpl shape.
  assert (E : expandable [length tl; 1; 1]%nat [length tl; n; d] = true).
  { simpl. now rewrite Nat.eqb_refl, !Bool.orb_true_r. }
  rewrite E. simpl andb. cbv iota. do 2 f_equal. simpl data.
  change (expand_aligned [length tl; 1; 1]%nat [length tl; n; d] tl)
    with (let rows := map (expand_aligned [1; 1]%nat [n; d])
                          (chunks (numel [1; 1]%nat) (length tl) tl) in
          if (length tl =? length tl)%nat then concat rows
          else concat (repeat (hd [] rows) (length tl))).
  cbv zeta. rewrite Nat.eqb_refl.
  change (numel [1; 1]%nat) with 1%nat.
  rewrite chunks_singletons by reflexivity.
  rewrite map_map, flat_map_concat_map. f_equal.
  apply map_ext. intros v. apply expand_aligned_cell.
Qed.

Lemma broadcast_batch (b n d : nat) :
  broadcast_shapes [b; 1; 1]%nat [b; n; d] = Ok [b; n; d]
  /\ broadcast_shapes [b; n; d] [b; n; d] = Ok [b; n; d].
Proof.
  unfold broadcast_shapes, pad_left. simpl.
  rewrite !Nat.eqb_refl.
  destruct d as [|[|d]], n as [|[|n]]; simpl; split; reflexivity.
Qed.

(** A per-batch scalar against a (b, n, d) tensor. *)
Lemma bc_binop_batch {A B C} (f : A -> B -> C) (tl : list A) (n d : nat) (xd : list B) :
  length xd = (length tl * (n * d))%nat ->
  bc_binop f (mkTensor [length tl; 1; 1]%nat tl) (mkTensor [length tl; n; d] xd)
  = Ok (mkTensor [length tl; n; d]
          (zip_with f (flat_map (fun v => repeat v (n * d)) tl) xd)).
Proof.
  intros Hx. unfold bc_binop. simpl shape.
  destruct (broadcast_batch (length tl) n d) as [-> _]. simpl rbind.
  rewrite expand_batch. simpl rbind.
  rewrite expand_same by (rewrite numel_3d; exact Hx). reflexivity.
Qed.

Lemma nth_flat_map_repeat {A} (l : list A) (m i j : nat) (dflt : A) :
  (j < m)%nat ->
  nth (i * m + j) (flat_map (fun v => repeat v m) l) dflt = nth i l dflt.
Proof.
  intros Hj. rewrite flat_map_concat_map.
  rewrite (nth_concat_const _ m).
  - destruct (Nat.lt_ge_cases i (length l)) as [Hi|Hi].
    + rewrite (nth_map_in _ _ _ dflt) by exact Hi.
      rewrite (nth_indep _ dflt (nth i l dflt)) by (rewrite repeat_length; exact Hj).
      apply nth_repeat.
    + rewrite (nth_overflow (map _ _)) by (rewrite length_map; exact Hi).
      rewrite (nth_overflow l) by exact Hi. now destruct j.
  - apply Forall_forall. intros r Hr. apply in_map_iff in Hr.
    destruct Hr as [v [<- _]]. apply repeat_length.
  - exact Hj.
Qed.

Lemma bc_binop_batch_of {A B C} (f : A -> B -> C) (b n d : nat)
  (tl : list A) (xd : list B) :
  length tl = b -> length xd = (b * (n * d))%nat ->
  bc_binop f (mkTensor [b; 1; 1]%nat tl) (mkTensor [b; n; d] xd)
  = Ok (mkTensor [b; n; d] (zip_with f (flat_map (fun v => repeat v (n * d)) tl) xd)).
Proof. intros <- Hx. now apply bc_binop_batch. Qed.

Lemma unit_draw_range (q : Q) :
  (0 <= 0 + (1 - 0) * unit_frac q)%Q /\ (0 + (1 - 0) * unit_frac q < 1)%Q.
Proof.
  destruct (unit_frac_range q) as [H0 H1].
  setoid_replace (0 + (1 - 0) * unit_frac q)%Q with (unit_frac q) by ring.
  split; assumption.
Qed.

Lemma bind_lift_ok {A B} (a : A) (k : A -> M B) (w : world) :
  bind (lift (Ok a)) k w = k a w.
Proof. reflexivity. Qed.

(** The interpolant and the target, entry by entry, for any times. *)
Lemma w_flow_entries (sigma : Q) (b n d : nat) (tl d0 d1 : list Q) :
  length tl = b -> length d0 = (b * (n * d))%nat -> length d1 = (b * (n * d))%nat ->
  exists wd fd : list Q,
    ConditionalFlowMatcherWrapper.w sigma (mkTensor [b; 1; 1]%nat tl)
      (mkTensor [b; n; d] d0) (mkTensor [b; n; d] d1)
    = Ok (mkTensor [b; n; d] wd)
    /\ ConditionalFlowMatcherWrapper.flow sigma
         (mkTensor [b; n; d] d0) (mkTensor [b; n; d] d1)
       = Ok (mkTensor [b; n; d] fd)
    /\ forall i j, (i < b)%nat -> (j < n * d)%nat ->
       let k := (i * (n * d) + j)%nat in
       let t := nth i tl 0%Q in
       let x0 := nth k d0 0%Q in
       let x1 := nth k d1 0%Q in
       (nth k wd 0 == (1 - (1 - sigma) * t) * x0 + t * x1)%Q
       /\ (nth k fd 0 == x1 - (1 - sigma) * x0)%Q
       /\ ((sigma == 0)%Q -> (nth k fd 0 == x1 - x0)%Q)
       /\ ((sigma == 0)%Q -> (t == 0)%Q -> (nth k wd 0 == x0)%Q)
       /\ ((sigma == 0)%Q -> (t == 1)%Q -> (nth k wd 0 == x1)%Q).
Proof.
  intros Ht H0 H1.
  unfold ConditionalFlowMatcherWrapper.w, ConditionalFlowMatcherWrapper.flow, tmap.
  simpl shape. simpl data.
  rewrite (bc_binop_batch_of Qmult b n d) by (rewrite ?length_map; assumption).
  simpl rbind.
  rewrite (bc_binop_batch_of Qmult b n d) by assumption.
  simpl rbind.
  set (a0 := zip_with Qmult (flat_map (fun v => repeat v (n * d))
                               (map (fun v => (1 - (1 - sigma) * v)%Q) tl)) d0).
  set (a1 := zip_with Qmult (flat_map (fun v => repeat v (n * d)) tl) d1).
  assert (La0 : length a0 = (b * (n * d))%nat).
  { unfold a0. rewrite zip_with_length;
      rewrite (flat_map_length_const _ (n * d)), ?length_map;
      try (intros; apply repeat_length); congruence. }
  assert (La1 : length a1 = (b * (n * d))%nat).
  { unfold a1. rewrite zip_with_length;
      rewrite (flat_map_length_const _ (n * d));
      try (intros; apply repeat_length); congruence. }
  rewrite !bc_binop_same_shape by (rewrite ?length_map, numel_3d; assumption).
  eexists. eexists. split; [reflexivity|]. split; [reflexivity|].
  intros i j Hi Hj.
  set (k := (i * (n * d) + j)%nat).
  set (t := nth i tl 0%Q). set (x0 := nth k d0 0%Q). set (x1 := nth k d1 0%Q).
  assert (Hk : (k < b * (n * d))%nat) by (unfold k; nia).
  assert (Ew : nth k (zip_with Qplus a0 a1) 0%Q
               = ((1 - (1 - sigma) * t) * x0 + t * x1)%Q).
  { rewrite (nth_zip_with _ _ _ _ 0%Q 0%Q) by lia.
    unfold a0, a1.
    rewrite !(nth_zip_with _ _ _ _ 0%Q 0%Q);
      rewrite ?(flat_map_length_const _ (n * d)), ?length_map;
      try (intros; apply repeat_length); try lia.
    unfold k. rewrite !nth_flat_map_repeat by exact Hj.
    rewrite (nth_map_in _ _ _ 0%Q) by lia. reflexivity. }
  assert (Ef : nth k (zip_with Qminus d1 (map (fun v => ((1 - sigma) * v)%Q) d0)) 0%Q
               = (x1 - (1 - sigma) * x0)%Q).
  { rewrite (nth_zip_with _ _ _ _ 0%Q 0%Q) by (rewrite ?length_map; lia).
    rewrite (nth_map_in _ _ _ 0%Q) by lia. reflexivity. }
  rewrite Ew, Ef.
  split; [reflexivity|]. split; [reflexivity|].
  split; [intros Es; rewrite Es; ring|].
  split; intros Es Et; rewrite Es, Et; ring.
Qed.

(** C5. [ConditionalFlowMatcherWrapper.forward] draws the noise [x0] and one
    time per batch item, and calls the predictor on
    [w = (1 - (1 - sigma) t) x0 + t x1] with the target
    [flow = x1 - (1 - sigma) x0], entry by entry, for [x1] of shape
    (b, n, d); for [sigma = 0] the flow is [x1 - x0], and [w] is [x0] where
    [t = 0] and [x1] where [t = 1].  The first part states the two
    expressions for any noise and any times, the boundary [t = 1] included;
    the second part states that [forward] passes them, at the noise and the
    times it draws, to [VoiceBox.forward] as input and as target. *)
Theorem flow_matching_path (N : Numerics) (self : ConditionalFlowMatcherWrapper.t)
  (phoneme_ids : tensor Z) (cond : tensor Q) (mask : option (tensor bool))
  (w0 : world) (sigma : Q) (b n d : nat) (tl d0 d1 : list Q) :
  length tl = b -> length d0 = (b * (n * d))%nat -> length d1 = (b * (n * d))%nat ->
  (exists wd fd : list Q,
     ConditionalFlowMatcherWrapper.w sigma (mkTensor [b; 1; 1]%nat tl)
       (mkTensor [b; n; d] d0) (mkTensor [b; n; d] d1)
     = Ok (mkTensor [b; n; d] wd)
     /\ ConditionalFlowMatcherWrapper.flow sigma
          (mkTensor [b; n; d] d0) (mkTensor [b; n; d] d1)
        = Ok (mkTensor [b; n; d] fd)
     /\ forall i j, (i < b)%nat -> (j < n * d)%nat ->
        let k := (i * (n * d) + j)%nat in
        let t := nth i tl 0%Q in
        let x0 := nth k d0 0%Q in
        let x1 := nth k d1 0%Q in
        (nth k wd 0 == (1 - (1 - sigma) * t) * x0 + t * x1)%Q
        /\ (nth k fd 0 == x1 - (1 - sigma) * x0)%Q
        /\ ((sigma == 0)%Q -> (nth k fd 0 == x1 - x0)%Q)
        /\ ((sigma == 0)%Q -> (t == 0)%Q -> (nth k wd 0 == x0)%Q)
        /\ ((sigma == 0)%Q -> (t == 1)%Q -> (nth k wd 0 == x1)%Q))
  /\ (exists (x0 times wd fd : list Q) (w' : world),
        randn [b; n; d] w0
        = (Ok (mkTensor [b; n; d] x0), torch_advance (numel [b; n; d]) w0)
        /\ length times = b
        /\ (forall i, (i < b)%nat -> (0 <= nth i times 0 /\ nth i times 0 < 1)%Q)
        /\ ConditionalFlowMatcherWrapper.w (ConditionalFlowMatcherWrapper.sigma self)
             (mkTensor [b; 1; 1]%nat times) (mkTensor [b; n; d] x0) (mkTensor [b; n; d] d1)
           = Ok (mkTensor [b; n; d] wd)
        /\ ConditionalFlowMatcherWrapper.flow (ConditionalFlowMatcherWrapper.sigma self)
             (mkTensor [b; n; d] x0) (mkTensor [b; n; d] d1)
           = Ok (mkTensor [b; n; d] fd)
        /\ ConditionalFlowMatcherWrapper.forward self (mkTensor [b; n; d] d1)
             phoneme_ids cond mask w0
           = VoiceBox.forward (ConditionalFlowMatcherWrapper.voicebox self)
               (mkTensor [b; n; d] wd) phoneme_ids cond (mkTensor [b] times)
               (ConditionalFlowMatcherWrapper.cond_drop_prob self)
               (Some (mkTensor [b; n; d] fd)) mask w'
        /\ training w' = true
        /\ forall i j, (i < b)%nat -> (j < n * d)%nat ->
           let k := (i * (n * d) + j)%nat in
           let t := nth i times 0%Q in
           let sg := ConditionalFlowMatcherWrapper.sigma self in
           (nth k wd 0 == (1 - (1 - sg) * t) * nth k x0 0 + t * nth k d1 0)%Q
           /\ (nth k fd 0 == nth k d1 0 - (1 - sg) * nth k x0 0)%Q
           /\ ((sg == 0)%Q -> (nth k fd 0 == nth k d1 0 - nth k x0 0)%Q)
           /\ ((sg == 0)%Q -> (t == 0)%Q -> (nth k wd 0 == nth k x0 0)%Q)).
Proof.
  intros Ht H0 H1.
  split; [exact (w_flow_entries sigma b n d tl d0 d1 Ht H0 H1)|].
  set (x0 := map (fun k => torch_tape w0 (torch_pos w0 + k)%nat)
                 (seq 0 (numel [b; n; d]))).
  set (wa := torch_advance (numel [b; n; d]) w0).
  set (times := map (fun k => (0 + (1 - 0) * unit_frac (torch_tape wa (torch_pos wa + k)))%Q)
                    (seq 0 (numel [b]))).
  assert (Lx0 : length x0 = (b * (n * d))%nat)
    by (unfold x0; now rewrite length_map, length_seq, numel_3d).
  assert (Lt : length times = b)
    by (unfold times; now rewrite length_map, length_seq, numel_1d).
  destruct (w_flow_entries (ConditionalFlowMatcherWrapper.sigma self) b n d
              times x0 d1 Lt Lx0 H1) as (wd & fd & Ew & Ef & Hform).
  exists x0, times, wd, fd.
  eexists.
  split; [reflexivity|]. split; [exact Lt|].
  split.
  { intros i Hi. unfold times.
    rewrite (nth_map_in _ _ _ 0%nat) by (rewrite length_seq, numel_1d; exact Hi).
    apply unit_draw_range. }
  split; [exact Ew|]. split; [exact Ef|].
  split.
  { unfold ConditionalFlowMatcherWrapper.forward. cbn [shape].
    rewrite bind_lift_ok. cbv beta iota.
    unfold bind at 1. unfold randn at 1. fold x0. fold wa.
    unfold bind at 1. unfold uniform_ at 1.
    change (Qle_bool 0 1) with true. cbv iota. fold times. cbn [data].
    unfold bind at 1. unfold lift at 1. rewrite Ew.
    unfold bind at 1. unfold lift at 1. rewrite Ef.
    unfold bind at 1. unfold set_training at 1.
    reflexivity. }
  split; [reflexivity|].
  intros i j Hi Hj. cbv zeta.
  destruct (Hform i j Hi Hj) as (F1 & F2 & F3 & F4 & _). cbv zeta in F1, F2, F3, F4.
  split; [exact F1|]. split; [exact F2|]. split; [exact F3|exact F4].
Qed.

Lemma flow_matching_path_witness :
  length [(1 # 2)%Q] = 1%nat
  /\ length [1%Q; 2%Q] = (1 * (1 * 2))%nat
  /\ length [3%Q; 4%Q] = (1 * (1 * 2))%nat
  /\ (exists wd fd : list Q,
       ConditionalFlowMatcherWrapper.w 0 (mkTensor [1; 1; 1]%nat [(1 # 2)%Q])
         (mkTensor [1; 1; 2]%nat [1%Q; 2%Q]) (mkTensor [1; 1; 2]%nat [3%Q; 4%Q])
       = Ok (mkTensor [1; 1; 2]%nat wd)
       /\ ConditionalFlowMatcherWrapper.flow 0
            (mkTensor [1; 1; 2]%nat [1%Q; 2%Q]) (mkTensor [1; 1; 2]%nat [3%Q; 4%Q])
          = Ok (mkTensor [1; 1; 2]%nat fd)
       /\ forall i j, (i < 1)%nat -> (j < 1 * 2)%nat ->
          let k := (i * (1 * 2) + j)%nat in
          let t := nth i [(1 # 2)%Q] 0%Q in
          let x0 := nth k [1%Q; 2%Q] 0%Q in
          let x1 := nth k [3%Q; 4%Q] 0%Q in
          (nth k wd 0 == (1 - (1 - 0) * t) * x0 + t * x1)%Q
          /\ (nth k fd 0 == x1 - (1 - 0) * x0)%Q
          /\ ((0 == 0)%Q -> (nth k fd 0 == x1 - x0)%Q)
          /\ ((0 == 0)%Q -> (t == 0)%Q -> (nth k wd 0 == x0)%Q)
          /\ ((0 == 0)%Q -> (t == 1)%Q -> (nth k wd 0 == x1)%Q))
  /\ (exists (x0 times wd fd : list Q) (w' : world),
        randn [1; 1; 2]%nat (constant_world 0 (1 # 4))
        = (Ok (mkTensor [1; 1; 2]%nat x0),
           torch_advance (numel [1; 1; 2]%nat) (constant_world 0 (1 # 4)))
        /\ length times = 1%nat
        /\ (forall i, (i < 1)%nat -> (0 <= nth i times 0 /\ nth i times 0 < 1)%Q)
        /\ ConditionalFlowMatcherWrapper.w
             (ConditionalFlowMatcherWrapper.sigma
                (ConditionalFlowMatcherWrapper.init handmade_voicebox 0 (1 # 100000)
                   (1 # 100000) (1 # 16) false "midpoint" "Tsit5" 0))
             (mkTensor [1; 1; 1]%nat times) (mkTensor [1; 1; 2]%nat x0)
             (mkTensor [1; 1; 2]%nat [3%Q; 4%Q])
           = Ok (mkTensor [1; 1; 2]%nat wd)
        /\ ConditionalFlowMatcherWrapper.flow
             (ConditionalFlowMatcherWrapper.sigma
                (ConditionalFlowMatcherWrapper.init handmade_voicebox 0 (1 # 100000)
                   (1 # 100000) (1 # 16) false "midpoint" "Tsit5" 0))
             (mkTensor [1; 1; 2]%nat x0) (mkTensor [1; 1; 2]%nat [3%Q; 4%Q])
           = Ok (mkTensor [1; 1; 2]%nat fd)
        /\ ConditionalFlowMatcherWrapper.forward (N := wide_numerics)
             (ConditionalFlowMatcherWrapper.init handmade_voicebox 0 (1 # 100000)
                (1 # 100000) (1 # 16) false "midpoint" "Tsit5" 0)
             (mkTensor [1; 1; 2]%nat [3%Q; 4%Q])
             (mkTensor [1; 1]%nat [7]) (mkTensor [1; 1; 2]%nat [5%Q; 6%Q]) None
             (constant_world 0 (1 # 4))
           = VoiceBox.forward (N := wide_numerics)
               (ConditionalFlowMatcherWrapper.voicebox
                  (ConditionalFlowMatcherWrapper.init handmade_voicebox 0 (1 # 100000)
                     (1 # 100000) (1 # 16) false "midpoint" "Tsit5" 0))
               (mkTensor [1; 1; 2]%nat wd) (mkTensor [1; 1]%nat [7])
               (mkTensor [1; 1; 2]%nat [5%Q; 6%Q]) (mkTensor [1%nat] times)
               (ConditionalFlowMatcherWrapper.cond_drop_prob
                  (ConditionalFlowMatcherWrapper.init handmade_voicebox 0 (1 # 100000)
                     (1 # 100000) (1 # 16) false "midpoint" "Tsit5" 0))
               (Some (mkTensor [1; 1; 2]%nat fd)) None w'
        /\ training w' = true
        /\ forall i j, (i < 1)%nat -> (j < 1 * 2)%nat ->
           let k := (i * (1 * 2) + j)%nat in
           let t := nth i times 0%Q in
           let sg := ConditionalFlowMatcherWrapper.sigma
                       (ConditionalFlowMatcherWrapper.init handmade_voicebox 0 (1 # 100000)
                          (1 # 100000) (1 # 16) false "midpoint" "Tsit5" 0) in
           (nth k wd 0 == (1 - (1 - sg) * t) * nth k x0 0 + t * nth k [3%Q; 4%Q] 0)%Q
           /\ (nth k fd 0 == nth k [3%Q; 4%Q] 0 - (1 - sg) * nth k x0 0)%Q
           /\ ((sg == 0)%Q -> (nth k fd 0 == nth k [3%Q; 4%Q] 0 - nth k x0 0)%Q)
           /\ ((sg == 0)%Q -> (t == 0)%Q -> (nth k wd 0 == nth k x0 0)%Q)).
Proof.
  split; [reflexivity|]. split; [reflexivity|]. split; [reflexivity|].
  exact (flow_matching_path wide_numerics
           (ConditionalFlowMatcherWrapper.init handmade_voicebox 0 (1 # 100000)
              (1 # 100000) (1 # 16) false "midpoint" "Tsit5" 0)
           (mkTensor [1; 1]%nat [7]) (mkTensor [1; 1; 2]%nat [5%Q; 6%Q]) None
           (constant_world 0 (1 # 4))
           0 1 1 2 [(1 # 2)%Q] [1%Q; 2%Q] [3%Q; 4%Q]
           eq_refl eq_refl eq_refl).
Defined.

(** * Further properties of the code *)

(** ** Masks *)

Lemma concat_rows_length {A B} (n : Z) (g : A -> Z) (h : B -> Z)
  (l1 : list A) (l2 : list B) :
  length l1 = length l2 ->
  length (concat (zip_with (fun s e => row_mask n (g s) (h e)) l1 l2))
  = (length l1 * Z.to_nat n)%nat.
Proof.
  revert l2; induction l1 as [|s l1 IH]; intros [|e l2] Hl; simpl in *;
    try discriminate; [reflexivity|].
  rewrite length_app, row_mask_length, IH by lia. reflexivity.
Qed.

(** X1. For one-dimensional [start] and [end] of equal length and a positive
    [seq_len], the mask has one row per index pair and is True at position
    [p] of row [i] exactly when [start_i <= p < end_i] (after [.long()]). *)
Theorem mask_from_start_end_indices_half_open {A} `{Long A}
  (seq_len : Z) (st en : list A) (dflt : A) :
  0 < seq_len -> length st = length en ->
  exists mask,
    mask_from_start_end_indices seq_len
      (mkTensor [length st] st) (mkTensor [length st] en)
    = Ok (mkTensor [length st; Z.to_nat seq_len] mask)
    /\ length mask = (length st * Z.to_nat seq_len)%nat
    /\ forall i p, (i < length st)%nat -> (p < Z.to_nat seq_len)%nat ->
         nth (i * Z.to_nat seq_len + p) mask false = true
         <-> long (nth i st dflt) <= Z.of_nat p < long (nth i en dflt).
Proof.
  intros Hn Hl. eexists. split; [apply mask_from_start_end_indices_1d; assumption|].
  split; [apply concat_rows_length; exact Hl|].
  intros i p Hi Hp.
  rewrite (nth_concat_const _ (Z.to_nat seq_len)) by (try apply rows_length; exact Hp).
  rewrite (nth_zip_with _ _ _ _ dflt dflt) by lia.
  rewrite nth_row_mask by exact Hp.
  rewrite Bool.andb_true_iff, Z.geb_le, Z.ltb_lt. reflexivity.
Qed.

Lemma mask_from_start_end_indices_half_open_witness :
  0 < 4 /\ length [1; 0] = length [3; 4]
  /\ exists mask,
       mask_from_start_end_indices 4 (mkTensor [length [1; 0]] [1; 0])
         (mkTensor [length [1; 0]] [3; 4])
       = Ok (mkTensor [length [1; 0]; Z.to_nat 4] mask)
       /\ length mask = (length [1; 0] * Z.to_nat 4)%nat
       /\ forall i p, (i < length [1; 0])%nat -> (p < Z.to_nat 4)%nat ->
            nth (i * Z.to_nat 4 + p) mask false = true
            <-> long (nth i [1; 0] 0) <= Z.of_nat p < long (nth i [3; 4] 0).
Proof.
  split; [lia|]. split; [reflexivity|].
  apply (mask_from_start_end_indices_half_open 4 [1; 0] [3; 4] 0); [lia|reflexivity].
Defined.

Lemma mask_from_start_end_indices_ndim_ge_2_witness :
  0 <= 5 /\ shape (mkTensor [2; 1]%nat [0; 1]) = shape (mkTensor [2; 1]%nat [2; 3])
  /\ (2 <= ndim (mkTensor [2; 1]%nat [0; 1]))%nat
  /\ mask_from_start_end_indices 5 (mkTensor [2; 1]%nat [0; 1]) (mkTensor [2; 1]%nat [2; 3])
     = Raise (RuntimeError "only one dimension can be inferred").
Proof.
  split; [lia|]. split; [reflexivity|]. split; [unfold ndim; simpl; lia|].
  apply mask_from_start_end_indices_ndim_ge_2;
    [lia|reflexivity|unfold ndim; simpl; lia].
Defined.

Lemma infer_size_flat (n : Z) :
  0 <= n -> infer_size [n] (Z.to_nat n) = Ok [Z.to_nat n].
Proof.
  intros Hn. unfold infer_size. simpl.
  assert (H1 : (n <? -1) = false) by lia.
  assert (H2 : (n =? -1) = false) by lia.
  rewrite H1, H2. simpl. rewrite Nat.mul_1_r, Nat.eqb_refl. reflexivity.
Qed.

Lemma broadcast_flat_one (n : nat) : broadcast_shapes [n] [1%nat] = Ok [n].
Proof.
  unfold broadcast_shapes, pad_left. simpl.
  destruct (n =? 1)%nat eqn:E; [apply Nat.eqb_eq in E; subst|]; reflexivity.
Qed.

Lemma expand_one {A} (x : A) (n : nat) :
  expand (mkTensor [1%nat] [x]) [n] = Ok (mkTensor [n] (repeat x n)).
Proof.
  unfold expand, pad_left. simpl shape. simpl length. simpl app. simpl data.
  assert (E : expandable [1%nat] [n] = true) by (simpl; now rewrite Bool.orb_true_r).
  rewrite E. simpl andb. cbv iota. now rewrite expand_aligned_one.
Qed.

Lemma bc_binop_flat_one {B C} (f : Z -> B -> C) (n : Z) (x : B) :
  bc_binop f (mkTensor [Z.to_nat n] (range n)) (mkTensor [1%nat] [x])
  = Ok (mkTensor [Z.to_nat n] (map (fun p => f p x) (range n))).
Proof.
  unfold bc_binop. simpl shape. rewrite broadcast_flat_one. simpl rbind.
  rewrite expand_same by (rewrite range_length; simpl; lia). simpl rbind.
  rewrite expand_one. simpl rbind. simpl data.
  rewrite <- (range_length n) at 2. now rewrite zip_with_repeat_r.
Qed.

(** X2. For zero-dimensional [start] and [end] the mask is one row of
    [seq_len] positions, True on the half-open range; an empty sequence
    ([seq_len = 0]) gives the empty row. *)
Theorem mask_from_start_end_indices_scalar {A} `{Long A} (seq_len : Z) (s e : A) :
  0 <= seq_len ->
  exists mask,
    mask_from_start_end_indices seq_len (scalar s) (scalar e)
    = Ok (mkTensor [Z.to_nat seq_len] mask)
    /\ length mask = Z.to_nat seq_len
    /\ forall p, (p < Z.to_nat seq_len)%nat ->
         nth p mask false = true <-> long s <= Z.of_nat p < long e.
Proof.
  intros Hn. exists (row_mask seq_len (long s) (long e)).
  split; [|split; [apply row_mask_length|]].
  - unfold mask_from_start_end_indices, ndim, scalar. simpl shape.
    unfold shape_eqb. destruct (list_eq_dec Nat.eq_dec [] []) as [_|N]; [|congruence].
    simpl rbind. unfold arange.
    destruct (seq_len <? 0) eqn:E; [lia|]. simpl rbind.
    unfold reshape. simpl data. fold (range seq_len).
    rewrite range_length. simpl app. rewrite infer_size_flat by exact Hn.
    simpl rbind.
    rewrite expand_same by (rewrite range_length; simpl; lia). simpl rbind.
    unfold unsqueeze_last, tmap. simpl shape. simpl data. simpl app. simpl map.
    rewrite !bc_binop_flat_one. simpl rbind.
    rewrite bc_binop_same_shape
      by (rewrite length_map, range_length; simpl; lia).
    unfold row_mask. now rewrite zip_with_map_same.
  - intros p Hp. rewrite nth_row_mask by exact Hp.
    rewrite Bool.andb_true_iff, Z.geb_le, Z.ltb_lt. reflexivity.
Qed.

Lemma mask_from_start_end_indices_scalar_witness :
  0 <= 4
  /\ exists mask,
       mask_from_start_end_indices 4 (scalar (3 # 2)%Q) (scalar (7 # 2)%Q)
       = Ok (mkTensor [Z.to_nat 4] mask)
       /\ length mask = Z.to_nat 4
       /\ forall p, (p < Z.to_nat 4)%nat ->
            nth p mask false = true
            <-> long (3 # 2)%Q <= Z.of_nat p < long (7 # 2)%Q.
Proof.
  assert (H : 0 <= 4) by lia.
  split; [exact H|].
  exact (mask_from_start_end_indices_scalar 4 (3 # 2)%Q (7 # 2)%Q H).
Defined.

Lemma map_constant {A B} (f : A -> B) (c : B) (l : list A) :
  (forall a, f a = c) -> map f l = repeat c (length l).
Proof.
  intros Hf. induction l as [|a l IH]; simpl; [reflexivity|]. now rewrite Hf, IH.
Qed.

(** X3. [prob_mask_like] never fails and returns a mask of the requested shape.
    A probability of 1 or more gives the all-True mask and a probability of
    0 or less the all-False mask; for exactly 1 and exactly 0 no random
    number is drawn. *)
Theorem prob_mask_like_saturates (s : list nat) (p_hi p_lo p : Q) (w : world) :
  (1 <= p_hi)%Q -> (p_lo <= 0)%Q ->
  fst (prob_mask_like s p_hi w) = Ok (mkTensor s (repeat true (numel s)))
  /\ fst (prob_mask_like s p_lo w) = Ok (mkTensor s (repeat false (numel s)))
  /\ (exists m, fst (prob_mask_like s p w) = Ok m
                /\ shape m = s /\ length (data m) = numel s)
  /\ snd (prob_mask_like s 1 w) = w
  /\ snd (prob_mask_like s 0 w) = w.
Proof.
  intros Hhi Hlo.
  assert (Hu : uniform_ s 0 1 w
               = (Ok (mkTensor s (map (fun k => (0 + (1 - 0) * unit_frac (torch_tape w (torch_pos w + k)))%Q)
                                      (seq 0 (numel s)))),
                  torch_advance (numel s) w)) by reflexivity.
  split; [|split; [|split; [|split; reflexivity]]].
  - unfold prob_mask_like.
    destruct (Qeq_bool p_hi 1) eqn:E1; [reflexivity|].
    destruct (Qeq_bool p_hi 0) eqn:E0.
    + apply Qeq_bool_iff in E0. rewrite E0 in Hhi. revert Hhi. unfold Qle. simpl. lia.
    + unfold bind. rewrite Hu. unfold ret, tmap. simpl.
      rewrite map_map. rewrite (map_constant _ true), length_seq; [reflexivity|].
      intros k. destruct (unit_draw_range (torch_tape w (torch_pos w + k)%nat)) as [_ H1].
      destruct (Qle_bool p_hi _) eqn:E; [|reflexivity].
      apply Qle_bool_iff in E. exfalso.
      apply (Qlt_irrefl 1). eapply Qle_lt_trans; [exact Hhi|].
      eapply Qle_lt_trans; [exact E|exact H1].
  - unfold prob_mask_like.
    destruct (Qeq_bool p_lo 1) eqn:E1.
    + apply Qeq_bool_iff in E1. rewrite E1 in Hlo. revert Hlo. unfold Qle. simpl. lia.
    + destruct (Qeq_bool p_lo 0) eqn:E0; [reflexivity|].
      unfold bind. rewrite Hu. unfold ret, tmap. simpl.
      rewrite map_map. rewrite (map_constant _ false), length_seq; [reflexivity|].
      intros k. destruct (unit_draw_range (torch_tape w (torch_pos w + k)%nat)) as [H0 _].
      destruct (Qle_bool p_lo _) eqn:E; [reflexivity|].
      exfalso. apply not_true_iff_false in E. apply E. apply Qle_bool_iff.
      eapply Qle_trans; [exact Hlo|exact H0].
  - unfold prob_mask_like.
    destruct (Qeq_bool p 1); [|destruct (Qeq_bool p 0)].
    + eexists. split; [reflexivity|]. simpl. now rewrite repeat_length.
    + eexists. split; [reflexivity|]. simpl. now rewrite repeat_length.
    + unfold bind. rewrite Hu. unfold ret, tmap. simpl.
      eexists. split; [reflexivity|]. simpl. now rewrite !length_map, length_seq.
Qed.

Lemma prob_mask_like_saturates_witness :
  (1 <= 3 # 2)%Q /\ (- (1 # 2) <= 0)%Q
  /\ fst (prob_mask_like [2; 2]%nat (3 # 2) (constant_world 0 (1 # 3)))
     = Ok (mkTensor [2; 2]%nat (repeat true (numel [2; 2]%nat)))
  /\ fst (prob_mask_like [2; 2]%nat (- (1 # 2)) (constant_world 0 (1 # 3)))
     = Ok (mkTensor [2; 2]%nat (repeat false (numel [2; 2]%nat)))
  /\ (exists m, fst (prob_mask_like [2; 2]%nat (1 # 5) (constant_world 0 (1 # 3))) = Ok m
                /\ shape m = [2; 2]%nat /\ length (data m) = numel [2; 2]%nat)
  /\ snd (prob_mask_like [2; 2]%nat 1 (constant_world 0 (1 # 3))) = constant_world 0 (1 # 3)
  /\ snd (prob_mask_like [2; 2]%nat 0 (constant_world 0 (1 # 3))) = constant_world 0 (1 # 3).
Proof.
  assert (H1 : (1 <= 3 # 2)%Q) by (unfold Qle; simpl; lia).
  assert (H2 : (- (1 # 2) <= 0)%Q) by (unfold Qle; simpl; lia).
  split; [exact H1|]. split; [exact H2|].
  exact (prob_mask_like_saturates [2; 2]%nat (3 # 2) (- (1 # 2)) (1 # 5)
           (constant_world 0 (1 # 3)) H1 H2).
Defined.

Lemma prob_mask_like_ok (s : list nat) (p : Q) (w : world) :
  exists m w', prob_mask_like s p w = (Ok m, w')
               /\ shape m = s /\ length (data m) = numel s
               /\ py_pos w' = py_pos w.
Proof.
  unfold prob_mask_like.
  destruct (Qeq_bool p 1); [|destruct (Qeq_bool p 0)].
  - eexists. eexists. split; [reflexivity|]. simpl. now rewrite repeat_length.
  - eexists. eexists. split; [reflexivity|]. simpl. now rewrite repeat_length.
  - unfold bind, uniform_. change (Qle_bool 0 1) with true. cbv iota.
    unfold ret, tmap. simpl.
    eexists. eexists. split; [reflexivity|]. simpl.
    now rewrite !length_map, length_seq.
Qed.

Lemma mask_from_frac_lengths_shape (seq_len : Z) (fr : list Q) (w : world) :
  1 <= seq_len ->
  exists mask,
    mask_from_frac_lengths seq_len (mkTensor [length fr] fr) w
    = (Ok (mkTensor [length fr; Z.to_nat seq_len] mask), torch_advance (length fr) w)
    /\ length mask = (length fr * Z.to_nat seq_len)%nat.
Proof.
  intros Hn. rewrite mask_from_frac_lengths_1d by exact Hn.
  eexists. split; [reflexivity|].
  set (rand := map _ (seq 0 (length fr))).
  set (lens := map long (map (fun f => float32 (f * float32 (inject_Z seq_len))) fr)).
  assert (Lrand : length rand = length fr)
    by (unfold rand; now rewrite length_map, length_seq).
  assert (Llens : length lens = length fr)
    by (unfold lens; now rewrite !length_map).
  rewrite concat_rows_length.
  - rewrite length_map, zip_with_length; rewrite length_map; congruence.
  - rewrite zip_with_length; rewrite !length_map, zip_with_length;
      rewrite ?length_map; congruence.
Qed.

Lemma mask_from_frac_lengths_empty (fr : list Q) (w : world) :
  fst (mask_from_frac_lengths 0 (mkTensor [length fr] fr) w)
  = Raise (RuntimeError "unspecified dimension size -1 is ambiguous").
Proof.
  unfold mask_from_frac_lengths, bind, uniform_, lift, tmap. simpl shape. simpl data.
  change (Qle_bool 0 1) with true. cbv iota.
  rewrite numel_1d.
  rewrite bc_binop_same_shape
    by (rewrite ?length_map, ?length_seq, ?numel_1d; reflexivity).
  simpl shape. simpl data.
  rewrite bc_binop_same_shape
    by (rewrite ?numel_1d, ?length_map, ?zip_with_length;
        rewrite ?length_map, ?length_seq; reflexivity).
  unfold mask_from_start_end_indices, ndim. simpl shape.
  unfold shape_eqb.
  destruct (list_eq_dec Nat.eq_dec [length fr] [length fr]) as [_|N]; [|congruence].
  reflexivity.
Qed.

Lemma uniform_ok (s : list nat) (lo hi : Q) (w : world) :
  (lo <= hi)%Q ->
  exists d, uniform_ s lo hi w = (Ok (mkTensor s d), torch_advance (numel s) w)
            /\ length d = numel s.
Proof.
  intros H. unfold uniform_.
  apply Qle_bool_iff in H. rewrite H.
  eexists. split; [reflexivity|]. now rewrite length_map, length_seq.
Qed.

Lemma construct_mask_none_ok (batch seq_len : nat) (flm : Q * Q) (p : Q) (w : world) :
  (1 <= seq_len)%nat -> (fst flm <= snd flm)%Q ->
  exists m w',
    construct_mask batch seq_len flm p None w = (Ok (Some m), w')
    /\ shape m = [batch; seq_len]
    /\ length (data m) = (batch * seq_len)%nat
    /\ py_pos w' = S (py_pos w).
Proof.
  intros Hn Hflm.
  unfold construct_mask.
  change (negb (exists_ (@None (tensor bool)))) with true. cbv iota beta.
  unfold bind at 1. unfold coin_flip, bind at 1, py_random, ret.
  set (w1 := mkWorld _ (S (py_pos w)) _ _ _ _).
  destruct (negb _).
  - unfold bind at 1.
    destruct (uniform_ok [batch] (fst flm) (snd flm) w1 Hflm) as (d & -> & Hd).
    rewrite numel_1d in Hd. subst batch.
    unfold bind at 1.
    destruct (mask_from_frac_lengths_shape (Z.of_nat seq_len) d
                (torch_advance (numel [length d]) w1)) as (mask & -> & Hm); [lia|].
    unfold ret. eexists. eexists. split; [reflexivity|]. simpl.
    rewrite Nat2Z.id in *. repeat split; assumption.
  - unfold bind at 1.
    destruct (prob_mask_like_ok [batch; seq_len] p w1) as (m & w' & -> & Hs & Hl & Hp).
    unfold ret. eexists. eexists. split; [reflexivity|].
    rewrite Hs, Hl, Hp. simpl. repeat split. lia.
Qed.

(** X4. A mask given by the caller is kept as it is and no random number is
    drawn.  Without one, for a sequence of at least one position and a
    range of fractions with [lo <= hi], [construct_mask] returns a mask of
    shape (batch, seq_len) after exactly one draw of Python's generator. *)
Theorem construct_mask_shape (batch seq_len : nat) (flm : Q * Q) (p : Q)
  (given : tensor bool) (w : world) :
  (1 <= seq_len)%nat -> (fst flm <= snd flm)%Q ->
  construct_mask batch seq_len flm p (Some given) w = (Ok (Some given), w)
  /\ exists m w',
       construct_mask batch seq_len flm p None w = (Ok (Some m), w')
       /\ shape m = [batch; seq_len]
       /\ length (data m) = (batch * seq_len)%nat
       /\ py_pos w' = S (py_pos w).
Proof.
  intros Hn Hflm. split; [reflexivity|].
  apply construct_mask_none_ok; assumption.
Qed.

Lemma construct_mask_shape_witness :
  (1 <= 3)%nat /\ (fst ((7 # 10)%Q, 1%Q) <= snd ((7 # 10)%Q, 1%Q))%Q
  /\ construct_mask 2 3 ((7 # 10)%Q, 1%Q) (3 # 10)
       (Some (mkTensor [2; 3]%nat [true; false; true; false; true; false]))
       (constant_world (1 # 4) (1 # 3))
     = (Ok (Some (mkTensor [2; 3]%nat [true; false; true; false; true; false])),
        constant_world (1 # 4) (1 # 3))
  /\ exists m w',
       construct_mask 2 3 ((7 # 10)%Q, 1%Q) (3 # 10) None (constant_world (1 # 4) (1 # 3))
       = (Ok (Some m), w')
       /\ shape m = [2; 3]%nat
       /\ length (data m) = (2 * 3)%nat
       /\ py_pos w' = S (py_pos (constant_world (1 # 4) (1 # 3))).
Proof.
  assert (H1 : (1 <= 3)%nat) by lia.
  assert (H2 : (fst ((7 # 10)%Q, 1%Q) <= snd ((7 # 10)%Q, 1%Q))%Q)
    by (unfold Qle; simpl; lia).
  split; [exact H1|]. split; [exact H2|].
  exact (construct_mask_shape 2 3 ((7 # 10)%Q, 1%Q) (3 # 10)
           (mkTensor [2; 3]%nat [true; false; true; false; true; false])
           (constant_world (1 # 4) (1 # 3)) H1 H2).
Defined.

(** X5. On an empty sequence ([seq_len = 0]) and without a given mask, the
    construction fails when the coin flip selects the span mask (the
    positions are reshaped with an inferred size on an empty tensor) and
    succeeds when it selects the per-position mask. *)
Theorem construct_mask_empty_sequence (batch : nat) (flm : Q * Q) (p : Q)
  (w_heads w_tails : world) :
  (fst flm <= snd flm)%Q ->
  (unit_frac (py_tape w_heads (py_pos w_heads)) < 1 # 2)%Q ->
  (1 # 2 <= unit_frac (py_tape w_tails (py_pos w_tails)))%Q ->
  fst (construct_mask batch 0 flm p None w_heads)
  = Raise (RuntimeError "unspecified dimension size -1 is ambiguous")
  /\ exists m, fst (construct_mask batch 0 flm p None w_tails) = Ok (Some m)
               /\ shape m = [batch; 0%nat].
Proof.
  intros Hflm Hh Ht. split.
  - unfold construct_mask.
  change (negb (exists_ (@None (tensor bool)))) with true. cbv iota beta.
    unfold bind at 1. unfold coin_flip, bind at 1, py_random, ret.
    set (w1 := mkWorld _ (S (py_pos w_heads)) _ _ _ _).
    destruct (Qle_bool (1 # 2) (unit_frac (py_tape w_heads (py_pos w_heads)))) eqn:E.
    + apply Qle_bool_iff in E. exfalso.
      apply (Qlt_irrefl (1 # 2)). eapply Qle_lt_trans; [exact E|exact Hh].
    + change (negb false) with true. cbv iota beta.
      destruct (uniform_ok [batch] (fst flm) (snd flm) w1 Hflm) as (d & Hu & Hd).
      unfold bind at 1. rewrite Hu. rewrite numel_1d in Hd. subst batch.
      unfold bind at 1.
      pose proof (mask_from_frac_lengths_empty d (torch_advance (numel [length d]) w1)) as He.
      change (Z.of_nat 0) with 0.
      destruct (mask_from_frac_lengths 0 _ _) as [[m|e] w2]; simpl in He;
        [discriminate|]. simpl. now inversion He.
  - unfold construct_mask.
  change (negb (exists_ (@None (tensor bool)))) with true. cbv iota beta.
    unfold bind at 1. unfold coin_flip, bind at 1, py_random, ret.
    set (w1 := mkWorld _ (S (py_pos w_tails)) _ _ _ _).
    apply Qle_bool_iff in Ht. rewrite Ht.
    change (negb true) with false. cbv iota beta.
    unfold bind at 1.
    destruct (prob_mask_like_ok [batch; 0%nat] p w1) as (m & w' & -> & Hs & _).
    unfold ret. simpl. eexists. split; [reflexivity|exact Hs].
Qed.

Lemma construct_mask_empty_sequence_witness :
  (fst ((7 # 10)%Q, 1%Q) <= snd ((7 # 10)%Q, 1%Q))%Q
  /\ (unit_frac (py_tape (constant_world (1 # 4) 0) (py_pos (constant_world (1 # 4) 0)))
      < 1 # 2)%Q
  /\ (1 # 2 <= unit_frac (py_tape (constant_world (3 # 4) 0)
                                  (py_pos (constant_world (3 # 4) 0))))%Q
  /\ fst (construct_mask 2 0 ((7 # 10)%Q, 1%Q) (3 # 10) None (constant_world (1 # 4) 0))
     = Raise (RuntimeError "unspecified dimension size -1 is ambiguous")
  /\ exists m, fst (construct_mask 2 0 ((7 # 10)%Q, 1%Q) (3 # 10) None
                      (constant_world (3 # 4) 0)) = Ok (Some m)
               /\ shape m = [2%nat; 0%nat].
Proof.
  assert (H1 : (fst ((7 # 10)%Q, 1%Q) <= snd ((7 # 10)%Q, 1%Q))%Q)
    by (unfold Qle; simpl; lia).
  assert (H2 : (unit_frac (py_tape (constant_world (1 # 4) 0)
                                   (py_pos (constant_world (1 # 4) 0))) < 1 # 2)%Q)
    by (vm_compute; reflexivity).
  assert (H3 : (1 # 2 <= unit_frac (py_tape (constant_world (3 # 4) 0)
                                            (py_pos (constant_world (3 # 4) 0))))%Q)
    by (vm_compute; discriminate).
  split; [exact H1|]. split; [exact H2|]. split; [exact H3|].
  exact (construct_mask_empty_sequence 2 ((7 # 10)%Q, 1%Q) (3 # 10)
           (constant_world (1 # 4) 0) (constant_world (3 # 4) 0) H1 H2 H3).
Defined.

(** ** Packing and unpacking *)

Lemma infer_size_b_star (b m n : nat) :
  n = (b * m)%nat ->
  infer_size [Z.of_nat b; (-1)%Z] n
  = if (b =? 0)%nat
    then Raise (RuntimeError "unspecified dimension size -1 is ambiguous")
    else Ok [b; m].
Proof.
  intros ->. unfold infer_size.
  assert (E1 : (Z.of_nat b <? -1) = false) by (apply Z.ltb_ge; lia).
  assert (E2 : (Z.of_nat b =? -1) = false) by (apply Z.eqb_neq; lia).
  cbn [existsb filter]. rewrite E1, E2.
  change (-1 <? -1) with false. change (-1 =? -1) with true.
  cbn [orb negb filter length map numel fold_right existsb andb].
  change (1 <? 1)%nat with false. cbv iota.
  rewrite E2, !Nat2Z.id, Nat.mul_1_r.
  change (-1 =? -1) with true. cbv iota.
  destruct b as [|b].
  - reflexivity.
  - assert (N : (S b * m =? S b)%nat || ((0 <? S b)%nat && (S b * m mod S b =? 0)%nat)
                = true).
    { apply Bool.orb_true_iff. right. apply Bool.andb_true_iff. split.
      - apply Nat.ltb_lt. lia.
      - apply Nat.eqb_eq. rewrite Nat.mul_comm. apply Nat.Div0.mod_mul. }
    rewrite N. cbn [Nat.eqb].
    rewrite (Nat.mul_comm (S b) m), Nat.div_mul by lia. reflexivity.
Qed.

Lemma infer_size_b_star_d (b m d n : nat) :
  n = (b * (m * d))%nat ->
  infer_size [Z.of_nat b; (-1)%Z; Z.of_nat d] n
  = if (b * d =? 0)%nat
    then Raise (RuntimeError "unspecified dimension size -1 is ambiguous")
    else Ok [b; m; d].
Proof.
  intros ->. unfold infer_size.
  assert (E1 : (Z.of_nat b <? -1) = false) by (apply Z.ltb_ge; lia).
  assert (E2 : (Z.of_nat b =? -1) = false) by (apply Z.eqb_neq; lia).
  assert (E3 : (Z.of_nat d <? -1) = false) by (apply Z.ltb_ge; lia).
  assert (E4 : (Z.of_nat d =? -1) = false) by (apply Z.eqb_neq; lia).
  cbn [existsb filter]. rewrite E1, E2, E3, E4.
  change (-1 <? -1) with false. change (-1 =? -1) with true.
  cbn [orb negb filter length map numel fold_right existsb andb].
  change (1 <? 1)%nat with false. cbv iota.
  rewrite E2, E4, !Nat2Z.id, Nat.mul_1_r.
  change (-1 =? -1) with true. cbv iota.
  destruct (b * d =? 0)%nat eqn:Z0.
  - apply Nat.eqb_eq in Z0.
    assert (Zn : (b * (m * d) = 0)%nat) by nia.
    rewrite Zn, Z0. reflexivity.
  - apply Nat.eqb_neq in Z0.
    assert (N : (b * (m * d) =? b * d)%nat
                || ((0 <? b * d)%nat && (b * (m * d) mod (b * d) =? 0)%nat) = true).
    { apply Bool.orb_true_iff. right. apply Bool.andb_true_iff. split.
      - apply Nat.ltb_lt. lia.
      - apply Nat.eqb_eq. replace (b * (m * d))%nat with (m * (b * d))%nat by nia.
        apply Nat.Div0.mod_mul. }
    rewrite N.
    replace (b * (m * d))%nat with (m * (b * d))%nat by nia.
    rewrite Nat.div_mul by exact Z0. reflexivity.
Qed.

(** X6. For a batch that is not empty, [pack_one] flattens everything but
    the batch axis and [unpack_one] restores the tensor;
    [rearrange(t, 'b ... -> b (...)')] builds the same flat tensor;
    [unpack_one] with a packed shape of another size raises; a
    zero-dimensional tensor cannot be packed, and neither can a tensor with
    an empty batch, whose [reshape(t, (0, -1))] is ambiguous. *)
Theorem pack_one_round_trip {A} (b : nat) (rest : list nat) (d d' : list A) (a : A) :
  (1 <= b)%nat ->
  pack_one (mkTensor (b :: rest) d) = Ok (mkTensor [b; numel rest] d, [rest])
  /\ unpack_one (mkTensor [b; numel rest] d) [rest] = Ok (mkTensor (b :: rest) d)
  /\ flatten_but_batch (mkTensor (b :: rest) d) = Ok (mkTensor [b; numel rest] d)
  /\ (forall other, numel other <> numel rest ->
        unpack_one (mkTensor [b; numel rest] d) [other]
        = Raise (RuntimeError "unpack: could not split axis into requested shapes"))
  /\ pack_one (scalar a)
     = Raise (EinopsError "pack: too few dimensions for pattern b *")
  /\ pack_one (mkTensor (0%nat :: rest) d')
     = Raise (RuntimeError "unspecified dimension size -1 is ambiguous").
Proof.
  intros Hb.
  split; [|split; [|split; [reflexivity|split; [|split; [reflexivity|]]]]].
  - unfold pack_one. cbn [shape data].
    rewrite (infer_size_b_star b (numel rest)) by reflexivity.
    destruct b; [lia|]. reflexivity.
  - unfold unpack_one. simpl. now rewrite Nat.eqb_refl.
  - intros other Ho. unfold unpack_one. simpl.
    destruct (numel rest =? numel other)%nat eqn:E; [|reflexivity].
    apply Nat.eqb_eq in E. congruence.
  - unfold pack_one. cbn [shape data].
    change (Z.of_nat 0) with (Z.of_nat 0%nat).
    rewrite (infer_size_b_star 0 (numel rest)) by reflexivity. reflexivity.
Qed.

Lemma pack_one_round_trip_witness :
  (1 <= 2)%nat
  /\ pack_one (mkTensor [2; 1; 2]%nat [1; 2; 3; 4])
     = Ok (mkTensor [2%nat; numel [1; 2]%nat] [1; 2; 3; 4], [[1; 2]%nat])
  /\ unpack_one (mkTensor [2%nat; numel [1; 2]%nat] [1; 2; 3; 4]) [[1; 2]%nat]
     = Ok (mkTensor [2; 1; 2]%nat [1; 2; 3; 4])
  /\ flatten_but_batch (mkTensor [2; 1; 2]%nat [1; 2; 3; 4])
     = Ok (mkTensor [2%nat; numel [1; 2]%nat] [1; 2; 3; 4])
  /\ (forall other, numel other <> numel [1; 2]%nat ->
        unpack_one (mkTensor [2%nat; numel [1; 2]%nat] [1; 2; 3; 4]) [other]
        = Raise (RuntimeError "unpack: could not split axis into requested shapes"))
  /\ pack_one (scalar 5)
     = Raise (EinopsError "pack: too few dimensions for pattern b *")
  /\ pack_one (mkTensor [0; 1; 2]%nat (@nil Z))
     = Raise (RuntimeError "unspecified dimension size -1 is ambiguous").
Proof.
  assert (H : (1 <= 2)%nat) by lia.
  split; [exact H|].
  exact (@pack_one_round_trip Z 2 [1; 2]%nat [1; 2; 3; 4] [] 5 H).
Defined.

Lemma firstn_app_exact {A} (l1 l2 : list A) (n : nat) :
  length l1 = n -> firstn n (l1 ++ l2) = l1.
Proof.
  intros <-. rewrite firstn_app, Nat.sub_diag, firstn_all. simpl. apply app_nil_r.
Qed.

Lemma skipn_app_exact {A} (l1 l2 : list A) (n : nat) :
  length l1 = n -> skipn n (l1 ++ l2) = l2.
Proof.
  intros <-. rewrite skipn_app, Nat.sub_diag, skipn_all. reflexivity.
Qed.

(** Two operands interleaved block by block and cut into rows again. *)
Lemma interleave_two_rows {A} (b m1 m2 : nat) (l1 l2 : list A) :
  length l1 = (b * m1)%nat -> length l2 = (b * m2)%nat ->
  let rows := chunks (m1 + m2) b (interleave b [(m1, l1); (m2, l2)]) in
  flat_map (fun row => firstn m1 row) rows = l1
  /\ flat_map (fun row => firstn m2 (skipn m1 row)) rows = l2
  /\ length (interleave b [(m1, l1); (m2, l2)]) = (b * (m1 + m2))%nat.
Proof.
  revert l1 l2; induction b as [|b IH]; intros l1 l2 H1 H2; cbv zeta.
  - destruct l1, l2; try discriminate. simpl. repeat split.
  - cbn [interleave flat_map map fst snd chunks]. rewrite app_nil_r.
    assert (F1 : length (firstn m1 l1) = m1) by (rewrite length_firstn; lia).
    assert (F2 : length (firstn m2 l2) = m2) by (rewrite length_firstn; lia).
    assert (F : length (firstn m1 l1 ++ firstn m2 l2) = (m1 + m2)%nat)
      by (rewrite length_app; lia).
    rewrite firstn_app_exact, skipn_app_exact by exact F.
    destruct (IH (skipn m1 l1) (skipn m2 l2)) as (E1 & E2 & E3);
      try (rewrite length_skipn; lia).
    cbv zeta in E1, E2. rewrite E1, E2.
    rewrite firstn_app_exact by exact F1.
    rewrite skipn_app_exact by exact F1.
    rewrite (firstn_all2 (n := m2) (firstn m2 l2)) by lia.
    rewrite !firstn_skipn. repeat split.
    rewrite length_app, F, E3. lia.
Qed.

Lemma view_b_star_d_2d {A} (t : tensor A) (b d : nat) :
  shape t = [b; d] ->
  view_b_star_d t
  = if (b * d =? 0)%nat
    then Raise (RuntimeError "unspecified dimension size -1 is ambiguous")
    else Ok (mkTensor [b; 1%nat; d] (data t)).
Proof.
  intros H. unfold view_b_star_d, last_dim. rewrite H. cbn [rev app rbind].
  rewrite (infer_size_b_star_d b 1 d) by (unfold numel; simpl; lia).
  destruct (b * d =? 0)%nat; reflexivity.
Qed.

Lemma view_b_star_d_3d {A} (t : tensor A) (b n d : nat) :
  shape t = [b; n; d] ->
  view_b_star_d t
  = if (b * d =? 0)%nat
    then Raise (RuntimeError "unspecified dimension size -1 is ambiguous")
    else Ok (mkTensor [b; n; d] (data t)).
Proof.
  intros H. unfold view_b_star_d, last_dim. rewrite H. cbn [rev app rbind].
  rewrite (infer_size_b_star_d b n d) by (unfold numel; simpl; lia).
  destruct (b * d =? 0)%nat; reflexivity.
Qed.

Lemma pack_b_star_d_empty {A} (te x : tensor A) (b n d : nat) :
  shape te = [b; d] -> (b * d = 0)%nat ->
  pack_b_star_d [te; x]
  = Raise (RuntimeError "unspecified dimension size -1 is ambiguous").
Proof.
  intros Hte Hz. unfold pack_b_star_d. cbn [mapM].
  rewrite (view_b_star_d_2d te b d Hte).
  apply Nat.eqb_eq in Hz. rewrite Hz. reflexivity.
Qed.

(** X7. For a batch and a width that are not empty, the time embedding of
    shape (b, d) packed in front of a sequence of shape (b, n, d) takes one
    position of the packed (b, 1 + n, d) tensor, and unpacking gives both
    operands back unchanged.  With an empty batch or an empty width,
    packing raises: [reshape(t, (b, -1, d))] is ambiguous. *)
Theorem pack_unpack_time_position {A} (b n d : nat) (te xd : list A)
  (b0 d0 : nat) (te0 : list A) (x0 : tensor A) :
  (1 <= b)%nat -> (1 <= d)%nat ->
  length te = (b * d)%nat -> length xd = (b * (n * d))%nat ->
  (b0 * d0 = 0)%nat ->
  (exists packed ps,
     pack_b_star_d [mkTensor [b; d] te; mkTensor [b; n; d] xd] = Ok (packed, ps)
     /\ shape packed = [b; S n; d]
     /\ length (data packed) = (b * (S n * d))%nat
     /\ unpack_b_star_d packed ps
        = Ok [mkTensor [b; d] te; mkTensor [b; n; d] xd])
  /\ pack_b_star_d [mkTensor [b0; d0] te0; x0]
     = Raise (RuntimeError "unspecified dimension size -1 is ambiguous").
Proof.
  intros Hb Hd Hte Hxd Hz.
  split; [|apply (pack_b_star_d_empty _ _ b0 0 d0); [reflexivity|exact Hz]].
  destruct (interleave_two_rows b d (n * d) te xd Hte Hxd) as (E1 & E2 & E3).
  cbv zeta in E1, E2.
  assert (Hbd : (b * d =? 0)%nat = false) by (apply Nat.eqb_neq; nia).
  unfold pack_b_star_d. cbn [mapM].
  rewrite (view_b_star_d_2d (mkTensor [b; d] te) b d eq_refl), Hbd. cbn [rbind].
  rewrite (view_b_star_d_3d (mkTensor [b; n; d] xd) b n d eq_refl), Hbd. cbn [rbind data].
  unfold cat_axis, same_but_axis, shape_eqb. cbn [forallb shape firstn skipn length].
  destruct (list_eq_dec Nat.eq_dec [b] [b]) as [_|N]; [|congruence].
  destruct (list_eq_dec Nat.eq_dec [d] [d]) as [_|N]; [|congruence].
  cbn [andb Nat.ltb Nat.leb]. cbn [map nth fold_right shape data numel app middle tl removelast].
  rewrite !Nat.mul_1_r, !Nat.add_0_r.
  eexists. eexists. split; [reflexivity|]. cbn [shape data].
  rewrite !Nat.mul_1_l. change (1 + n)%nat with (S n).
  split; [reflexivity|]. split; [rewrite E3; lia|].
  unfold unpack_b_star_d.
  cbn [shape map numel fold_right cut_positions combine mapM].
  rewrite !Nat.mul_1_r.
  cbn [Nat.add Nat.sub Nat.mul Nat.eqb rbind app skipn].
  rewrite Nat.sub_0_r, Nat.eqb_refl, !Nat.add_0_r. cbn [rbind data].
  rewrite E1, E2. reflexivity.
Qed.

Lemma pack_unpack_time_position_witness :
  (1 <= 1)%nat /\ (1 <= 2)%nat
  /\ length [1; 2] = (1 * 2)%nat /\ length [3; 4; 5; 6] = (1 * (2 * 2))%nat
  /\ (0 * 2 = 0)%nat
  /\ (exists packed ps,
        pack_b_star_d [mkTensor [1; 2]%nat [1; 2]; mkTensor [1; 2; 2]%nat [3; 4; 5; 6]]
        = Ok (packed, ps)
        /\ shape packed = [1; 3; 2]%nat
        /\ length (data packed) = (1 * (3 * 2))%nat
        /\ unpack_b_star_d packed ps
           = Ok [mkTensor [1; 2]%nat [1; 2]; mkTensor [1; 2; 2]%nat [3; 4; 5; 6]])
  /\ pack_b_star_d [mkTensor [0; 2]%nat (@nil Z); mkTensor [0; 2; 2]%nat (@nil Z)]
     = Raise (RuntimeError "unspecified dimension size -1 is ambiguous").
Proof.
  assert (H1 : (1 <= 1)%nat) by lia.
  assert (H2 : (1 <= 2)%nat) by lia.
  split; [exact H1|]. split; [exact H2|].
  split; [reflexivity|]. split; [reflexivity|]. split; [reflexivity|].
  exact (pack_unpack_time_position 1 2 2 [1; 2] [3; 4; 5; 6] 0 2 []
           (mkTensor [0; 2; 2]%nat []) H1 H2 eq_refl eq_refl eq_refl).
Defined.

(** ** Times and time grid *)

Lemma shape_eqb_iff (s1 s2 : list nat) : shape_eqb s1 s2 = true <-> s1 = s2.
Proof.
  unfold shape_eqb. destruct (list_eq_dec Nat.eq_dec s1 s2); split; congruence.
Qed.

(** X8. A zero-dimensional time and a vector of one time are repeated for
    every batch item; a vector of any other length is passed on as it is,
    whether or not its length is the batch size. *)
Theorem manage_times_broadcast (a : Q) (batch : nat) (ts : list Q) :
  length ts <> 1%nat ->
  VoiceBox.manage_times (scalar a) batch = Ok (mkTensor [batch] (repeat a batch))
  /\ VoiceBox.manage_times (mkTensor [1%nat] [a]) batch
     = Ok (mkTensor [batch] (repeat a batch))
  /\ VoiceBox.manage_times (mkTensor [length ts] ts) batch
     = Ok (mkTensor [length ts] ts).
Proof.
  intros Hts. unfold VoiceBox.manage_times, repeat_to_batch, ndim, scalar.
  cbn [shape data length Nat.eqb rbind].
  split; [|split].
  - destruct (shape_eqb [batch] [1%nat]) eqn:E; [|reflexivity].
    apply shape_eqb_iff in E. injection E as ->. reflexivity.
  - destruct (shape_eqb [1%nat] [1%nat]) eqn:E; [reflexivity|].
    exfalso. apply not_true_iff_false in E. apply E, shape_eqb_iff. reflexivity.
  - destruct (shape_eqb [length ts] [1%nat]) eqn:E; [|reflexivity].
    apply shape_eqb_iff in E. injection E as E. contradiction.
Qed.

Lemma manage_times_broadcast_witness :
  length [(1 # 4)%Q; (1 # 2)%Q] <> 1%nat
  /\ VoiceBox.manage_times (scalar (1 # 3)%Q) 2
     = Ok (mkTensor [2%nat] (repeat (1 # 3)%Q 2))
  /\ VoiceBox.manage_times (mkTensor [1%nat] [(1 # 3)%Q]) 2
     = Ok (mkTensor [2%nat] (repeat (1 # 3)%Q 2))
  /\ VoiceBox.manage_times (mkTensor [length [(1 # 4)%Q; (1 # 2)%Q]] [(1 # 4)%Q; (1 # 2)%Q]) 2
     = Ok (mkTensor [length [(1 # 4)%Q; (1 # 2)%Q]] [(1 # 4)%Q; (1 # 2)%Q]).
Proof.
  assert (H : length [(1 # 4)%Q; (1 # 2)%Q] <> 1%nat) by (simpl; lia).
  split; [exact H|].
  exact (manage_times_broadcast (1 # 3) 2 [(1 # 4)%Q; (1 # 2)%Q] H).
Defined.

(** The time grid of [sample] has [steps] points; with two steps or more
    it starts at 0, ends at 1 and is evenly spaced. *)
Theorem linspace01_grid (steps : Z) :
  2 <= steps ->
  exists grid,
    linspace01 steps = Ok (mkTensor [Z.to_nat steps] grid)
    /\ length grid = Z.to_nat steps
    /\ (nth 0 grid 0 == 0)%Q
    /\ (nth (Z.to_nat steps - 1) grid 0 == 1)%Q
    /\ forall k, (S k < Z.to_nat steps)%nat ->
         (nth (S k) grid 0 - nth k grid 0 == 1 / inject_Z (steps - 1))%Q.
Proof.
  intros Hs. unfold linspace01.
  destruct (steps <? 0) eqn:E; [lia|].
  destruct (steps =? 1) eqn:E1; [lia|].
  eexists. split; [reflexivity|].
  assert (Hnth : forall k, (k < Z.to_nat steps)%nat ->
            nth k (map (fun k0 : Z => (inject_Z k0 / inject_Z (steps - 1))%Q) (range steps)) 0%Q
            = (inject_Z (Z.of_nat k) / inject_Z (steps - 1))%Q).
  { intros k Hk. rewrite (nth_map_in _ _ _ 0) by (rewrite range_length; exact Hk).
    now rewrite nth_range. }
  assert (Hne : ~ (inject_Z (steps - 1) == 0)%Q).
  { change 0%Q with (inject_Z 0). rewrite inject_Z_injective. lia. }
  split; [now rewrite length_map, range_length|].
  split; [|split].
  - rewrite Hnth by lia. simpl. unfold Qdiv. ring.
  - rewrite Hnth by lia.
    replace (Z.of_nat (Z.to_nat steps - 1)) with (steps - 1) by lia.
    field. exact Hne.
  - intros k Hk. rewrite !Hnth by lia.
    rewrite Nat2Z.inj_succ. unfold Z.succ. rewrite inject_Z_plus.
    field. exact Hne.
Qed.

Lemma linspace01_grid_witness :
  2 <= 3
  /\ exists grid,
       linspace01 3 = Ok (mkTensor [Z.to_nat 3] grid)
       /\ length grid = Z.to_nat 3
       /\ (nth 0 grid 0 == 0)%Q
       /\ (nth (Z.to_nat 3 - 1) grid 0 == 1)%Q
       /\ forall k, (S k < Z.to_nat 3)%nat ->
            (nth (S k) grid 0 - nth k grid 0 == 1 / inject_Z (3 - 1))%Q.
Proof.
  split; [lia|]. apply (linspace01_grid 3). lia.
Defined.

(** ** Contract violations of the forward passes *)

(** X9. A conditioning tensor that is not three-dimensional, and a state whose
    last dimension differs from that of the conditioning, make [forward]
    of both predictors fail at once: no random number is drawn and the
    world is unchanged. *)
Theorem forward_rejects_bad_shapes (N : Numerics)
  (vb : VoiceBox.t) (dp : DurationPredictor.t)
  (x : tensor Q) (phoneme_ids : tensor Z) (cond_bad cond times : tensor Q)
  (cond_drop_prob : Q) (target : option (tensor Q)) (mask : option (tensor bool))
  (w : world) (b n d xd : nat) :
  length (shape cond_bad) <> 3%nat ->
  shape cond = [b; n; d] -> last_dim x = Ok xd -> xd <> d ->
  VoiceBox.forward vb x phoneme_ids cond_bad times cond_drop_prob target mask w
  = (Raise (ValueError "wrong number of values to unpack"), w)
  /\ DurationPredictor.forward dp x phoneme_ids cond_bad cond_drop_prob target mask w
     = (Raise (ValueError "wrong number of values to unpack"), w)
  /\ VoiceBox.forward vb x phoneme_ids cond times cond_drop_prob target mask w
     = (Raise AssertionError, w)
  /\ DurationPredictor.forward dp x phoneme_ids cond cond_drop_prob target mask w
     = (Raise AssertionError, w).
Proof.
  intros Hbad Hs Hx Hne.
  assert (Eu : unpack3 (shape cond_bad)
               = Raise (ValueError "wrong number of values to unpack")).
  { destruct (shape cond_bad) as [|a [|a0 [|a1 [|a2 s]]]]; simpl in *;
      try reflexivity. lia. }
  assert (Ea : assert (d =? xd)%nat = Raise AssertionError).
  { destruct (d =? xd)%nat eqn:E; [apply Nat.eqb_eq in E; congruence|reflexivity]. }
  unfold VoiceBox.forward, DurationPredictor.forward, bind, lift.
  rewrite Eu, Hs, Hx. cbn [unpack3]. rewrite Ea. repeat split.
Qed.

Lemma forward_rejects_bad_shapes_witness :
  length (shape (mkTensor [1; 2]%nat [3; 4]%Q)) <> 3%nat
  /\ shape (mkTensor [1; 2; 2]%nat [3; 4; 5; 6]%Q) = [1; 2; 2]%nat
  /\ last_dim (mkTensor [1; 2; 1]%nat [1; 2]%Q) = Ok 1%nat
  /\ 1%nat <> 2%nat
  /\ VoiceBox.forward (N := plain_numerics) handmade_voicebox
       (mkTensor [1; 2; 1]%nat [1; 2]%Q) (mkTensor [1; 2]%nat [7; 8])
       (mkTensor [1; 2]%nat [3; 4]%Q) (scalar (1 # 2)%Q) (1 # 10) None None
       (constant_world 0 0)
     = (Raise (ValueError "wrong number of values to unpack"), constant_world 0 0)
  /\ DurationPredictor.forward (N := plain_numerics) handmade_predictor
       (mkTensor [1; 2; 1]%nat [1; 2]%Q) (mkTensor [1; 2]%nat [7; 8])
       (mkTensor [1; 2]%nat [3; 4]%Q) (1 # 10) None None (constant_world 0 0)
     = (Raise (ValueError "wrong number of values to unpack"), constant_world 0 0)
  /\ VoiceBox.forward (N := plain_numerics) handmade_voicebox
       (mkTensor [1; 2; 1]%nat [1; 2]%Q) (mkTensor [1; 2]%nat [7; 8])
       (mkTensor [1; 2; 2]%nat [3; 4; 5; 6]%Q) (scalar (1 # 2)%Q) (1 # 10) None None
       (constant_world 0 0)
     = (Raise AssertionError, constant_world 0 0)
  /\ DurationPredictor.forward (N := plain_numerics) handmade_predictor
       (mkTensor [1; 2; 1]%nat [1; 2]%Q) (mkTensor [1; 2]%nat [7; 8])
       (mkTensor [1; 2; 2]%nat [3; 4; 5; 6]%Q) (1 # 10) None None (constant_world 0 0)
     = (Raise AssertionError, constant_world 0 0).
Proof.
  assert (H1 : length (shape (mkTensor [1; 2]%nat [3; 4]%Q)) <> 3%nat) by (simpl; lia).
  assert (H4 : 1%nat <> 2%nat) by lia.
  split; [exact H1|]. split; [reflexivity|]. split; [reflexivity|]. split; [exact H4|].
  exact (forward_rejects_bad_shapes plain_numerics handmade_voicebox handmade_predictor
           (mkTensor [1; 2; 1]%nat [1; 2]%Q) (mkTensor [1; 2]%nat [7; 8])
           (mkTensor [1; 2]%nat [3; 4]%Q) (mkTensor [1; 2; 2]%nat [3; 4; 5; 6]%Q)
           (scalar (1 # 2)%Q) (1 # 10) None None (constant_world 0 0)
           1 2 2 1 H1 eq_refl eq_refl H4).
Defined.

(** ** The predicted field does not depend on the mask *)

Lemma construct_mask_ok (batch seq_len : nat) (flm : Q * Q) (p : Q)
  (mask : option (tensor bool)) (w : world) :
  (1 <= seq_len)%nat -> (fst flm <= snd flm)%Q ->
  exists m w', construct_mask batch seq_len flm p mask w = (Ok (Some m), w').
Proof.
  intros Hn Hflm. destruct mask as [m|].
  - exists m, w. reflexivity.
  - destruct (construct_mask_none_ok batch seq_len flm p w Hn Hflm) as (m & w' & E & _).
    exists m, w'. exact E.
Qed.

(** With a drop probability of 0 or less, or of exactly 1, the conditioning
    dropout draws no random number. *)
Lemma drop_condition_pure (batch : nat) (cond_drop_prob : Q)
  (null_cond : tensor Q) (null_phoneme_id : Z) (cond : tensor Q) (ids : tensor Z) :
  (cond_drop_prob <= 0)%Q \/ (cond_drop_prob == 1)%Q ->
  exists r, forall w,
    drop_condition batch cond_drop_prob null_cond null_phoneme_id cond ids w = (r, w).
Proof.
  intros Hp. unfold drop_condition.
  destruct (Qle_bool cond_drop_prob 0) eqn:E.
  - eexists. intros w. reflexivity.
  - destruct Hp as [Hp|Hp].
    + apply Qle_bool_iff in Hp. congruence.
    + simpl negb. cbv iota. unfold prob_mask_like.
      apply Qeq_bool_iff in Hp. rewrite Hp.
      unfold bind, ret, lift.
      destruct (where_ _ null_cond cond) as [c|e].
      * destruct (where_ _ (scalar null_phoneme_id) ids) as [i|e].
        -- eexists. intros w. reflexivity.
        -- eexists. intros w. reflexivity.
      * eexists. intros w. reflexivity.
Qed.

Lemma fst_bind_lift {A B} (r : result A) (k k' : A -> M B) (w w' : world) :
  (forall a, fst (k a w) = fst (k' a w')) ->
  fst (bind (lift r) k w) = fst (bind (lift r) k' w').
Proof. intros Hk. unfold bind, lift. destruct r as [a|e]; [apply Hk|reflexivity]. Qed.

Lemma fst_bind_both {A A' B} (m : M A) (m' : M A') (k : A -> M B) (k' : A' -> M B)
  (w w' w1 w1' : world) (a : A) (a' : A') :
  m w = (Ok a, w1) -> m' w' = (Ok a', w1') ->
  fst (k a w1) = fst (k' a' w1') ->
  fst (bind m k w) = fst (bind m' k' w').
Proof. intros E E' Hk. unfold bind. now rewrite E, E'. Qed.

Lemma VoiceBox_forward_logits_pure (N : Numerics) (vb : VoiceBox.t)
  (x : tensor Q) (phoneme_ids : tensor Z) (cond times : tensor Q)
  (cond_drop_prob : Q) (mask mask' : option (tensor bool)) (w w' : world)
  (b n d : nat) :
  shape cond = [b; n; d] -> (1 <= n)%nat ->
  (fst (VoiceBox.frac_lengths_mask vb) <= snd (VoiceBox.frac_lengths_mask vb))%Q ->
  (cond_drop_prob <= 0)%Q \/ (cond_drop_prob == 1)%Q ->
  fst (VoiceBox.forward vb x phoneme_ids cond times cond_drop_prob None mask w)
  = fst (VoiceBox.forward vb x phoneme_ids cond times cond_drop_prob None mask' w').
Proof.
  intros Hs Hn Hflm Hp. unfold VoiceBox.forward.
  rewrite Hs. cbn [unpack3]. rewrite !bind_lift_ok.
  apply fst_bind_lift; intros xd.
  apply fst_bind_lift; intros u.
  apply fst_bind_lift; intros ts.
  destruct (construct_mask_ok b n (VoiceBox.frac_lengths_mask vb) (VoiceBox.p_drop_prob vb)
              mask w Hn Hflm) as (m1 & w1 & E1).
  destruct (construct_mask_ok b n (VoiceBox.frac_lengths_mask vb) (VoiceBox.p_drop_prob vb)
              mask' w' Hn Hflm) as (m2 & w2 & E2).
  apply (fst_bind_both _ _ _ _ w w' w1 w2 (Some m1) (Some m2) E1 E2).
  destruct (drop_condition_pure b cond_drop_prob
              (Parameter_value (VoiceBox.null_cond vb)) (VoiceBox.null_phoneme_id vb)
              cond phoneme_ids Hp) as (r & Hr).
  destruct r as [[c i]|e].
  - apply (fst_bind_both _ _ _ _ w1 w2 w1 w2 (c, i) (c, i) (Hr w1) (Hr w2)).
    do 6 (apply fst_bind_lift; intros ?).
    apply fst_bind_lift; intros [xp ps].
    do 4 (apply fst_bind_lift; intros ?).
    reflexivity.
  - unfold bind. now rewrite (Hr w1), (Hr w2).
Qed.

(** X10. Without a target, on a conditioning of shape (b, n, d) with
    [n >= 1] and for a model whose [frac_lengths_mask] has ordered bounds,
    the field predicted by [VoiceBox.forward] with a drop probability of 0
    (or less) or of 1 is the same whatever mask is given or drawn and
    whatever the random streams hold: the mask only matters for the loss.
    (With [n = 0], or with bounds in the wrong order, building the mask can
    raise, and then the result does depend on the coin flip.) *)
Theorem VoiceBox_logits_ignore_mask_and_draws (N : Numerics) (vb : VoiceBox.t)
  (x : tensor Q) (phoneme_ids : tensor Z) (cond times : tensor Q)
  (cond_drop_prob : Q) (mask mask' : option (tensor bool)) (w w' : world)
  (b n d : nat) :
  shape cond = [b; n; d] -> (1 <= n)%nat ->
  (fst (VoiceBox.frac_lengths_mask vb) <= snd (VoiceBox.frac_lengths_mask vb))%Q ->
  (cond_drop_prob <= 0)%Q \/ (cond_drop_prob == 1)%Q ->
  fst (VoiceBox.forward vb x phoneme_ids cond times cond_drop_prob None mask w)
  = fst (VoiceBox.forward vb x phoneme_ids cond times cond_drop_prob None mask' w').
Proof. apply VoiceBox_forward_logits_pure. Qed.

Lemma VoiceBox_logits_ignore_mask_and_draws_witness :
  shape (mkTensor [1; 2; 1]%nat [3; 4]%Q) = [1; 2; 1]%nat /\ (1 <= 2)%nat
  /\ (fst (VoiceBox.frac_lengths_mask handmade_voicebox)
      <= snd (VoiceBox.frac_lengths_mask handmade_voicebox))%Q
  /\ ((1 <= 0)%Q \/ (1 == 1)%Q)
  /\ fst (VoiceBox.forward (N := wide_numerics) handmade_voicebox
            (mkTensor [1; 2; 1]%nat [1; 2]%Q) (mkTensor [1; 2]%nat [7; 8])
            (mkTensor [1; 2; 1]%nat [3; 4]%Q) (scalar (1 # 2)%Q) 1 None None
            (constant_world 0 0))
     = fst (VoiceBox.forward (N := wide_numerics) handmade_voicebox
              (mkTensor [1; 2; 1]%nat [1; 2]%Q) (mkTensor [1; 2]%nat [7; 8])
              (mkTensor [1; 2; 1]%nat [3; 4]%Q) (scalar (1 # 2)%Q) 1 None
              (Some (mkTensor [1; 2]%nat [true; false]))
              (constant_world (3 # 4) (1 # 3))).
Proof.
  assert (H2 : (1 <= 2)%nat) by lia.
  assert (H3 : (fst (VoiceBox.frac_lengths_mask handmade_voicebox)
                <= snd (VoiceBox.frac_lengths_mask handmade_voicebox))%Q)
    by (unfold Qle; simpl; lia).
  assert (H4 : (1 <= 0)%Q \/ (1 == 1)%Q) by (right; reflexivity).
  split; [reflexivity|]. split; [exact H2|]. split; [exact H3|]. split; [exact H4|].
  exact (VoiceBox_logits_ignore_mask_and_draws wide_numerics handmade_voicebox
           (mkTensor [1; 2; 1]%nat [1; 2]%Q) (mkTensor [1; 2]%nat [7; 8])
           (mkTensor [1; 2; 1]%nat [3; 4]%Q) (scalar (1 # 2)%Q) 1 None
           (Some (mkTensor [1; 2]%nat [true; false]))
           (constant_world 0 0) (constant_world (3 # 4) (1 # 3)) 1 2 1
           eq_refl H2 H3 H4).
Defined.

(** ** Classifier-free guidance *)

Lemma guide_same_shape (s : list nat) (l nl : list Q) (scale : Q) :
  length l = numel s -> length nl = numel s ->
  guide (mkTensor s l) (mkTensor s nl) scale
  = Ok (mkTensor s (zip_with Qplus nl
                      (map (fun d => (d * scale)%Q) (zip_with Qminus l nl)))).
Proof.
  intros Hl Hn. unfold guide.
  rewrite bc_binop_same_shape by assumption. simpl rbind. unfold tmap. simpl.
  rewrite bc_binop_same_shape; [reflexivity|exact Hn|].
  rewrite length_map, zip_with_length; congruence.
Qed.

(** X11. With a guidance scale other than 1, [forward_with_cond_scale] runs
    the predictor with the conditioning kept and then, from the random
    state that this first pass leaves, with the conditioning dropped.  When
    the two passes return logits of one shape, the result is, entry by
    entry, [null + (cond - null) * scale]; for a scale of 0 that is the
    unconditional prediction. *)
Theorem VoiceBox_guidance (N : Numerics) (vb : VoiceBox.t)
  (x : tensor Q) (scale : Q) (phoneme_ids : tensor Z) (cond times : tensor Q)
  (mask : option (tensor bool)) (w : world)
  (s : list nat) (l nl : list Q) :
  Qeq_bool scale 1 = false ->
  fst (VoiceBox.forward vb x phoneme_ids cond times 0 None mask w) = Ok (mkTensor s l) ->
  fst (VoiceBox.forward vb x phoneme_ids cond times 1 None mask
         (snd (VoiceBox.forward vb x phoneme_ids cond times 0 None mask w)))
  = Ok (mkTensor s nl) ->
  length l = numel s -> length nl = numel s ->
  exists r,
    fst (VoiceBox.forward_with_cond_scale vb x scale phoneme_ids cond times None mask w)
    = Ok (mkTensor s r)
    /\ length r = numel s
    /\ forall k, (k < numel s)%nat ->
         (nth k r 0 == nth k nl 0 + (nth k l 0 - nth k nl 0) * scale)%Q
         /\ ((scale == 0)%Q -> (nth k r 0 == nth k nl 0)%Q).
Proof.
  intros Hsc Hl Hnl Ll Lnl.
  unfold VoiceBox.forward_with_cond_scale. rewrite Hsc.
  unfold bind at 1.
  destruct (VoiceBox.forward vb x phoneme_ids cond times 0 None mask w)
    as [r0 w1] eqn:F0.
  cbn [fst snd] in Hl, Hnl. subst r0.
  unfold bind at 1.
  destruct (VoiceBox.forward vb x phoneme_ids cond times 1 None mask w1)
    as [r1 w2] eqn:F1.
  cbn [fst] in Hnl. subst r1. unfold lift. cbn [fst].
  rewrite guide_same_shape by assumption.
  eexists. split; [reflexivity|].
  split.
  - rewrite zip_with_length; rewrite ?length_map, ?zip_with_length; congruence.
  - intros k Hk.
    assert (Ek : nth k (zip_with Qplus nl
                         (map (fun d0 => (d0 * scale)%Q) (zip_with Qminus l nl))) 0%Q
                 = (nth k nl 0 + (nth k l 0 - nth k nl 0) * scale)%Q).
    { rewrite (nth_zip_with _ _ _ _ 0%Q 0%Q);
        rewrite ?length_map, ?zip_with_length; try lia.
      rewrite (nth_map_in _ _ _ 0%Q) by (rewrite zip_with_length; lia).
      rewrite (nth_zip_with _ _ _ _ 0%Q 0%Q) by lia. reflexivity. }
    rewrite Ek. split; [reflexivity|].
    intros E0. rewrite E0. ring.
Qed.

Lemma VoiceBox_guidance_witness :
  Qeq_bool 3 1 = false
  /\ fst (VoiceBox.forward (N := wide_numerics) handmade_voicebox
            (mkTensor [1; 2; 1]%nat [1; 2]%Q) (mkTensor [1; 2]%nat [7; 8])
            (mkTensor [1; 2; 1]%nat [3; 4]%Q) (scalar (1 # 2)%Q) 0 None None (constant_world 0 0))
     = Ok (mkTensor [1; 2; 3]%nat [2; 14; 6; 4; 16; 8]%Q)
  /\ fst (VoiceBox.forward (N := wide_numerics) handmade_voicebox
            (mkTensor [1; 2; 1]%nat [1; 2]%Q) (mkTensor [1; 2]%nat [7; 8])
            (mkTensor [1; 2; 1]%nat [3; 4]%Q) (scalar (1 # 2)%Q) 1 None None
            (snd (VoiceBox.forward (N := wide_numerics) handmade_voicebox
                    (mkTensor [1; 2; 1]%nat [1; 2]%Q) (mkTensor [1; 2]%nat [7; 8])
                    (mkTensor [1; 2; 1]%nat [3; 4]%Q) (scalar (1 # 2)%Q) 0 None None
                    (constant_world 0 0))))
     = Ok (mkTensor [1; 2; 3]%nat [2; 100; 0; 4; 100; 0]%Q)
  /\ length [2; 14; 6; 4; 16; 8]%Q = numel [1; 2; 3]%nat
  /\ length [2; 100; 0; 4; 100; 0]%Q = numel [1; 2; 3]%nat
  /\ exists r,
       fst (VoiceBox.forward_with_cond_scale (N := wide_numerics) handmade_voicebox
              (mkTensor [1; 2; 1]%nat [1; 2]%Q) 3 (mkTensor [1; 2]%nat [7; 8])
              (mkTensor [1; 2; 1]%nat [3; 4]%Q) (scalar (1 # 2)%Q) None None (constant_world 0 0))
       = Ok (mkTensor [1; 2; 3]%nat r)
       /\ length r = numel [1; 2; 3]%nat
       /\ forall k, (k < numel [1; 2; 3]%nat)%nat ->
            (nth k r 0 == nth k [2; 100; 0; 4; 100; 0]%Q 0
                          + (nth k [2; 14; 6; 4; 16; 8]%Q 0 - nth k [2; 100; 0; 4; 100; 0]%Q 0) * 3)%Q
            /\ ((3 == 0)%Q -> (nth k r 0 == nth k [2; 100; 0; 4; 100; 0]%Q 0)%Q).
Proof.
  assert (Hs : Qeq_bool 3 1 = false) by reflexivity.
  assert (H0 : fst (VoiceBox.forward (N := wide_numerics) handmade_voicebox
                      (mkTensor [1; 2; 1]%nat [1; 2]%Q) (mkTensor [1; 2]%nat [7; 8])
                      (mkTensor [1; 2; 1]%nat [3; 4]%Q) (scalar (1 # 2)%Q) 0 None None (constant_world 0 0))
               = Ok (mkTensor [1; 2; 3]%nat [2; 14; 6; 4; 16; 8]%Q)) by (vm_compute; reflexivity).
  assert (H1 : fst (VoiceBox.forward (N := wide_numerics) handmade_voicebox
                      (mkTensor [1; 2; 1]%nat [1; 2]%Q) (mkTensor [1; 2]%nat [7; 8])
                      (mkTensor [1; 2; 1]%nat [3; 4]%Q) (scalar (1 # 2)%Q) 1 None None
                      (snd (VoiceBox.forward (N := wide_numerics) handmade_voicebox
                              (mkTensor [1; 2; 1]%nat [1; 2]%Q) (mkTensor [1; 2]%nat [7; 8])
                              (mkTensor [1; 2; 1]%nat [3; 4]%Q) (scalar (1 # 2)%Q) 0 None None
                              (constant_world 0 0))))
               = Ok (mkTensor [1; 2; 3]%nat [2; 100; 0; 4; 100; 0]%Q)) by (vm_compute; reflexivity).
  split; [exact Hs|]. split; [exact H0|]. split; [exact H1|].
  split; [reflexivity|]. split; [reflexivity|].
  exact (VoiceBox_guidance wide_numerics handmade_voicebox
           (mkTensor [1; 2; 1]%nat [1; 2]%Q) 3 (mkTensor [1; 2]%nat [7; 8])
           (mkTensor [1; 2; 1]%nat [3; 4]%Q) (scalar (1 # 2)%Q) None (constant_world 0 0)
           [1; 2; 3]%nat [2; 14; 6; 4; 16; 8]%Q [2; 100; 0; 4; 100; 0]%Q
           Hs H0 H1 eq_refl eq_refl).
Defined.

(** ** The loss is a non-negative scalar *)

Lemma Forall_zip_with_lr {A B C} (P : A -> Prop) (R : B -> Prop) (S : C -> Prop)
  (f : A -> B -> C) (l : list A) (r : list B) :
  (forall a b, P a -> R b -> S (f a b)) ->
  Forall P l -> Forall R r -> Forall S (zip_with f l r).
Proof.
  intros Hf Hl. revert r. induction Hl as [|a l Ha Hl IH]; intros r Hr;
    simpl; [constructor|].
  destruct Hr as [|b r Hb Hr]; constructor; [apply Hf; assumption|apply IH; exact Hr].
Qed.

Lemma Forall_True {A} (l : list A) : Forall (fun _ => True) l.
Proof. induction l; constructor; auto. Qed.

Lemma Forall_firstn_list {A} (P : A -> Prop) (n : nat) (l : list A) :
  Forall P l -> Forall P (firstn n l).
Proof.
  intros H. revert n. induction H as [|a l Ha Hl IH]; intros [|n]; simpl;
    constructor; auto.
Qed.

Lemma Forall_skipn_list {A} (P : A -> Prop) (n : nat) (l : list A) :
  Forall P l -> Forall P (skipn n l).
Proof.
  intros H. revert n. induction H as [|a l Ha Hl IH]; intros [|n]; simpl;
    try constructor; auto.
Qed.

Lemma Forall_chunks_elems {A} (P : A -> Prop) (m k : nat) (d : list A) :
  Forall P d -> Forall (Forall P) (chunks m k d).
Proof.
  revert d. induction k as [|k IH]; intros d H; simpl; constructor.
  - apply Forall_firstn_list. exact H.
  - apply IH. apply Forall_skipn_list. exact H.
Qed.

Lemma Forall_concat_list {A} (P : A -> Prop) (ls : list (list A)) :
  Forall (Forall P) ls -> Forall P (concat ls).
Proof.
  induction 1 as [|l ls Hl Hls IH]; simpl; [constructor|].
  apply Forall_app. split; assumption.
Qed.

Lemma Forall_repeat_list {A} (P : A -> Prop) (a : A) (n : nat) :
  P a -> Forall P (repeat a n).
Proof. intros H. induction n; simpl; constructor; auto. Qed.

Lemma Forall_expand_aligned {A} (P : A -> Prop) (src tgt : list nat) (d : list A) :
  Forall P d -> Forall P (expand_aligned src tgt d).
Proof.
  revert tgt d. induction src as [|k ks IH]; intros tgt d H; simpl; [exact H|].
  destruct tgt as [|k' ks']; [exact H|].
  assert (Hrows : Forall (Forall P)
            (map (expand_aligned ks ks') (chunks (numel ks) k d))).
  { apply Forall_map. eapply Forall_impl; [|apply Forall_chunks_elems; exact H].
    intros c Hc. apply IH. exact Hc. }
  destruct (k =? k')%nat.
  - apply Forall_concat_list. exact Hrows.
  - apply Forall_concat_list. apply Forall_repeat_list.
    destruct Hrows; simpl; [constructor|assumption].
Qed.

Lemma expand_Forall {A} (P : A -> Prop) (t t' : tensor A) (s : list nat) :
  expand t s = Ok t' -> Forall P (data t) -> Forall P (data t').
Proof.
  unfold expand. destruct (_ && _); [|discriminate].
  intros E H. injection E as <-. simpl. apply Forall_expand_aligned. exact H.
Qed.

Lemma bc_binop_Forall {A B C} (P : A -> Prop) (R : B -> Prop) (S : C -> Prop)
  (f : A -> B -> C) (a : tensor A) (b : tensor B) (c : tensor C) :
  (forall x y, P x -> R y -> S (f x y)) ->
  bc_binop f a b = Ok c -> Forall P (data a) -> Forall R (data b) ->
  Forall S (data c).
Proof.
  intros Hf E Ha Hb. unfold bc_binop in E.
  destruct (broadcast_shapes (shape a) (shape b)) as [s|e]; [|discriminate].
  simpl in E.
  destruct (expand a s) as [a'|e] eqn:Ea; [|discriminate]. simpl in E.
  destruct (expand b s) as [b'|e] eqn:Eb; [|discriminate]. simpl in E.
  injection E as <-. simpl.
  eapply Forall_zip_with_lr; [exact Hf| |].
  - eapply expand_Forall; eassumption.
  - eapply expand_Forall; eassumption.
Qed.

Lemma Qsum_nonneg (l : list Q) : Forall (fun q => (0 <= q)%Q) l -> (0 <= Qsum l)%Q.
Proof.
  induction 1 as [|q l Hq Hl IH]; simpl; [apply Qle_refl|].
  change 0%Q with (0 + 0)%Q. apply Qplus_le_compat; assumption.
Qed.

Lemma Qdiv_nonneg (a b : Q) : (0 <= a)%Q -> (0 <= b)%Q -> (0 <= a / b)%Q.
Proof.
  intros Ha Hb. unfold Qdiv. apply Qmult_le_0_compat; [exact Ha|].
  apply Qinv_le_0_compat. exact Hb.
Qed.

Lemma tmean_nonneg (t : tensor Q) :
  Forall (fun q => (0 <= q)%Q) (data t) ->
  exists q, tmean t = scalar q /\ (0 <= q)%Q.
Proof.
  intros H. unfold tmean. eexists. split; [reflexivity|].
  apply Qdiv_nonneg; [apply Qsum_nonneg; exact H|].
  change 0%Q with (inject_Z 0). rewrite <- Zle_Qle. lia.
Qed.

Lemma masked_fill_Forall {A} (P : A -> Prop) (t t' : tensor A)
  (mask : tensor bool) (v : A) :
  P v -> masked_fill t mask v = Ok t' -> Forall P (data t) -> Forall P (data t').
Proof.
  intros Hv E H. unfold masked_fill in E.
  destruct (expand mask (shape t)) as [m|e]; [|discriminate]. simpl in E.
  injection E as <-. simpl.
  eapply (Forall_zip_with_lr P (fun _ => True) P); [|exact H|apply Forall_True].
  intros x b Hx _. destruct b; assumption.
Qed.

Lemma masked_mean_nonneg (loss : tensor Q) (mask : tensor bool) (r : tensor Q) :
  masked_mean loss mask = Ok r -> Forall (fun q => (0 <= q)%Q) (data loss) ->
  exists q, r = scalar q /\ (0 <= q)%Q.
Proof.
  intros E H. unfold masked_mean in E.
  destruct (reduce_sum_bn loss) as [num|e] eqn:En; [|discriminate]. simpl in E.
  destruct (bc_binop Qdiv num _) as [l|e] eqn:Ed; [|discriminate]. simpl in E.
  injection E as <-. apply tmean_nonneg.
  eapply (bc_binop_Forall (fun q => (0 <= q)%Q) (fun q => (0 <= q)%Q));
    [| exact Ed | |].
  - intros x y Hx Hy. apply Qdiv_nonneg; assumption.
  - unfold reduce_sum_bn in En.
    destruct (shape loss) as [|b [|n [|? ?]]]; try discriminate.
    injection En as <-. simpl. apply Forall_map.
    eapply Forall_impl; [|apply Forall_chunks_elems; exact H].
    intros c Hc. apply Qsum_nonneg. exact Hc.
  - eapply Forall_impl; [|apply masked_mean_denominator_floor].
    intros den [Hden _]. eapply Qle_trans; [|exact Hden]. unfold Qle. simpl. lia.
Qed.

Lemma Qsq_nonneg (q : Q) : (0 <= Qsq q)%Q.
Proof.
  unfold Qsq. destruct (Qlt_le_dec q 0) as [H|H].
  - setoid_replace (q * q)%Q with ((- q) * (- q))%Q by ring.
    apply Qmult_le_0_compat; apply Qlt_le_weak;
      setoid_replace 0%Q with (- 0)%Q by ring; apply Qopp_lt_compat; exact H.
  - apply Qmult_le_0_compat; exact H.
Qed.

Lemma VoiceBox_loss_nonneg (x tg : tensor Q) (mask : option (tensor bool)) (r : tensor Q) :
  VoiceBox.loss x (Some tg) mask = Ok r -> exists q, r = scalar q /\ (0 <= q)%Q.
Proof.
  unfold VoiceBox.loss, F_mse_loss, F_mse_loss_none. intros E.
  destruct (bc_binop (fun a b => Qsq (a - b)) x tg) as [l|e] eqn:El;
    [|destruct mask; discriminate].
  assert (Hl : Forall (fun q => (0 <= q)%Q) (data l)).
  { eapply (bc_binop_Forall (fun _ => True) (fun _ => True));
      [|exact El|apply Forall_True|apply Forall_True].
    intros a b _ _. apply Qsq_nonneg. }
  destruct mask as [m|]; simpl in E.
  - destruct (reduce_mean_bnd l) as [l1|e] eqn:E1; [|discriminate]. simpl in E.
    destruct (masked_fill l1 m 0%Q) as [l2|e] eqn:E2; [|discriminate]. simpl in E.
    apply (masked_mean_nonneg l2 m r E).
    eapply masked_fill_Forall; [apply Qle_refl|exact E2|].
    unfold reduce_mean_bnd in E1.
    destruct (shape l) as [|b [|n [|d [|? ?]]]]; try discriminate.
    injection E1 as <-. simpl. apply Forall_map.
    eapply Forall_impl; [|apply Forall_chunks_elems; exact Hl].
    intros c Hc. apply Qdiv_nonneg; [apply Qsum_nonneg; exact Hc|].
    change 0%Q with (inject_Z 0). rewrite <- Zle_Qle. lia.
  - injection E as <-. apply tmean_nonneg. exact Hl.
Qed.

Lemma DurationPredictor_loss_nonneg (x tg : tensor Q) (mask : option (tensor bool))
  (r : tensor Q) :
  DurationPredictor.loss x (Some tg) mask = Ok r -> exists q, r = scalar q /\ (0 <= q)%Q.
Proof.
  unfold DurationPredictor.loss, F_l1_loss, F_l1_loss_none. intros E.
  destruct (bc_binop (fun a b => Qabs (a - b)) x tg) as [l|e] eqn:El;
    [|destruct mask; discriminate].
  assert (Hl : Forall (fun q => (0 <= q)%Q) (data l)).
  { eapply (bc_binop_Forall (fun _ => True) (fun _ => True));
      [|exact El|apply Forall_True|apply Forall_True].
    intros a b _ _. apply Qabs_nonneg. }
  destruct mask as [m|]; simpl in E.
  - destruct (masked_fill l m 0%Q) as [l2|e] eqn:E2; [|discriminate]. simpl in E.
    apply (masked_mean_nonneg l2 m r E).
    eapply masked_fill_Forall; [apply Qle_refl|exact E2|exact Hl].
  - injection E as <-. apply tmean_nonneg. exact Hl.
Qed.

(** X12. For predictions and targets that are not empty (every dimension
    at least 1), a loss that either predictor returns, masked or not, is a
    zero-dimensional tensor holding a non-negative number.  (On an empty
    tensor the mean is not a number.) *)
Theorem loss_is_nonnegative_scalar
  (b n d : nat) (xl tl : list Q) (maskv : option (tensor bool)) (rv : tensor Q)
  (b' n' : nat) (xl' tl' : list Q) (maskd : option (tensor bool)) (rd : tensor Q) :
  (1 <= b)%nat -> (1 <= n)%nat -> (1 <= d)%nat ->
  length xl = (b * (n * d))%nat -> length tl = (b * (n * d))%nat ->
  (1 <= b')%nat -> (1 <= n')%nat ->
  length xl' = (b' * n')%nat -> length tl' = (b' * n')%nat ->
  VoiceBox.loss (mkTensor [b; n; d] xl) (Some (mkTensor [b; n; d] tl)) maskv = Ok rv ->
  DurationPredictor.loss (mkTensor [b'; n'] xl') (Some (mkTensor [b'; n'] tl')) maskd
  = Ok rd ->
  (exists q, rv = scalar q /\ (0 <= q)%Q)
  /\ (exists q, rd = scalar q /\ (0 <= q)%Q).
Proof.
  intros _ _ _ _ _ _ _ _ _ Hv Hd. split.
  - eapply VoiceBox_loss_nonneg; exact Hv.
  - eapply DurationPredictor_loss_nonneg; exact Hd.
Qed.

Lemma loss_is_nonnegative_scalar_witness :
  (1 <= 1)%nat /\ (1 <= 2)%nat /\ (1 <= 1)%nat
  /\ length [2; 4]%Q = (1 * (2 * 1))%nat /\ length [0; 1]%Q = (1 * (2 * 1))%nat
  /\ (1 <= 1)%nat /\ (1 <= 2)%nat
  /\ length [2; 4]%Q = (1 * 2)%nat /\ length [0; 1]%Q = (1 * 2)%nat
  /\ VoiceBox.loss (mkTensor [1; 2; 1]%nat [2; 4]%Q) (Some (mkTensor [1; 2; 1]%nat [0; 1]%Q))
       (Some (mkTensor [1; 2]%nat [true; false]))
     = Ok (scalar (9 # 1)%Q)
  /\ DurationPredictor.loss (mkTensor [1; 2]%nat [2; 4]%Q)
       (Some (mkTensor [1; 2]%nat [0; 1]%Q)) (Some (mkTensor [1; 2]%nat [true; false]))
     = Ok (scalar (3 # 1)%Q)
  /\ (exists q, scalar (9 # 1)%Q = scalar q /\ (0 <= q)%Q)
  /\ (exists q, scalar (3 # 1)%Q = scalar q /\ (0 <= q)%Q).
Proof.
  assert (L1 : (1 <= 1)%nat) by lia.
  assert (L2 : (1 <= 2)%nat) by lia.
  assert (Hv : VoiceBox.loss (mkTensor [1; 2; 1]%nat [2; 4]%Q)
                 (Some (mkTensor [1; 2; 1]%nat [0; 1]%Q))
                 (Some (mkTensor [1; 2]%nat [true; false]))
               = Ok (scalar (9 # 1)%Q)) by (vm_compute; reflexivity).
  assert (Hd : DurationPredictor.loss (mkTensor [1; 2]%nat [2; 4]%Q)
                 (Some (mkTensor [1; 2]%nat [0; 1]%Q))
                 (Some (mkTensor [1; 2]%nat [true; false]))
               = Ok (scalar (3 # 1)%Q)) by (vm_compute; reflexivity).
  split; [exact L1|]. split; [exact L2|]. split; [exact L1|].
  split; [reflexivity|]. split; [reflexivity|].
  split; [exact L1|]. split; [exact L2|].
  split; [reflexivity|]. split; [reflexivity|].
  split; [exact Hv|]. split; [exact Hd|].
  exact (loss_is_nonnegative_scalar 1 2 1 [2; 4]%Q [0; 1]%Q
           (Some (mkTensor [1; 2]%nat [true; false])) (scalar (9 # 1)%Q)
           1 2 [2; 4]%Q [0; 1]%Q
           (Some (mkTensor [1; 2]%nat [true; false])) (scalar (3 # 1)%Q)
           L1 L2 L1 eq_refl eq_refl L1 L2 eq_refl eq_refl Hv Hd).
Defined.

Lemma fst_bind_ok_inv {A B} (m : M A) (k : A -> M B) (w : world) (b : B) :
  fst (bind m k w) = Ok b ->
  exists a w1, m w = (Ok a, w1) /\ fst (k a w1) = Ok b.
Proof.
  unfold bind. destruct (m w) as [[a|e] w1]; intros H; [|discriminate].
  exists a, w1. split; [reflexivity|exact H].
Qed.

Tactic Notation "bind_inv" hyp(H) "as" simple_intropattern(p) :=
  apply fst_bind_ok_inv in H; destruct H as (p & ? & _ & H).
Tactic Notation "bind_inv" hyp(H) := bind_inv H as ?.

Lemma VoiceBox_forward_loss_nonneg (N : Numerics) (vb : VoiceBox.t)
  (x : tensor Q) (phoneme_ids : tensor Z) (cond times : tensor Q)
  (cond_drop_prob : Q) (tg : tensor Q) (mask : option (tensor bool))
  (w : world) (r : tensor Q) :
  fst (VoiceBox.forward vb x phoneme_ids cond times cond_drop_prob (Some tg) mask w)
  = Ok r ->
  exists q, r = scalar q /\ (0 <= q)%Q.
Proof.
  intros H. unfold VoiceBox.forward in H.
  bind_inv H as [[batch seq_len] cond_dim].
  do 4 bind_inv H.
  bind_inv H as [cond' ids'].
  do 6 bind_inv H.
  bind_inv H as [xp ps].
  do 4 bind_inv H.
  cbn [exists_ negb] in H. unfold lift in H. cbn [fst] in H.
  eapply VoiceBox_loss_nonneg. exact H.
Qed.

(** X13. Training: whenever [VoiceBox.forward] with a target, or the wrapper's
    [forward] (which always passes the flow as target), returns, the result
    is a zero-dimensional tensor holding a non-negative loss. *)
Theorem training_loss_is_nonnegative_scalar (N : Numerics)
  (self : ConditionalFlowMatcherWrapper.t)
  (x x1 : tensor Q) (phoneme_ids : tensor Z) (cond times : tensor Q)
  (cond_drop_prob : Q) (tg : tensor Q) (mask : option (tensor bool))
  (w : world) (rv rw : tensor Q) :
  fst (VoiceBox.forward (ConditionalFlowMatcherWrapper.voicebox self)
         x phoneme_ids cond times cond_drop_prob (Some tg) mask w) = Ok rv ->
  fst (ConditionalFlowMatcherWrapper.forward self x1 phoneme_ids cond mask w) = Ok rw ->
  (exists q, rv = scalar q /\ (0 <= q)%Q)
  /\ (exists q, rw = scalar q /\ (0 <= q)%Q).
Proof.
  intros Hv Hw. split.
  - eapply VoiceBox_forward_loss_nonneg. exact Hv.
  - unfold ConditionalFlowMatcherWrapper.forward in Hw.
    bind_inv Hw as [batch seq_len].
    do 5 bind_inv Hw.
    eapply VoiceBox_forward_loss_nonneg. exact Hw.
Qed.

Lemma training_loss_is_nonnegative_scalar_witness :
  fst (VoiceBox.forward (N := wide_numerics)
         (ConditionalFlowMatcherWrapper.voicebox
            (ConditionalFlowMatcherWrapper.init handmade_voicebox 0 (1 # 100000)
               (1 # 100000) (1 # 16) false "midpoint" "Tsit5" 0))
         (mkTensor [1; 2; 1]%nat [1; 2]%Q) (mkTensor [1; 2]%nat [7; 8])
         (mkTensor [1; 2; 1]%nat [3; 4]%Q) (scalar (1 # 2)%Q) 0
         (Some (mkTensor [1; 2; 1]%nat [1; 2]%Q)) None (constant_world 0 0))
  = Ok (scalar (236 # 3)%Q)
  /\ fst (ConditionalFlowMatcherWrapper.forward (N := wide_numerics)
            (ConditionalFlowMatcherWrapper.init handmade_voicebox 0 (1 # 100000)
               (1 # 100000) (1 # 16) false "midpoint" "Tsit5" 0)
            (mkTensor [1; 2; 1]%nat [1; 2]%Q) (mkTensor [1; 2]%nat [7; 8])
            (mkTensor [1; 2; 1]%nat [3; 4]%Q) None (constant_world 0 0))
     = Ok (scalar (236 # 3)%Q)
  /\ (exists q, scalar (236 # 3)%Q = scalar q /\ (0 <= q)%Q)
  /\ (exists q, scalar (236 # 3)%Q = scalar q /\ (0 <= q)%Q).
Proof.
  pose proof (training_loss_is_nonnegative_scalar wide_numerics
    (ConditionalFlowMatcherWrapper.init handmade_voicebox 0 (1 # 100000)
       (1 # 100000) (1 # 16) false "midpoint" "Tsit5" 0)
    (mkTensor [1; 2; 1]%nat [1; 2]%Q) (mkTensor [1; 2; 1]%nat [1; 2]%Q)
    (mkTensor [1; 2]%nat [7; 8]) (mkTensor [1; 2; 1]%nat [3; 4]%Q)
    (scalar (1 # 2)%Q) 0 (mkTensor [1; 2; 1]%nat [1; 2]%Q) None
    (constant_world 0 0) (scalar (236 # 3)%Q)
    (scalar (236 # 3)%Q)) as H.
  assert (Hv : fst (VoiceBox.forward (N := wide_numerics)
         (ConditionalFlowMatcherWrapper.voicebox
            (ConditionalFlowMatcherWrapper.init handmade_voicebox 0 (1 # 100000)
               (1 # 100000) (1 # 16) false "midpoint" "Tsit5" 0))
         (mkTensor [1; 2; 1]%nat [1; 2]%Q) (mkTensor [1; 2]%nat [7; 8])
         (mkTensor [1; 2; 1]%nat [3; 4]%Q) (scalar (1 # 2)%Q) 0
         (Some (mkTensor [1; 2; 1]%nat [1; 2]%Q)) None (constant_world 0 0))
       = Ok (scalar (236 # 3)%Q)) by (vm_compute; reflexivity).
  assert (Hw : fst (ConditionalFlowMatcherWrapper.forward (N := wide_numerics)
            (ConditionalFlowMatcherWrapper.init handmade_voicebox 0 (1 # 100000)
               (1 # 100000) (1 # 16) false "midpoint" "Tsit5" 0)
            (mkTensor [1; 2; 1]%nat [1; 2]%Q) (mkTensor [1; 2]%nat [7; 8])
            (mkTensor [1; 2; 1]%nat [3; 4]%Q) None (constant_world 0 0))
          = Ok (scalar (236 # 3)%Q)) by (vm_compute; reflexivity).
  split; [exact Hv|]. split; [exact Hw|]. exact (H Hv Hw).
Defined.

(** ** Conditioning dropout *)

Lemma concat_repeat_concat {A} (l : list A) (n b : nat) :
  concat (repeat (concat (repeat l n)) b) = concat (repeat l (b * n)).
Proof.
  induction b as [|b IH]; simpl; [reflexivity|].
  now rewrite IH, repeat_app, concat_app.
Qed.

Lemma concat_repeat_one_or_more {A} (l : list A) (n : nat) :
  (if (1 =? n)%nat then concat [l] else concat (repeat (hd [] [l]) n))
  = concat (repeat l n).
Proof.
  destruct (1 =? n)%nat eqn:E; [|reflexivity].
  apply Nat.eqb_eq in E. subst n. reflexivity.
Qed.

Lemma chunks_whole {A} (m : nat) (l : list A) :
  length l = m -> chunks m 1 l = [l].
Proof. intros <-. simpl. now rewrite firstn_all. Qed.

Lemma expand_aligned_vector {A} (b n : nat) (v : list A) :
  expand_aligned [1; 1; length v]%nat [b; n; length v] v = concat (repeat v (b * n)).
Proof.
  assert (E2 : expand_aligned [1; length v]%nat [n; length v] v = concat (repeat v n)).
  { change (expand_aligned [1; length v]%nat [n; length v] v)
      with (let rows := map (expand_aligned [length v] [length v])
                            (chunks (numel [length v]) 1 v) in
            if (1 =? n)%nat then concat rows else concat (repeat (hd [] rows) n)).
    cbv zeta. rewrite chunks_whole by (simpl; lia).
    cbn [map]. rewrite expand_aligned_id by (simpl; lia).
    apply concat_repeat_one_or_more. }
  change (expand_aligned [1; 1; length v]%nat [b; n; length v] v)
    with (let rows := map (expand_aligned [1; length v]%nat [n; length v])
                          (chunks (numel [1; length v]%nat) 1 v) in
          if (1 =? b)%nat then concat rows else concat (repeat (hd [] rows) b)).
  cbv zeta. rewrite chunks_whole by (simpl; lia).
  cbn [map]. rewrite E2, concat_repeat_one_or_more.
  apply concat_repeat_concat.
Qed.

Lemma expand_vector {A} (b n : nat) (v : list A) :
  expand (mkTensor [length v] v) [b; n; length v]
  = Ok (mkTensor [b; n; length v] (concat (repeat v (b * n)))).
Proof.
  unfold expand, pad_left. cbn [shape length Nat.sub repeat app data Nat.leb].
  assert (E : expandable [1; 1; length v]%nat [b; n; length v] = true).
  { simpl. now rewrite Nat.eqb_refl, !Bool.orb_true_r. }
  rewrite E. cbn [andb]. now rewrite expand_aligned_vector.
Qed.

Lemma expand_scalar {A} (b n : nat) (v : A) :
  expand (scalar v) [b; n] = Ok (mkTensor [b; n] (repeat v (b * n))).
Proof.
  unfold expand, pad_left, scalar. cbn [shape length Nat.sub repeat app data Nat.leb].
  assert (E : expandable [1; 1]%nat [b; n] = true)
    by (simpl; now rewrite !Bool.orb_true_r).
  rewrite E. cbn [andb]. now rewrite expand_aligned_cell.
Qed.

Lemma broadcast_for_cond (b n d : nat) :
  broadcast_shapes [b; 1; 1]%nat [d] = Ok [b; 1%nat; d]
  /\ broadcast_shapes [b; 1%nat; d] [b; n; d] = Ok [b; n; d].
Proof.
  unfold broadcast_shapes, pad_left. simpl.
  rewrite !Nat.eqb_refl.
  destruct d as [|[|d]], n as [|[|n]], b as [|[|b]]; split; reflexivity.
Qed.

Lemma broadcast_for_ids (b n : nat) :
  broadcast_shapes [b; 1%nat] [] = Ok [b; 1%nat]
  /\ broadcast_shapes [b; 1%nat] [b; n] = Ok [b; n].
Proof.
  unfold broadcast_shapes, pad_left. simpl.
  rewrite !Nat.eqb_refl.
  destruct n as [|[|n]], b as [|[|b]]; split; reflexivity.
Qed.

Lemma where_cond (n : nat) (ml : list bool) (null cd : list Q) :
  length cd = (length ml * (n * length null))%nat ->
  where_ (mkTensor [length ml; 1; 1]%nat ml) (mkTensor [length null] null)
         (mkTensor [length ml; n; length null] cd)
  = Ok (mkTensor [length ml; n; length null]
          (zip_with3 (fun x y z => if x : bool then y else z)
             (flat_map (fun v => repeat v (n * length null)) ml)
             (concat (repeat null (length ml * n))) cd)).
Proof.
  intros Hcd. unfold where_. cbn [shape].
  destruct (broadcast_for_cond (length ml) n (length null)) as [E1 E2].
  rewrite E1. cbn [rbind]. rewrite E2.
  cbn [rbind]. rewrite expand_batch, expand_vector. cbn [rbind].
  rewrite expand_same by (rewrite numel_3d; exact Hcd). reflexivity.
Qed.

Lemma where_ids (n : nat) (ml : list bool) (null_id : Z) (ids : list Z) :
  length ids = (length ml * n)%nat ->
  where_ (mkTensor [length ml; 1%nat] ml) (scalar null_id)
         (mkTensor [length ml; n] ids)
  = Ok (mkTensor [length ml; n]
          (zip_with3 (fun x y z => if x : bool then y else z)
             (flat_map (fun v => repeat v n) ml)
             (repeat null_id (length ml * n)) ids)).
Proof.
  intros Hids. unfold where_. cbn [shape scalar].
  destruct (broadcast_for_ids (length ml) n) as [E1 E2].
  rewrite E1. cbn [rbind]. rewrite E2.
  cbn [rbind]. rewrite expand_column.
  change (mkTensor [] [null_id]) with (scalar null_id). rewrite expand_scalar.
  cbn [rbind].
  rewrite expand_same by (simpl; lia). reflexivity.
Qed.

Lemma nth_zip_with3 {A B C D} (f : A -> B -> C -> D)
  (l1 : list A) (l2 : list B) (l3 : list C) (i : nat)
  (da : A) (db : B) (dc : C) (dd : D) :
  (i < length l1)%nat -> (i < length l2)%nat -> (i < length l3)%nat ->
  nth i (zip_with3 f l1 l2 l3) dd = f (nth i l1 da) (nth i l2 db) (nth i l3 dc).
Proof.
  revert l2 l3 i; induction l1 as [|a l1 IH]; intros [|b l2] [|c l3] [|i] H1 H2 H3;
    simpl in *; try lia; [reflexivity|].
  apply IH; lia.
Qed.

Lemma nth_concat_repeat {A} (v : list A) (m q k : nat) (dflt : A) :
  (q < m)%nat -> (k < length v)%nat ->
  nth (q * length v + k) (concat (repeat v m)) dflt = nth k v dflt.
Proof.
  intros Hq Hk. rewrite (nth_concat_const _ (length v)).
  - rewrite (nth_indep _ [] v) by (rewrite repeat_length; exact Hq).
    now rewrite nth_repeat.
  - apply Forall_repeat_list. reflexivity.
  - exact Hk.
Qed.

Lemma prob_mask_like_batch (b : nat) (prob : Q) (w : world) :
  exists ml w',
    prob_mask_like [b] prob w = (Ok (mkTensor [b] ml), w')
    /\ length ml = b
    /\ ((prob == 1)%Q -> ml = repeat true b /\ w' = w).
Proof.
  unfold prob_mask_like.
  destruct (Qeq_bool prob 1) eqn:E1.
  - eexists. eexists. split; [reflexivity|]. rewrite numel_1d.
    split; [apply repeat_length|]. intros _. split; reflexivity.
  - assert (Hne : ~ (prob == 1)%Q).
    { intros H. apply Qeq_bool_iff in H. congruence. }
    destruct (Qeq_bool prob 0).
    + eexists. eexists. split; [reflexivity|]. rewrite numel_1d.
      split; [apply repeat_length|]. intros H. contradiction.
    + unfold bind, uniform_. change (Qle_bool 0 1) with true. cbv iota.
      unfold ret, tmap. cbn [shape data].
      eexists. eexists. split; [reflexivity|].
      split; [now rewrite !length_map, length_seq, numel_1d|].
      intros H. contradiction.
Qed.

Lemma length_flat_map_repeat {A} (l : list A) (m : nat) :
  length (flat_map (fun v => repeat v m) l) = (length l * m)%nat.
Proof.
  induction l as [|a l IH]; simpl; [reflexivity|].
  rewrite length_app, repeat_length, IH. reflexivity.
Qed.

Lemma length_concat_repeat {A} (v : list A) (m : nat) :
  length (concat (repeat v m)) = (m * length v)%nat.
Proof.
  induction m as [|m IH]; simpl; [reflexivity|].
  rewrite length_app, IH. reflexivity.
Qed.

Lemma drop_condition_ok (b n d : nat) (prob : Q) (null : list Q) (null_id : Z)
  (cd : list Q) (ids : list Z) (w : world) :
  length null = d -> length cd = (b * (n * d))%nat -> length ids = (b * n)%nat ->
  exists dec cd' ids' w',
    drop_condition b prob (mkTensor [d] null) null_id
      (mkTensor [b; n; d] cd) (mkTensor [b; n] ids) w
    = (Ok (mkTensor [b; n; d] cd', mkTensor [b; n] ids'), w')
    /\ length dec = b
    /\ (forall i j k, (i < b)%nat -> (j < n)%nat -> (k < d)%nat ->
          nth (i * (n * d) + (j * d + k)) cd' 0%Q
          = if nth i dec false then nth k null 0%Q
            else nth (i * (n * d) + (j * d + k)) cd 0%Q)
    /\ (forall i j, (i < b)%nat -> (j < n)%nat ->
          nth (i * n + j) ids' 0%Z
          = if nth i dec false then null_id else nth (i * n + j) ids 0%Z)
    /\ ((prob <= 0)%Q -> dec = repeat false b /\ w' = w)
    /\ ((prob == 1)%Q -> dec = repeat true b /\ w' = w).
Proof.
  intros Hnull Hcd Hids. unfold drop_condition.
  destruct (Qle_bool prob 0) eqn:E0; cbn [negb].
  - apply Qle_bool_iff in E0.
    exists (repeat false b), cd, ids, w.
    split; [reflexivity|]. split; [apply repeat_length|].
    split; [|split; [|split]].
    + intros i j k Hi Hj Hk.
      now rewrite nth_repeat.
    + intros i j Hi Hj. now rewrite nth_repeat.
    + intros _. split; reflexivity.
    + intros H1. rewrite H1 in E0. exfalso. revert E0. apply Qlt_not_le. reflexivity.
  - assert (Hpos : ~ (prob <= 0)%Q).
    { intros H. apply Qle_bool_iff in H. congruence. }
    destruct (prob_mask_like_batch b prob w) as [ml [w' [Hm [Hlen H1]]]].
    subst b d.
    exists ml.
    eexists. eexists. exists w'.
    split.
    { unfold bind at 1. rewrite Hm. cbn [shape data app].
      unfold bind at 1, lift.
      rewrite (where_cond n ml null cd Hcd).
      unfold bind at 1.
      rewrite (where_ids n ml null_id ids Hids).
      unfold ret. reflexivity. }
    split; [reflexivity|].
    split; [|split; [|split]].
    + intros i j k Hi Hj Hk.
      assert (Hq : (i * n + j < length ml * n)%nat) by nia.
      assert (Hjk : (j * length null + k < n * length null)%nat) by nia.
      rewrite (nth_zip_with3 _ _ _ _ _ false 0%Q 0%Q).
      * rewrite nth_flat_map_repeat by exact Hjk.
        replace (i * (n * length null) + (j * length null + k))%nat
          with ((i * n + j) * length null + k)%nat by nia.
        rewrite nth_concat_repeat by assumption. reflexivity.
      * rewrite length_flat_map_repeat. nia.
      * rewrite length_concat_repeat. nia.
      * rewrite Hcd. nia.
    + intros i j Hi Hj.
      rewrite (nth_zip_with3 _ _ _ _ _ false 0%Z 0%Z).
      * rewrite nth_flat_map_repeat by exact Hj.
        rewrite (nth_indep _ 0%Z null_id) by (rewrite repeat_length; nia).
        rewrite nth_repeat. reflexivity.
      * rewrite length_flat_map_repeat. nia.
      * rewrite repeat_length. nia.
      * rewrite Hids. nia.
    + intros H. contradiction.
    + exact H1.
Qed.

(** X14. The conditioning dropout of classifier-free guidance decides per
    batch item.  For a null conditioning of width [d], a conditioning of
    shape (b, n, d) and phoneme ids of shape (b, n), [drop_condition]
    succeeds and keeps both shapes; there is one decision per batch item,
    and item [i] either keeps all its frames and ids or has every frame
    replaced by the null conditioning and every id by the null phoneme id,
    the same decision for frames and ids.  With a drop probability of at
    most 0 nothing is dropped, with probability 1 every item is dropped, and
    in both cases no random number is drawn. *)
Theorem drop_condition_per_item (b n d : nat) (prob : Q) (null : list Q)
  (null_id : Z) (cd : list Q) (ids : list Z) (w : world) :
  length null = d -> length cd = (b * (n * d))%nat -> length ids = (b * n)%nat ->
  exists dec cd' ids' w',
    drop_condition b prob (mkTensor [d] null) null_id
      (mkTensor [b; n; d] cd) (mkTensor [b; n] ids) w
    = (Ok (mkTensor [b; n; d] cd', mkTensor [b; n] ids'), w')
    /\ length dec = b
    /\ (forall i j k, (i < b)%nat -> (j < n)%nat -> (k < d)%nat ->
          nth (i * (n * d) + (j * d + k)) cd' 0%Q
          = if nth i dec false then nth k null 0%Q
            else nth (i * (n * d) + (j * d + k)) cd 0%Q)
    /\ (forall i j, (i < b)%nat -> (j < n)%nat ->
          nth (i * n + j) ids' 0%Z
          = if nth i dec false then null_id else nth (i * n + j) ids 0%Z)
    /\ ((prob <= 0)%Q -> dec = repeat false b /\ w' = w)
    /\ ((prob == 1)%Q -> dec = repeat true b /\ w' = w).
Proof. exact (drop_condition_ok b n d prob null null_id cd ids w). Qed.

Lemma drop_condition_per_item_witness :
  exists dec cd' ids' w',
    drop_condition 2 (1 # 2) (mkTensor [2%nat] [100; 200]%Q) 9
      (mkTensor [2; 1; 2]%nat [1; 2; 3; 4]%Q) (mkTensor [2; 1]%nat [7; 8]%Z)
      (constant_world 0 (1 # 4))
    = (Ok (mkTensor [2; 1; 2]%nat cd', mkTensor [2; 1]%nat ids'), w')
    /\ length dec = 2%nat
    /\ (forall i j k, (i < 2)%nat -> (j < 1)%nat -> (k < 2)%nat ->
          nth (i * (1 * 2) + (j * 2 + k)) cd' 0%Q
          = if nth i dec false then nth k [100; 200]%Q 0%Q
            else nth (i * (1 * 2) + (j * 2 + k)) [1; 2; 3; 4]%Q 0%Q)
    /\ (forall i j, (i < 2)%nat -> (j < 1)%nat ->
          nth (i * 1 + j) ids' 0%Z
          = if nth i dec false then 9%Z else nth (i * 1 + j) [7; 8]%Z 0%Z)
    /\ ((1 # 2 <= 0)%Q -> dec = repeat false 2 /\ w' = constant_world 0 (1 # 4))
    /\ ((1 # 2 == 1)%Q -> dec = repeat true 2 /\ w' = constant_world 0 (1 # 4)).
Proof.
  apply (drop_condition_per_item 2 1 2 (1 # 2) [100; 200]%Q 9 [1; 2; 3; 4]%Q
           [7; 8]%Z (constant_world 0 (1 # 4))); reflexivity.
Defined.

(** ** The transformer *)

Lemma new_inv {T : Torch} (l l' : layer) : new l = Ok l' -> l' = l.
Proof. unfold new. destruct (torch_rejects l); congruence. Qed.

Lemma rbind_ok_inv {A B} (r : result A) (k : A -> result B) (b : B) :
  rbind r k = Ok b -> exists a, r = Ok a /\ k a = Ok b.
Proof. destruct r; simpl; [eauto | discriminate]. Qed.

Lemma mapM_nth_error {A B} (f : A -> result B) (l : list A) (bs : list B) :
  mapM f l = Ok bs ->
  length bs = length l
  /\ forall i b, nth_error bs i = Some b ->
       exists a, nth_error l i = Some a /\ f a = Ok b.
Proof.
  revert bs; induction l as [|a l IH]; simpl; intros bs H.
  - inversion H. split; [reflexivity|]. intros [|i] b; discriminate.
  - apply rbind_ok_inv in H as [b0 [Hb0 H]].
    apply rbind_ok_inv in H as [bs0 [Hbs0 H]].
    inversion H; subst. destruct (IH _ Hbs0) as [Hl Hn].
    split; [simpl; congruence|].
    intros [|i] b Hb; simpl in *.
    + inversion Hb; subst. eauto.
    + apply Hn; exact Hb.
Qed.

Lemma nth_error_range (n : Z) (i : nat) (a : Z) :
  nth_error (range n) i = Some a -> a = Z.of_nat i /\ (i < Z.to_nat n)%nat.
Proof.
  unfold range. intros H. rewrite nth_error_map in H.
  destruct (nth_error (seq 0 (Z.to_nat n)) i) as [v|] eqn:E; [|discriminate].
  simpl in H. inversion H; subst.
  assert (Hi : (i < length (seq 0 (Z.to_nat n)))%nat)
    by (apply nth_error_Some; congruence).
  rewrite length_seq in Hi.
  apply (nth_error_nth _ _ 0%nat) in E. rewrite seq_nth in E by exact Hi.
  simpl in E. subst. split; [reflexivity|exact Hi].
Qed.

Lemma init_block_skip {T : Torch} (dim depth dim_head heads ff_mult : Z)
  (flash : bool) (ind : Z) (blk : Transformer.block) :
  Transformer.init_block dim depth dim_head heads ff_mult flash ind = Ok blk ->
  Transformer.skip_combiner blk
  = if depth / 2 <? ind + 1 then Some (nn_Linear (dim * 2) dim true) else None.
Proof.
  unfold Transformer.init_block. intros H.
  apply rbind_ok_inv in H as [s [Hs H]].
  apply rbind_ok_inv in H as [a [_ H]].
  apply rbind_ok_inv in H as [f [_ H]].
  inversion H; subst; simpl.
  destruct (depth / 2 <? ind + 1).
  - apply rbind_ok_inv in Hs as [l [Hl Hs]]. apply new_inv in Hl.
    inversion Hs; subst. reflexivity.
  - now inversion Hs.
Qed.

Lemma Transformer_init_inv {T : Torch} (dim depth dim_head heads ff_mult : Z)
  (flash : bool) (m : Transformer.t) :
  Transformer.init dim depth dim_head heads ff_mult flash = Ok m ->
  Z.even depth = true
  /\ length (Transformer.layers m) = Z.to_nat depth
  /\ forall i blk, nth_error (Transformer.layers m) i = Some blk ->
       Transformer.skip_combiner blk
       = if Z.of_nat i <? depth / 2 then None
         else Some (nn_Linear (dim * 2) dim true).
Proof.
  unfold Transformer.init. intros H.
  apply rbind_ok_inv in H as [u [Hu H]].
  apply rbind_ok_inv in H as [r [_ H]].
  apply rbind_ok_inv in H as [ls [Hls H]].
  apply rbind_ok_inv in H as [n [_ H]].
  inversion H; subst; cbn [Transformer.layers].
  destruct (mapM_nth_error _ _ _ Hls) as [Hlen Hnth].
  split; [|split].
  - destruct (Z.even depth) eqn:E; [reflexivity|].
    rewrite divisible_by_2_odd in Hu; [discriminate|].
    rewrite <- Z.negb_even, E. reflexivity.
  - rewrite Hlen. unfold range. now rewrite length_map, length_seq.
  - intros i blk Hb. destruct (Hnth i blk Hb) as [a [Ha Hf]].
    apply nth_error_range in Ha as [-> _].
    rewrite (init_block_skip _ _ _ _ _ _ _ _ Hf).
    destruct (Z.ltb_spec (depth / 2) (Z.of_nat i + 1)),
             (Z.ltb_spec (Z.of_nat i) (depth / 2)); try reflexivity; lia.
Qed.

(** X15. The constructor of the transformer lays out the U-net skip
    connections.  Whenever [Transformer.__init__] returns, [depth] is even,
    there are [depth] blocks, the blocks of the first half have no skip
    combiner and every block of the second half has the linear layer from
    [2 * dim] to [dim]. *)
Theorem Transformer_init_skip_layout {T : Torch}
  (dim depth dim_head heads ff_mult : Z) (flash : bool) (m : Transformer.t) :
  Transformer.init dim depth dim_head heads ff_mult flash = Ok m ->
  Z.even depth = true
  /\ length (Transformer.layers m) = Z.to_nat depth
  /\ forall i blk, nth_error (Transformer.layers m) i = Some blk ->
       Transformer.skip_combiner blk
       = if Z.of_nat i <? depth / 2 then None
         else Some (nn_Linear (dim * 2) dim true).
Proof. apply Transformer_init_inv. Qed.

Lemma same_but_axis_last (pre : list nat) (a b : nat) :
  same_but_axis (length pre) (pre ++ [a]) (pre ++ [b]) = true.
Proof.
  unfold same_but_axis.
  rewrite !firstn_app_exact by reflexivity.
  rewrite !skipn_all2 by (rewrite length_app; simpl; lia).
  assert (E : forall s, shape_eqb s s = true) by (intros s; now apply shape_eqb_iff).
  rewrite !E, !length_app. simpl.
  assert (L : (length pre <? length pre + 1)%nat = true) by (apply Nat.ltb_lt; lia).
  now rewrite L.
Qed.

Lemma cat_last_pair_shape {A} (x t : tensor A) (pre : list nat) (d1 d2 : nat) :
  shape x = pre ++ [d1] -> shape t = pre ++ [d2] ->
  exists y, cat_last [x; t] = Ok y /\ shape y = pre ++ [(d1 + d2)%nat].
Proof.
  intros Hx Ht. unfold cat_last, ndim. rewrite Hx, length_app. simpl length.
  rewrite Nat.add_1_r. unfold cat_axis. cbn [forallb]. rewrite Hx, Ht.
  rewrite !same_but_axis_last. cbn [andb].
  eexists. split; [reflexivity|]. cbn [shape map fold_right].
  rewrite Hx, Ht, firstn_app_exact by reflexivity.
  rewrite skipn_all2 by (rewrite length_app; simpl; lia).
  rewrite !nth_middle, Nat.add_0_r. reflexivity.
Qed.

Lemma bc_binop_keeps_shape {A B C} (f : A -> B -> C) (a : tensor A) (b : tensor B) :
  shape a = shape b -> exists y, bc_binop f a b = Ok y /\ shape y = shape b.
Proof.
  intros H. unfold bc_binop, broadcast_shapes. rewrite H.
  rewrite Nat.max_id, pad_left_same, broadcast_aligned_refl. cbn [rbind].
  unfold expand. rewrite H, pad_left_same, Nat.leb_refl, expandable_refl.
  cbn [andb rbind]. eexists. split; reflexivity.
Qed.

Lemma Transformer_layers_keep_shape {N : Numerics} {B : Blocks}
  (dim : Z) (k : nat) (rot : tensor Q) (pre : list nat) :
  shape_contract N B ->
  forall (layers : list Transformer.block) (off : nat)
         (stack : list (tensor Q)) (x : tensor Q),
    shape x = pre ++ [Z.to_nat dim] ->
    Forall (fun t => shape t = pre ++ [Z.to_nat dim]) stack ->
    (forall j blk, nth_error layers j = Some blk ->
       Transformer.skip_combiner blk
       = if (off + j <? k)%nat then None else Some (nn_Linear (dim * 2) dim true)) ->
    (off + length layers - Nat.max k off
     <= length stack + (Nat.min k (off + length layers) - Nat.min k off))%nat ->
    exists y, Transformer_layers rot layers stack x = Ok y
              /\ shape y = pre ++ [Z.to_nat dim].
Proof.
  intros [_ [Hattn [Hff [_ Hlin]]]].
  induction layers as [|blk layers IH]; intros off stack x Hx Hst Hskip Hbal.
  - eexists. split; [reflexivity|exact Hx].
  - cbn [Transformer_layers].
    assert (Hrest : forall xs : tensor Q * list (tensor Q),
              shape (fst xs) = pre ++ [Z.to_nat dim] ->
              Forall (fun t => shape t = pre ++ [Z.to_nat dim]) (snd xs) ->
              (S off + length layers - Nat.max k (S off)
               <= length (snd xs)
                  + (Nat.min k (S off + length layers) - Nat.min k (S off)))%nat ->
              exists y,
                (let x := fst xs in
                 let* a := Attention_forward (Transformer.attn blk) x rot in
                 let* x := bc_binop Qplus a x in
                 let* f := FeedForward_forward (Transformer.ff blk) x in
                 let* x := bc_binop Qplus f x in
                 Transformer_layers rot layers (snd xs) x) = Ok y
                /\ shape y = pre ++ [Z.to_nat dim]).
    { intros [x1 st1] Hx1 Hst1 Hbal1. cbn [fst snd] in *. cbv zeta.
      destruct (Hattn (Transformer.attn blk) rot x1) as [a [Ea Ha]].
      cbv beta in Ea. rewrite Ea. cbn [rbind].
      destruct (bc_binop_keeps_shape Qplus a x1 Ha) as [x2 [E2 H2]].
      rewrite E2. cbn [rbind].
      destruct (Hff (Transformer.ff blk) x2) as [f [Ef Hf]].
      rewrite Ef. cbn [rbind].
      destruct (bc_binop_keeps_shape Qplus f x2 Hf) as [x3 [E3 H3]].
      rewrite E3. cbn [rbind].
      apply (IH (S off)).
      - congruence.
      - exact Hst1.
      - intros j b Hb. rewrite (Hskip (S j) b Hb).
        now replace (off + S j)%nat with (S off + j)%nat by lia.
      - exact Hbal1. }
    pose proof (Hskip 0%nat blk eq_refl) as H0. rewrite Nat.add_0_r in H0.
    rewrite H0. cbn [length] in Hbal.
    destruct (Nat.ltb_spec off k) as [Hlt|Hge].
    + cbn [rbind]. apply Hrest; cbn [fst snd length].
      * exact Hx.
      * constructor; assumption.
      * lia.
    + destruct stack as [|top below]; [cbn [length] in Hbal; lia|].
      inversion Hst as [|? ? Htop Hbelow]; subst.
      destruct (cat_last_pair_shape x top pre _ _ Hx Htop) as [c [Ec Hc]].
      rewrite Ec. cbn [rbind].
      replace (Z.to_nat dim + Z.to_nat dim)%nat with (Z.to_nat (dim * 2)) in Hc by lia.
      destruct (Hlin (dim * 2) dim true c pre Hc) as [y [Ey Hy]].
      rewrite Ey. cbn [rbind]. apply Hrest; cbn [fst snd length] in *.
      * exact Hy.
      * exact Hbelow.
      * lia.
Qed.

Lemma penultimate_dim_ok {A} (x : tensor A) (pre : list nat) (n d : nat) :
  shape x = pre ++ [n; d] -> penultimate_dim x = Ok n.
Proof.
  intros H. unfold penultimate_dim. rewrite H, rev_app_distr. reflexivity.
Qed.

Lemma Transformer_forward_shape {T : Torch} {N : Numerics} {B : Blocks}
  (dim depth dim_head heads ff_mult : Z) (flash : bool) (m : Transformer.t)
  (x : tensor Q) (pre : list nat) (n : nat) :
  shape_contract N B ->
  Transformer.init dim depth dim_head heads ff_mult flash = Ok m ->
  shape x = pre ++ [n; Z.to_nat dim] ->
  exists y, Transformer_forward_body m x = Ok y /\ shape y = shape x.
Proof.
  intros HC Hm Hx. unfold Transformer_forward_body.
  rewrite (penultimate_dim_ok x pre n _ Hx). cbn [rbind].
  pose proof HC as [Hrot [_ [_ [Hnorm _]]]].
  destruct (Hrot (Transformer.rotary_emb m) n) as [rot ->]. cbn [rbind].
  destruct (Transformer_init_inv _ _ _ _ _ _ _ Hm) as [He [Hlen Hskip]].
  assert (Hx' : shape x = (pre ++ [n]) ++ [Z.to_nat dim])
    by (rewrite Hx, <- app_assoc; reflexivity).
  destruct (Transformer_layers_keep_shape dim (Z.to_nat (depth / 2)) rot
              (pre ++ [n]) HC (Transformer.layers m) 0%nat [] x Hx')
    as [y [Ey Hy]].
  - constructor.
  - intros j blk Hb. rewrite (Hskip j blk Hb). cbn [Nat.add].
    destruct (Z.ltb_spec (Z.of_nat j) (depth / 2)),
             (Nat.ltb_spec j (Z.to_nat (depth / 2))); try reflexivity; lia.
  - rewrite Hlen. cbn [length].
    assert (Hd : depth = 2 * (depth / 2)).
    { apply Zeven_bool_iff in He. apply Zeven_div2 in He.
      rewrite Z.div2_div in He. exact He. }
    lia.
  - rewrite Ey. cbn [rbind].
    destruct (Hnorm (Transformer.final_norm m) y) as [z [Ez Hz]].
    exists z. split; [exact Ez|]. congruence.
Qed.

Lemma Transformer_init_skip_layout_witness :
  @Transformer.init sane_torch 4 2 2 1 1 false = Ok small_transformer
  /\ Z.even 2 = true
  /\ length (Transformer.layers small_transformer) = Z.to_nat 2
  /\ forall i blk, nth_error (Transformer.layers small_transformer) i = Some blk ->
       Transformer.skip_combiner blk
       = if Z.of_nat i <? 2 / 2 then None else Some (nn_Linear (4 * 2) 4 true).
Proof.
  assert (H : @Transformer.init sane_torch 4 2 2 1 1 false = Ok small_transformer)
    by reflexivity.
  split; [exact H|].
  exact (@Transformer_init_skip_layout sane_torch 4 2 2 1 1 false small_transformer H).
Defined.

Lemma plain_shape_contract : shape_contract zero_linear_numerics plain_blocks.
Proof.
  unfold shape_contract, keeps_shape. cbn.
  split; [|split; [|split; [|split]]].
  - intros _ n. eexists; reflexivity.
  - intros _ _ x. exists x. split; reflexivity.
  - intros _ x. exists x. split; reflexivity.
  - intros _ x. exists x. split; reflexivity.
  - intros i o b x pre Hx. eexists. split; [reflexivity|].
    cbn [shape]. now rewrite Hx, removelast_last.
Qed.

(** X16. The skip connections of the transformer are balanced and the widths
    fit.  For a transformer returned by the constructor, kernels that keep
    the shape of their input and a linear layer that maps the last
    dimension from its input width to its output width, [Transformer.forward]
    returns a tensor of the shape of its input (of at least two dimensions,
    the last of size [dim]): every [skip_connects.pop()] finds a tensor
    pushed by a block of the first half, and the concatenation has the
    width [2 * dim] that the skip combiner expects. *)
Theorem Transformer_forward_keeps_shape {T : Torch} {N : Numerics} {B : Blocks}
  (dim depth dim_head heads ff_mult : Z) (flash : bool) (m : Transformer.t)
  (x : tensor Q) (pre : list nat) (n : nat) :
  shape_contract N B ->
  Transformer.init dim depth dim_head heads ff_mult flash = Ok m ->
  shape x = pre ++ [n; Z.to_nat dim] ->
  exists y, Transformer_forward_body m x = Ok y /\ shape y = shape x.
Proof. apply Transformer_forward_shape. Qed.

Lemma Transformer_forward_keeps_shape_witness :
  shape_contract zero_linear_numerics plain_blocks
  /\ @Transformer.init sane_torch 4 2 2 1 1 false = Ok small_transformer
  /\ shape (mkTensor [1; 1; 4]%nat [1; 2; 3; 4]%Q) = [1%nat] ++ [1%nat; Z.to_nat 4]
  /\ exists y,
       @Transformer_forward_body zero_linear_numerics plain_blocks small_transformer
         (mkTensor [1; 1; 4]%nat [1; 2; 3; 4]%Q) = Ok y
       /\ shape y = shape (mkTensor [1; 1; 4]%nat [1; 2; 3; 4]%Q).
Proof.
  assert (H : @Transformer.init sane_torch 4 2 2 1 1 false = Ok small_transformer)
    by reflexivity.
  split; [exact plain_shape_contract|]. split; [exact H|]. split; [reflexivity|].
  exact (@Transformer_forward_keeps_shape sane_torch zero_linear_numerics plain_blocks
           4 2 2 1 1 false small_transformer (mkTensor [1; 1; 4]%nat [1; 2; 3; 4]%Q)
           [1%nat] 1%nat plain_shape_contract H eq_refl).
Defined.

(** ** Rotary positional embedding *)

Lemma cat_last_2d {A} (n m1 m2 : nat) (d1 d2 : list A) :
  cat_last [mkTensor [n; m1] d1; mkTensor [n; m2] d2]
  = Ok (mkTensor [n; (m1 + m2)%nat] (interleave n [(m1, d1); (m2, d2)])).
Proof.
  unfold cat_last, ndim. cbn [shape length]. unfold cat_axis.
  cbn [forallb shape].
  change (same_but_axis 1 [n; m1] [n; m1])
    with (same_but_axis (length [n]) ([n] ++ [m1]) ([n] ++ [m1])).
  change (same_but_axis 1 [n; m1] [n; m2])
    with (same_but_axis (length [n]) ([n] ++ [m1]) ([n] ++ [m2])).
  rewrite !same_but_axis_last.
  cbn [andb shape firstn skipn app map nth fold_right numel data].
  now rewrite !Nat.mul_1_r, !Nat.add_0_r.
Qed.

Lemma length_flat_map_const {A B} (f : A -> list B) (l : list A) (m : nat) :
  (forall a, length (f a) = m) -> length (flat_map f l) = (length l * m)%nat.
Proof.
  intros Hf. induction l as [|a l IH]; simpl; [reflexivity|].
  now rewrite length_app, Hf, IH.
Qed.

Lemma interleave_two_head {A} (n m1 m2 : nat) (u1 r1 u2 r2 : list A) :
  length u1 = m1 -> length u2 = m2 ->
  interleave (S n) [(m1, u1 ++ r1); (m2, u2 ++ r2)]
  = (u1 ++ u2) ++ interleave n [(m1, r1); (m2, r2)].
Proof.
  intros H1 H2. cbn [interleave flat_map map fst snd].
  rewrite !firstn_app_exact, !skipn_app_exact by assumption.
  now rewrite app_nil_r.
Qed.

Lemma RotaryEmbedding_table_first_row (inv_freq : list Q) (n : nat) :
  exists rest,
    RotaryEmbedding_table inv_freq (S n)
    = Ok (mkTensor [S n; (length inv_freq + length inv_freq)%nat]
            ((map (fun f => (0 * f)%Q) inv_freq ++ map (fun f => (0 * f)%Q) inv_freq)
             ++ rest))
    /\ length rest = (n * (length inv_freq + length inv_freq))%nat.
Proof.
  unfold RotaryEmbedding_table, arange.
  assert (E : (Z.of_nat (S n) <? 0) = false) by (apply Z.ltb_ge; lia).
  rewrite E, Nat2Z.id. cbn [rbind shape data app].
  rewrite cat_last_2d. cbn [seq map flat_map].
  change (inject_Z (Z.of_nat 0)) with 0%Q.
  rewrite interleave_two_head by apply length_map.
  eexists. split; [reflexivity|].
  set (F := flat_map _ _).
  assert (HF : length F = (n * length inv_freq)%nat).
  { unfold F. rewrite (length_flat_map_const _ _ (length inv_freq)).
    - now rewrite length_map, length_seq.
    - intros a. apply length_map. }
  destruct (interleave_two_rows n (length inv_freq) (length inv_freq) F F HF HF)
    as (_ & _ & E3).
  exact E3.
Qed.

Lemma length_chunks {A} (m k : nat) (d : list A) : length (chunks m k d) = k.
Proof. revert d; induction k as [|k IH]; intros d; simpl; [reflexivity|]. now rewrite IH. Qed.

Lemma length_flat_map_Forall {A B} (f : A -> list B) (l : list A) (m : nat) :
  Forall (fun a => length (f a) = m) l -> length (flat_map f l) = (length l * m)%nat.
Proof.
  induction 1 as [|a l Ha _ IH]; simpl; [reflexivity|].
  now rewrite length_app, Ha, IH.
Qed.

Lemma length_halves {A} (n m : nat) (d : list A) :
  length d = (n * (m + m))%nat ->
  length (flat_map (firstn m) (chunks (m + m) n d)) = (n * m)%nat
  /\ length (flat_map (skipn m) (chunks (m + m) n d)) = (n * m)%nat.
Proof.
  intros Hd. pose proof (Forall_chunks (m + m) n d Hd) as Hrows.
  split.
  - rewrite (length_flat_map_Forall _ _ m), length_chunks; [reflexivity|].
    eapply Forall_impl; [|exact Hrows]. cbv beta. intros r Hr.
    rewrite length_firstn. lia.
  - rewrite (length_flat_map_Forall _ _ m), length_chunks; [reflexivity|].
    eapply Forall_impl; [|exact Hrows]. cbv beta. intros r Hr.
    rewrite length_skipn. lia.
Qed.

Lemma rotate_half_first_row (n m : nat) (u v rest : list Q) :
  (1 <= m)%nat -> length u = m -> length v = m ->
  length rest = (n * (m + m))%nat ->
  exists rest',
    rotate_half (mkTensor [S n; (m + m)%nat] ((u ++ v) ++ rest))
    = Ok (mkTensor [S n; (m + m)%nat] ((map Qopp v ++ u) ++ rest'))
    /\ length rest' = (n * (m + m))%nat.
Proof.
  intros Hm Hu Hv Hrest.
  assert (Huv : length (u ++ v) = (m + m)%nat) by (rewrite length_app; lia).
  destruct (length_halves n m rest Hrest) as [L1 L2].
  unfold rotate_half, chunk2_last. cbn [shape rev app data].
  assert (Ec : ((m + m + 1) / 2 = m)%nat).
  { symmetry. apply (Nat.div_unique _ 2 m 1); lia. }
  assert (E1 : (m + m =? 1)%nat = false) by (apply Nat.eqb_neq; lia).
  rewrite Ec, E1. cbn [rbind numel fold_right].
  rewrite Nat.mul_1_r. cbn [chunks flat_map].
  rewrite (firstn_app_exact (u ++ v) rest (m + m) Huv).
  rewrite (skipn_app_exact (u ++ v) rest (m + m) Huv).
  rewrite (firstn_app_exact u v m Hu), (skipn_app_exact u v m Hu).
  replace (m + m - m)%nat with m by lia.
  unfold tmap. cbn [shape data app]. rewrite map_app.
  rewrite cat_last_2d.
  rewrite interleave_two_head by (rewrite ?length_map; assumption).
  eexists. split; [reflexivity|].
  match goal with
  | |- length (interleave n [(m, ?a); (m, ?b)]) = _ =>
      destruct (interleave_two_rows n m m a b) as (_ & _ & E3)
  end.
  - now rewrite length_map.
  - exact L1.
  - exact E3.
Qed.

Lemma expand_aligned_leading {A} (b h : nat) (s : list nat) (v : list A) :
  length v = numel s ->
  expand_aligned (1 :: 1 :: s)%nat (b :: h :: s) v = concat (repeat v (b * h)).
Proof.
  intros Hv.
  assert (Hv1 : length v = numel (1%nat :: s)) by (unfold numel in *; simpl; lia).
  assert (E2 : expand_aligned (1%nat :: s) (h :: s) v = concat (repeat v h)).
  { cbn [expand_aligned]. rewrite chunks_whole by exact Hv.
    cbn [map]. rewrite expand_aligned_id by exact Hv.
    apply concat_repeat_one_or_more. }
  change (expand_aligned (1 :: 1 :: s)%nat (b :: h :: s) v)
    with (let rows := map (expand_aligned (1%nat :: s) (h :: s))
                          (chunks (numel (1%nat :: s)) 1 v) in
          if (1 =? b)%nat then concat rows else concat (repeat (hd [] rows) b)).
  cbv zeta. rewrite chunks_whole by exact Hv1.
  cbn [map]. rewrite E2, concat_repeat_one_or_more.
  apply concat_repeat_concat.
Qed.

Lemma bc_binop_leading {A B C} (f : A -> B -> C) (b h : nat) (s : list nat)
  (v : list A) (qd : list B) :
  length v = numel s -> length qd = numel (b :: h :: s) ->
  bc_binop f (mkTensor s v) (mkTensor (b :: h :: s) qd)
  = Ok (mkTensor (b :: h :: s) (zip_with f (concat (repeat v (b * h))) qd)).
Proof.
  intros Hv Hq. unfold bc_binop, broadcast_shapes. cbn [shape length].
  replace (Nat.max (length s) (S (S (length s)))) with (S (S (length s))) by lia.
  assert (P1 : pad_left (S (S (length s))) s = (1 :: 1 :: s)%nat).
  { unfold pad_left. replace (S (S (length s)) - length s)%nat with 2%nat by lia.
    reflexivity. }
  assert (P2 : pad_left (S (S (length s))) (b :: h :: s) = b :: h :: s)
    by apply (pad_left_same (b :: h :: s)).
  rewrite P1, P2.
  assert (BA : broadcast_aligned (1 :: 1 :: s)%nat (b :: h :: s) = Some (b :: h :: s)).
  { cbn [broadcast_aligned]. rewrite broadcast_aligned_refl.
    destruct h as [|[|h]], b as [|[|b]]; reflexivity. }
  rewrite BA. cbn [rbind].
  assert (EX : expand (mkTensor s v) (b :: h :: s)
               = Ok (mkTensor (b :: h :: s) (concat (repeat v (b * h))))).
  { unfold expand. cbn [shape length]. rewrite P1.
    assert (L : (length s <=? S (S (length s)))%nat = true) by (apply Nat.leb_le; lia).
    assert (E : expandable (1 :: 1 :: s)%nat (b :: h :: s) = true).
    { cbn [expandable]. rewrite expandable_refl.
      now rewrite !Bool.orb_true_r. }
    rewrite L, E. cbn [andb]. now rewrite expand_aligned_leading. }
  rewrite EX. cbn [rbind]. rewrite expand_same by exact Hq. reflexivity.
Qed.

Lemma nth_prefix_zero (p rest : list Q) (k : nat) :
  Forall (fun x => (x == 0)%Q) p -> (k < length p)%nat ->
  (nth k (p ++ rest) 0 == 0)%Q.
Proof.
  intros Hp Hk. rewrite app_nth1 by exact Hk.
  rewrite Forall_forall in Hp. apply Hp. now apply nth_In.
Qed.

Lemma apply_rotary_first_position {Tr : Trig} (b h n m : nat)
  (u v rest qd : list Q) :
  (1 <= m)%nat -> length u = m -> length v = m ->
  length rest = (n * (m + m))%nat ->
  length qd = numel [b; h; S n; (m + m)%nat] ->
  Forall (fun x => (x == 0)%Q) u -> Forall (fun x => (x == 0)%Q) v ->
  exists r,
    apply_rotary_pos_emb (mkTensor [b; h; S n; (m + m)%nat] qd)
      (mkTensor [S n; (m + m)%nat] ((u ++ v) ++ rest))
    = Ok (mkTensor [b; h; S n; (m + m)%nat] r)
    /\ length r = numel [b; h; S n; (m + m)%nat]
    /\ forall bi hi k, (bi < b)%nat -> (hi < h)%nat -> (k < m + m)%nat ->
         (nth ((bi * h + hi) * (S n * (m + m)) + k) r 0 == 0)%Q.
Proof.
  intros Hm Hu Hv Hrest Hq Zu Zv.
  set (s := [S n; (m + m)%nat]).
  assert (Hs : numel s = (S n * (m + m))%nat) by (unfold s, numel; simpl; lia).
  assert (Hbh : numel (b :: h :: s) = (b * h * numel s)%nat)
    by (unfold numel; simpl; lia).
  assert (Lf : length ((u ++ v) ++ rest) = numel s)
    by (rewrite !length_app, Hs; lia).
  destruct (rotate_half_first_row n m u v rest Hm Hu Hv Hrest) as [rest' [Er Lr']].
  assert (Lr : length ((map Qopp v ++ u) ++ rest') = numel s)
    by (rewrite !length_app, length_map, Hs; lia).
  unfold apply_rotary_pos_emb, tmap. cbn [shape data].
  fold s in Hq, Er |- *.
  rewrite (bc_binop_leading Qmult b h s _ (map cos qd) Lf)
    by (rewrite length_map; exact Hq).
  cbn [rbind]. rewrite Er. cbn [rbind].
  rewrite (bc_binop_leading Qmult b h s _ (map sin qd) Lr)
    by (rewrite length_map; exact Hq).
  cbn [rbind].
  assert (LA : forall (l : list Q) (g : Q -> Q), length l = numel s ->
             length (zip_with Qmult (concat (repeat l (b * h))) (map g qd))
             = numel (b :: h :: s)).
  { intros l g Hl. rewrite zip_with_length.
    - rewrite length_concat_repeat, Hl, Hbh. reflexivity.
    - rewrite length_concat_repeat, length_map, Hl, Hq, Hbh. reflexivity. }
  rewrite bc_binop_same_shape by (apply LA; assumption).
  eexists. split; [reflexivity|].
  split.
  { rewrite zip_with_length; [apply LA; exact Lf|].
    rewrite !LA by assumption. reflexivity. }
  intros bi hi k Hbi Hhi Hk.
  assert (Hq' : (bi * h + hi < b * h)%nat) by nia.
  assert (Hidx : ((bi * h + hi) * (S n * (m + m)) + k < numel (b :: h :: s))%nat).
  { rewrite Hbh, Hs.
    assert (HkR : (k < S n * (m + m))%nat) by nia.
    pose proof (Nat.mul_le_mono_r (S (bi * h + hi)) (b * h) (S n * (m + m)) Hq').
    lia. }
  assert (ZA : forall (p l : list Q) (g : Q -> Q),
             length p = (m + m)%nat -> length (p ++ l) = numel s ->
             Forall (fun x => (x == 0)%Q) p ->
             (nth ((bi * h + hi) * (S n * (m + m)) + k)
                  (zip_with Qmult (concat (repeat (p ++ l) (b * h))) (map g qd)) 0
              == 0)%Q).
  { intros p l g Hp Hpl Zp.
    rewrite (nth_zip_with _ _ _ _ 0%Q 0%Q).
    - rewrite <- Hs, <- Hpl.
      rewrite nth_concat_repeat by (try exact Hq'; rewrite length_app; lia).
      rewrite (nth_prefix_zero p l k Zp) by lia.
      apply Qmult_0_l.
    - rewrite length_concat_repeat, Hpl, <- Hbh. exact Hidx.
    - rewrite length_map, Hq. exact Hidx. }
  rewrite (nth_zip_with _ _ _ _ 0%Q 0%Q) by (rewrite LA by assumption; exact Hidx).
  rewrite (ZA (u ++ v) rest cos), (ZA (map Qopp v ++ u) rest' sin).
  - reflexivity.
  - rewrite length_app, length_map. lia.
  - exact Lr.
  - apply Forall_app. split; [|exact Zu].
    apply Forall_map. eapply Forall_impl; [|exact Zv].
    cbv beta. intros x Hx. rewrite Hx. reflexivity.
  - rewrite length_app. lia.
  - exact Lf.
  - apply Forall_app. split; assumption.
Qed.

Lemma Forall_zero_row (inv_freq : list Q) :
  Forall (fun x => (x == 0)%Q) (map (fun f => (0 * f)%Q) inv_freq).
Proof.
  apply Forall_map. apply Forall_forall. intros f _. apply Qmult_0_l.
Qed.

(** X17. The rotary step of the attention erases the first position.
    [Attention.forward] calls [apply_rotary_pos_emb(t, rotary_emb)] with the
    queries and keys in the place of the angles [pos] and the table of
    frequencies in the place of the rotated tensor.  The row of the table
    for position 0 is zero, so for every buffer [inv_freq] of at least one
    frequency, any sine and cosine and any queries and keys of shape
    (b, h, n + 1, 2 * len(inv_freq)), the rotary step succeeds, keeps the
    shapes and returns queries and keys whose vector at sequence position 0
    is zero in every batch item and head. *)
Theorem Attention_rotary_erases_first_position {Tr : Trig}
  (inv_freq : list Q) (b h n : nat) (qd kd : list Q) :
  (1 <= length inv_freq)%nat ->
  length qd = numel [b; h; S n; (length inv_freq + length inv_freq)%nat] ->
  length kd = numel [b; h; S n; (length inv_freq + length inv_freq)%nat] ->
  exists freqs q' k',
    RotaryEmbedding_table inv_freq (S n) = Ok freqs
    /\ shape freqs = [S n; (length inv_freq + length inv_freq)%nat]
    /\ Attention_rotate (Some freqs)
         (mkTensor [b; h; S n; (length inv_freq + length inv_freq)%nat] qd)
         (mkTensor [b; h; S n; (length inv_freq + length inv_freq)%nat] kd)
       = Ok (mkTensor [b; h; S n; (length inv_freq + length inv_freq)%nat] q',
             mkTensor [b; h; S n; (length inv_freq + length inv_freq)%nat] k')
    /\ forall bi hi k, (bi < b)%nat -> (hi < h)%nat ->
         (k < length inv_freq + length inv_freq)%nat ->
         (nth ((bi * h + hi) * (S n * (length inv_freq + length inv_freq)) + k) q' 0
          == 0)%Q
         /\ (nth ((bi * h + hi) * (S n * (length inv_freq + length inv_freq)) + k) k' 0
             == 0)%Q.
Proof.
  intros Hm Hq Hk.
  destruct (RotaryEmbedding_table_first_row inv_freq n) as [rest [Ef Lrest]].
  set (z := map (fun f => (0 * f)%Q) inv_freq) in *.
  assert (Lz : length z = length inv_freq) by apply length_map.
  pose proof (Forall_zero_row inv_freq) as Zz. fold z in Zz.
  destruct (apply_rotary_first_position b h n (length inv_freq) z z rest qd
              Hm Lz Lz Lrest Hq Zz Zz) as [q' [Eq [_ Zq]]].
  destruct (apply_rotary_first_position b h n (length inv_freq) z z rest kd
              Hm Lz Lz Lrest Hk Zz Zz) as [k' [Ek [_ Zk]]].
  eexists. exists q', k'.
  split; [exact Ef|]. split; [reflexivity|].
  split.
  - unfold Attention_rotate. rewrite Eq. cbn [rbind]. rewrite Ek. reflexivity.
  - intros bi hi k Hbi Hhi Hkk. split; [apply Zq|apply Zk]; assumption.
Qed.

Lemma Attention_rotary_erases_first_position_witness :
  (1 <= length [1; 1 # 2]%Q)%nat
  /\ length [1; 2; 3; 4; 5; 6; 7; 8]%Q
     = numel [1; 1; 2; (length [1; 1 # 2]%Q + length [1; 1 # 2]%Q)]%nat
  /\ length [8; 7; 6; 5; 4; 3; 2; 1]%Q
     = numel [1; 1; 2; (length [1; 1 # 2]%Q + length [1; 1 # 2]%Q)]%nat
  /\ exists freqs q' k',
       RotaryEmbedding_table [1; 1 # 2]%Q 2 = Ok freqs
       /\ shape freqs = [2; (length [1; 1 # 2]%Q + length [1; 1 # 2]%Q)]%nat
       /\ @Attention_rotate poly_trig (Some freqs)
            (mkTensor [1; 1; 2; (length [1; 1 # 2]%Q + length [1; 1 # 2]%Q)]%nat
               [1; 2; 3; 4; 5; 6; 7; 8]%Q)
            (mkTensor [1; 1; 2; (length [1; 1 # 2]%Q + length [1; 1 # 2]%Q)]%nat
               [8; 7; 6; 5; 4; 3; 2; 1]%Q)
          = Ok (mkTensor [1; 1; 2; (length [1; 1 # 2]%Q + length [1; 1 # 2]%Q)]%nat q',
                mkTensor [1; 1; 2; (length [1; 1 # 2]%Q + length [1; 1 # 2]%Q)]%nat k')
       /\ forall bi hi k, (bi < 1)%nat -> (hi < 1)%nat ->
            (k < length [1; 1 # 2]%Q + length [1; 1 # 2]%Q)%nat ->
            (nth ((bi * 1 + hi) * (2 * (length [1; 1 # 2]%Q + length [1; 1 # 2]%Q)) + k)
                 q' 0 == 0)%Q
            /\ (nth ((bi * 1 + hi) * (2 * (length [1; 1 # 2]%Q + length [1; 1 # 2]%Q)) + k)
                    k' 0 == 0)%Q.
Proof.
  assert (H1 : (1 <= length [1; 1 # 2]%Q)%nat) by (simpl; lia).
  split; [exact H1|]. split; [reflexivity|]. split; [reflexivity|].
  exact (@Attention_rotary_erases_first_position poly_trig [1; 1 # 2]%Q 1 1 1
           [1; 2; 3; 4; 5; 6; 7; 8]%Q [8; 7; 6; 5; 4; 3; 2; 1]%Q
           H1 eq_refl eq_refl).
Defined.

(** ** Sampling *)

Lemma lift_ok_inv {A} (r : result A) (w w1 : world) (a : A) :
  lift r w = (Ok a, w1) -> r = Ok a.
Proof. unfold lift. congruence. Qed.

Lemma fst_of_pair_eq {A} (m : M A) (w w1 : world) (a : A) :
  m w = (Ok a, w1) -> fst (m w) = Ok a.
Proof. intros ->. reflexivity. Qed.

Lemma sample_shape {N : Numerics} {S : Solvers}
  (self : ConditionalFlowMatcherWrapper.t) (phoneme_ids : tensor Z)
  (cond : tensor Q) (mask : option (tensor bool)) (steps : Z) (cond_scale : Q)
  (w : world) (r : tensor Q) :
  solver_shapes S ->
  fst (ConditionalFlowMatcherWrapper.sample self phoneme_ids cond mask steps
         cond_scale w) = Ok r ->
  shape r = shape cond /\ 1 <= steps /\ (1 <= ndim cond)%nat.
Proof.
  intros [Hode Htode] H. unfold ConditionalFlowMatcherWrapper.sample in H.
  apply fst_bind_ok_inv in H as (batch & w1 & E1 & H).
  apply lift_ok_inv in E1.
  destruct (shape cond) as [|b rest] eqn:Hs; [discriminate|].
  inversion E1; subst batch.
  apply fst_bind_ok_inv in H as (u & w2 & _ & H).
  apply fst_bind_ok_inv in H as (y0 & w3 & E3 & H).
  assert (Hy0 : shape y0 = b :: rest).
  { unfold randn in E3. inversion E3. reflexivity. }
  apply fst_bind_ok_inv in H as (t & w4 & E4 & H).
  apply lift_ok_inv in E4.
  assert (Ht : shape t = [Z.to_nat steps]).
  { unfold linspace01 in E4. destruct (steps <? 0); [discriminate|].
    inversion E4. reflexivity. }
  destruct (ConditionalFlowMatcherWrapper.use_torchode self); cbn [negb] in H.
  - apply fst_bind_ok_inv in H as (u1 & w5 & _ & H).
    apply fst_bind_ok_inv in H as (t' & w6 & E6 & H).
    apply lift_ok_inv in E6.
    assert (Ht' : shape t' = [b; Z.to_nat steps]).
    { unfold repeat_rows in E6. rewrite Ht in E6. inversion E6. reflexivity. }
    apply fst_bind_ok_inv in H as ([y0' ps] & w7 & E7 & H).
    apply lift_ok_inv in E7.
    unfold pack_one in E7. rewrite Hy0 in E7.
    rewrite (infer_size_b_star b (numel rest) (numel (b :: rest)) eq_refl) in E7.
    destruct (b =? 0)%nat; [discriminate|]. cbn [rbind] in E7.
    inversion E7; subst y0' ps.
    apply fst_bind_ok_inv in H as (ys & w8 & E8 & H).
    apply fst_of_pair_eq in E8. apply Htode in E8.
    rewrite Ht' in E8. cbn [shape nth] in E8.
    apply fst_bind_ok_inv in H as (sampled & w9 & E9 & H).
    apply lift_ok_inv in E9.
    unfold last_along_second in E9. rewrite E8 in E9.
    destruct (Z.to_nat steps) as [|k] eqn:Ek; [discriminate|].
    inversion E9; subst sampled.
    unfold lift, unpack_one in H. cbn [fst shape] in H.
    rewrite Nat.eqb_refl in H. inversion H.
    unfold ndim. rewrite Hs. cbn [shape length]. repeat split; lia.
  - apply fst_bind_ok_inv in H as (u1 & w5 & _ & H).
    apply fst_bind_ok_inv in H as (traj & w6 & E6 & H).
    apply fst_of_pair_eq in E6. apply Hode in E6.
    rewrite Ht, Hy0 in E6. cbn [nth] in E6.
    unfold lift, last_along_first in H. cbn [fst] in H. rewrite E6 in H.
    destruct (Z.to_nat steps) as [|k] eqn:Ek; [discriminate|].
    inversion H.
    unfold ndim. rewrite Hs. cbn [shape length]. repeat split; lia.
Qed.

Lemma frozen_solver_shapes : solver_shapes frozen_solvers.
Proof.
  split.
  - intros f y0 t kw w r H. cbn in H. inversion H. reflexivity.
  - intros klass atol rtol f y0 t w r H. cbn in H. inversion H. reflexivity.
Qed.

(** X18. [sample] returns a tensor of the shape of [cond].  With integrators
    that return one state per evaluation time (torchdiffeq: stacked along a
    new first axis; torchode: a solution of shape (batch, times, features)),
    whenever [sample] returns, in either backend, the result has the shape
    of [cond]: [trajectory[-1]], and for torchode the packing of the initial
    state with 'b *', the selection [ys[:, -1]] and the unpacking, restore
    it.  A call that returns was made with at least one step and a [cond]
    of at least one dimension. *)
Theorem sample_returns_cond_shape {N : Numerics} {S : Solvers}
  (self : ConditionalFlowMatcherWrapper.t) (phoneme_ids : tensor Z)
  (cond : tensor Q) (mask : option (tensor bool)) (steps : Z) (cond_scale : Q)
  (w : world) (r : tensor Q) :
  solver_shapes S ->
  fst (ConditionalFlowMatcherWrapper.sample self phoneme_ids cond mask steps
         cond_scale w) = Ok r ->
  shape r = shape cond /\ 1 <= steps /\ (1 <= ndim cond)%nat.
Proof. apply sample_shape. Qed.

Lemma sample_returns_cond_shape_witness :
  solver_shapes frozen_solvers
  /\ fst (@ConditionalFlowMatcherWrapper.sample plain_numerics frozen_solvers
            (ConditionalFlowMatcherWrapper.init handmade_voicebox 0 (1 # 100000)
               (1 # 100000) (1 # 16) true "midpoint" "Tsit5" 0)
            (mkTensor [1; 2]%nat [7; 8]) (mkTensor [1; 2; 1]%nat [3; 4]%Q) None 3 1
            (constant_world 0 (1 # 4)))
     = Ok (mkTensor [1; 2; 1]%nat [1 # 4; 1 # 4]%Q)
  /\ shape (mkTensor [1; 2; 1]%nat [1 # 4; 1 # 4]%Q)
     = shape (mkTensor [1; 2; 1]%nat [3; 4]%Q)
  /\ 1 <= 3
  /\ (1 <= ndim (mkTensor [1; 2; 1]%nat [3; 4]%Q))%nat.
Proof.
  assert (H : fst (@ConditionalFlowMatcherWrapper.sample plain_numerics frozen_solvers
                     (ConditionalFlowMatcherWrapper.init handmade_voicebox 0 (1 # 100000)
                        (1 # 100000) (1 # 16) true "midpoint" "Tsit5" 0)
                     (mkTensor [1; 2]%nat [7; 8]) (mkTensor [1; 2; 1]%nat [3; 4]%Q)
                     None 3 1 (constant_world 0 (1 # 4)))
              = Ok (mkTensor [1; 2; 1]%nat [1 # 4; 1 # 4]%Q))
    by (vm_compute; reflexivity).
  split; [exact frozen_solver_shapes|]. split; [exact H|].
  exact (@sample_returns_cond_shape plain_numerics frozen_solvers _ _ _ _ _ _ _ _
           frozen_solver_shapes H).
Defined.

(** ** The constructor and the forward pass of [VoiceBox] *)

Lemma assert_ok_inv (b : bool) (u : unit) : assert b = Ok u -> b = true.
Proof. destruct b; [reflexivity|discriminate]. Qed.

Lemma LearnedSinusoidalPosEmb_init_inv {T : Torch} (dim : Z)
  (m : LearnedSinusoidalPosEmb.t) :
  LearnedSinusoidalPosEmb.init dim = Ok m ->
  Z.even dim = true
  /\ m = {| LearnedSinusoidalPosEmb.weights := nn_Parameter Randn (dim / 2) |}.
Proof.
  unfold LearnedSinusoidalPosEmb.init. intros H.
  apply rbind_ok_inv in H as [u [Hu H]].
  apply rbind_ok_inv in H as [l [Hl H]].
  apply new_inv in Hl. subst l. inversion H. split; [|reflexivity].
  apply assert_ok_inv in Hu.
  destruct (Z.even dim) eqn:E; [reflexivity|].
  rewrite divisible_by_2_odd in Hu; [discriminate|].
  rewrite <- Z.negb_even, E. reflexivity.
Qed.

Lemma VoiceBox_init_inv {T : Torch} (a : VoiceBox.Args.t) (vb : VoiceBox.t) :
  VoiceBox.init a = Ok vb ->
  Z.even (VoiceBox.Args.dim a) = true
  /\ VoiceBox.sinu_pos_emb vb
     = {| LearnedSinusoidalPosEmb.weights :=
            nn_Parameter Randn (VoiceBox.Args.dim a / 2) |}
  /\ VoiceBox.null_phoneme_id vb = VoiceBox.Args.num_phoneme_tokens a
  /\ VoiceBox.to_phoneme_emb vb
     = nn_Embedding (VoiceBox.Args.num_phoneme_tokens a + 1)
         (VoiceBox.Args.dim_phoneme_emb a)
  /\ VoiceBox.p_drop_prob vb = VoiceBox.Args.p_drop_prob a
  /\ VoiceBox.frac_lengths_mask vb = VoiceBox.Args.frac_lengths_mask a
  /\ VoiceBox.to_embed vb
     = nn_Linear (VoiceBox.Args.dim a * 2 + VoiceBox.Args.dim_phoneme_emb a)
         (VoiceBox.Args.dim a) true
  /\ VoiceBox.null_cond vb = nn_Parameter Zeros (VoiceBox.Args.dim a)
  /\ Transformer.init (VoiceBox.Args.dim a) (VoiceBox.Args.depth a)
       (VoiceBox.Args.dim_head a) (VoiceBox.Args.heads a) (VoiceBox.Args.ff_mult a)
       (VoiceBox.Args.attn_flash a) = Ok (VoiceBox.transformer vb)
  /\ VoiceBox.to_pred vb = nn_Linear (VoiceBox.Args.dim a) (VoiceBox.Args.dim a) false.
Proof.
  unfold VoiceBox.init. intros H. cbv zeta in H.
  apply rbind_ok_inv in H as [sinu [Hsinu H]].
  apply rbind_ok_inv in H as [emb [Hemb H]].
  apply rbind_ok_inv in H as [te [Hte H]].
  apply rbind_ok_inv in H as [nc [Hnc H]].
  apply rbind_ok_inv in H as [conv [_ H]].
  apply rbind_ok_inv in H as [tr [Htr H]].
  apply rbind_ok_inv in H as [pred [Hpred H]].
  apply LearnedSinusoidalPosEmb_init_inv in Hsinu as [He Hsinu].
  apply new_inv in Hemb, Hte, Hnc, Hpred. subst.
  inversion H; subst; cbn.
  repeat (split; [first [exact He | exact Htr | reflexivity]|]). reflexivity.
Qed.

Lemma VoiceBox_init_ok {T : Torch} (a : VoiceBox.Args.t) :
  accepts_sane T -> VoiceBox_valid_args a -> exists vb, VoiceBox.init a = Ok vb.
Proof.
  intros Hsane Hvalid.
  destruct a as [npt dpe dim depth dh heads mult ks groups flash pdp flm].
  unfold VoiceBox_valid_args in Hvalid. simpl in Hvalid.
  destruct Hvalid as (Hn & Hpe & Hd & Hed & Hep & Hh & Hhe & Hm & Hok & Hk & Hg & Hf).
  subst flash. unfold VoiceBox.init. simpl.
  destruct (LearnedSinusoidalPosEmb_ok T Hsane dim Hed Hd) as [s Hs].
  rewrite Hs. simpl rbind.
  rewrite (new_sane T Hsane) by (simpl; lia). simpl rbind.
  rewrite (new_sane T Hsane) by (simpl; lia). simpl rbind.
  rewrite (new_sane T Hsane) by (simpl; lia). simpl rbind.
  destruct (ConvPositionEmbed_ok T Hsane dim ks groups Hok Hk Hd Hg) as [c Hc].
  rewrite Hc. simpl rbind.
  destruct (Transformer_ok T Hsane dim depth dh heads mult Hep Hd Hh Hhe Hm) as [t Ht].
  rewrite Ht. simpl rbind.
  rewrite (new_sane T Hsane) by (simpl; lia). simpl rbind.
  eexists. reflexivity.
Qed.

Lemma manage_times_shape (times : tensor Q) (b : nat) :
  (shape times = [] /\ length (data times) = 1%nat)
  \/ (shape times = [b] /\ length (data times) = b) ->
  exists t', VoiceBox.manage_times times b = Ok t' /\ shape t' = [b].
Proof.
  destruct times as [s d]. cbn [shape data]. unfold VoiceBox.manage_times, ndim.
  cbn [shape]. intros [[-> Hd]|[-> Hd]]; cbn [length Nat.eqb].
  - destruct d as [|a [|a' d]]; try discriminate.
    unfold repeat_to_batch at 1. cbn [data rbind shape].
    destruct (shape_eqb [b] [1%nat]) eqn:E.
    + apply shape_eqb_iff in E. inversion E; subst b.
      eexists. split; reflexivity.
    + eexists. split; reflexivity.
  - cbn [rbind shape].
    destruct (shape_eqb [b] [1%nat]) eqn:E.
    + apply shape_eqb_iff in E. inversion E; subst b.
      destruct d as [|a [|a' d]]; try discriminate.
      eexists. split; reflexivity.
    + eexists. split; reflexivity.
Qed.

Lemma Forall_zip_with3_select {A} (P : A -> Prop) (m : list bool) (a b : list A) :
  Forall P a -> Forall P b ->
  Forall P (zip_with3 (fun x y z => if x : bool then y else z) m a b).
Proof.
  revert a b; induction m as [|x m IH]; intros a b Ha Hb; [constructor|].
  destruct a as [|y a]; [constructor|]. destruct b as [|z b]; [constructor|].
  inversion Ha; inversion Hb; subst. cbn [zip_with3]. constructor.
  - destruct x; assumption.
  - apply IH; assumption.
Qed.

Lemma drop_condition_shapes (P : Z -> Prop) (b n d : nat) (prob : Q)
  (null : list Q) (null_id : Z) (cd : list Q) (ids : list Z) (w : world) :
  length null = d -> length cd = (b * (n * d))%nat -> length ids = (b * n)%nat ->
  P null_id -> Forall P ids ->
  exists cd' ids' w',
    drop_condition b prob (mkTensor [d] null) null_id
      (mkTensor [b; n; d] cd) (mkTensor [b; n] ids) w
    = (Ok (mkTensor [b; n; d] cd', mkTensor [b; n] ids'), w')
    /\ Forall P ids'.
Proof.
  intros Hnull Hcd Hids Pn Pids. unfold drop_condition.
  destruct (Qle_bool prob 0); cbn [negb].
  - exists cd, ids, w. split; [reflexivity|exact Pids].
  - destruct (prob_mask_like_batch b prob w) as [ml [w' [Hm [Hlen _]]]].
    subst b d. eexists. eexists. exists w'. split.
    + unfold bind at 1. rewrite Hm. cbn [shape data app].
      unfold bind at 1, lift.
      rewrite (where_cond n ml null cd Hcd).
      unfold bind at 1.
      rewrite (where_ids n ml null_id ids Hids).
      unfold ret. reflexivity.
    + apply Forall_zip_with3_select; [|exact Pids].
      apply Forall_forall. intros v Hv. apply repeat_spec in Hv. now subst.
Qed.

Lemma cat_last_triple_shape {A} (x e c : tensor A) (pre : list nat) (d1 d2 d3 : nat) :
  shape x = pre ++ [d1] -> shape e = pre ++ [d2] -> shape c = pre ++ [d3] ->
  exists y, cat_last [x; e; c] = Ok y /\ shape y = pre ++ [(d1 + d2 + d3)%nat].
Proof.
  intros Hx He Hc. unfold cat_last, ndim. rewrite Hx, length_app. simpl length.
  rewrite Nat.add_1_r. unfold cat_axis. cbn [forallb]. rewrite Hx, He, Hc.
  rewrite !same_but_axis_last. cbn [andb].
  eexists. split; [reflexivity|]. cbn [shape map fold_right].
  rewrite Hx, He, Hc, firstn_app_exact by reflexivity.
  rewrite skipn_all2 by (rewrite length_app; simpl; lia).
  rewrite !nth_middle, Nat.add_0_r, app_nil_r, Nat.add_assoc. reflexivity.
Qed.

Lemma pack_time_shapes {A} (te x : tensor A) (b n d : nat) :
  (1 <= b)%nat -> (1 <= d)%nat ->
  shape te = [b; d] -> shape x = [b; n; d] ->
  exists packed,
    pack_b_star_d [te; x] = Ok (packed, [[]; [n]]) /\ shape packed = [b; S n; d].
Proof.
  intros Hb Hd Hte Hx. unfold pack_b_star_d.
  assert (Hbd : (b * d =? 0)%nat = false) by (apply Nat.eqb_neq; nia).
  cbn [mapM].
  rewrite (view_b_star_d_2d te b d Hte), Hbd. cbn [rbind].
  rewrite (view_b_star_d_3d x b n d Hx), Hbd. cbn [rbind].
  unfold cat_axis. cbn [forallb shape].
  unfold same_but_axis, shape_eqb. cbn [firstn skipn length].
  destruct (list_eq_dec Nat.eq_dec [b] [b]) as [_|Nb]; [|congruence].
  destruct (list_eq_dec Nat.eq_dec [d] [d]) as [_|Nd]; [|congruence].
  cbn [andb Nat.ltb Nat.leb map nth fold_right shape app].
  unfold middle. rewrite Hte, Hx. cbn [tl removelast].
  eexists. split; [reflexivity|]. cbn [shape]. f_equal. f_equal. lia.
Qed.

Lemma unpack_time_shapes {A} (t : tensor A) (b n d : nat) :
  shape t = [b; S n; d] ->
  exists t1 x1, unpack_b_star_d t [[]; [n]] = Ok [t1; x1] /\ shape x1 = [b; n; d].
Proof.
  intros Ht. unfold unpack_b_star_d. rewrite Ht.
  cbn [map numel fold_right cut_positions combine mapM].
  cbn [Nat.eqb rbind].
  replace (S n - (0 + 1))%nat with n by lia.
  replace (n =? n * 1)%nat with true by (symmetry; apply Nat.eqb_eq; lia).
  cbn [rbind]. eexists. eexists. split; reflexivity.
Qed.

Lemma fst_bind_step {A B} (m : M A) (k : A -> M B) (w w1 : world) (a : A) :
  m w = (Ok a, w1) -> fst (bind m k w) = fst (k a w1).
Proof. intros E. unfold bind. now rewrite E. Qed.

Lemma VoiceBox_forward_shape {T : Torch} {N : Numerics} {B : Blocks}
  (a : VoiceBox.Args.t) (vb : VoiceBox.t)
  (xd cd : list Q) (idd : list Z) (times : tensor Q) (prob : Q)
  (mask : option (tensor bool)) (w : world) (b n : nat) :
  numerics_shapes N -> shape_contract N B -> transformer_runs_layers N B ->
  VoiceBox.init a = Ok vb ->
  0 < VoiceBox.Args.dim a -> 0 < VoiceBox.Args.dim_phoneme_emb a ->
  0 <= VoiceBox.Args.num_phoneme_tokens a ->
  (fst (VoiceBox.Args.frac_lengths_mask a) <= snd (VoiceBox.Args.frac_lengths_mask a))%Q ->
  (1 <= b)%nat -> (1 <= n)%nat ->
  length cd = (b * (n * Z.to_nat (VoiceBox.Args.dim a)))%nat ->
  length idd = (b * n)%nat ->
  Forall (fun i => 0 <= i <= VoiceBox.Args.num_phoneme_tokens a) idd ->
  (shape times = [] /\ length (data times) = 1%nat)
  \/ (shape times = [b] /\ length (data times) = b) ->
  exists y,
    fst (VoiceBox.forward vb
           (mkTensor [b; n; Z.to_nat (VoiceBox.Args.dim a)] xd)
           (mkTensor [b; n] idd)
           (mkTensor [b; n; Z.to_nat (VoiceBox.Args.dim a)] cd)
           times prob None mask w) = Ok y
    /\ shape y = [b; n; Z.to_nat (VoiceBox.Args.dim a)].
Proof.
  intros (HEmb & HPar & HSin & HConv) HC Hruns Hinit Hdim Hdpe Hnpt Hflm Hb Hn
         Hcd Hidd Hrange Htimes.
  pose proof HC as (_ & _ & _ & _ & HLin).
  destruct (VoiceBox_init_inv a vb Hinit)
    as (He & Hsinu & Hnull & Hemb & Hp & Hflm' & Hte & Hnc & Htr & Hpred).
  set (D := Z.to_nat (VoiceBox.Args.dim a)) in *.
  set (E := Z.to_nat (VoiceBox.Args.dim_phoneme_emb a)).
  unfold VoiceBox.forward. cbn [shape unpack3]. rewrite bind_lift_ok.
  cbv beta iota.
  change (last_dim (mkTensor [b; n; D] xd)) with (@Ok nat D).
  rewrite bind_lift_ok, Nat.eqb_refl. cbn [assert]. rewrite bind_lift_ok.
  destruct (manage_times_shape times b Htimes) as [t' [Et St]].
  rewrite Et, bind_lift_ok.
  rewrite Hflm' in *.
  destruct (construct_mask_ok b n (VoiceBox.Args.frac_lengths_mask a)
              (VoiceBox.p_drop_prob vb) mask w Hn Hflm) as (m1 & w1 & E1).
  rewrite (fst_bind_step _ _ _ _ _ E1).
  rewrite Hnc, Hnull.
  destruct (HPar Zeros (VoiceBox.Args.dim a)) as [nv [Env Lnv]]. rewrite Env.
  fold D in Lnv |- *.
  destruct (drop_condition_shapes
              (fun i => 0 <= i < VoiceBox.Args.num_phoneme_tokens a + 1)
              b n D prob nv (VoiceBox.Args.num_phoneme_tokens a) cd idd w1
              Lnv Hcd Hidd)
    as (cd' & ids' & w2 & E2 & Pids).
  { lia. }
  { eapply Forall_impl; [|exact Hrange]. cbv beta. intros i Hi. lia. }
  rewrite (fst_bind_step _ _ _ _ _ E2). cbv beta iota.
  rewrite Hemb.
  destruct (HEmb (VoiceBox.Args.num_phoneme_tokens a + 1)
              (VoiceBox.Args.dim_phoneme_emb a) (mkTensor [b; n] ids') Pids)
    as [pe [Epe Spe]].
  rewrite Epe, bind_lift_ok. cbn [shape] in Spe. fold E in Spe.
  destruct (cat_last_triple_shape (mkTensor [b; n; D] xd) pe (mkTensor [b; n; D] cd')
              [b; n] D E D eq_refl Spe eq_refl) as [emb [Ecat Scat]].
  rewrite Ecat, bind_lift_ok, Hte.
  replace (D + E + D)%nat
    with (Z.to_nat (VoiceBox.Args.dim a * 2 + VoiceBox.Args.dim_phoneme_emb a))
    in Scat by (unfold D, E; lia).
  destruct (HLin _ (VoiceBox.Args.dim a) true emb [b; n] Scat) as [x1 [Ex1 Sx1]].
  rewrite Ex1, bind_lift_ok. fold D in Sx1. cbn [app] in Sx1.
  destruct (HConv (VoiceBox.conv_embed vb) x1) as [c [Ecv Scv]].
  rewrite Ecv, bind_lift_ok.
  destruct (bc_binop_keeps_shape Qplus c x1 Scv) as [x2 [Ex2 Sx2]].
  rewrite Ex2, bind_lift_ok. rewrite Sx1 in Sx2.
  rewrite Hsinu.
  destruct (HSin (VoiceBox.Args.dim a / 2) t' b St) as [te [Ete Ste]].
  rewrite Ete, bind_lift_ok.
  replace (Z.to_nat (VoiceBox.Args.dim a / 2) + Z.to_nat (VoiceBox.Args.dim a / 2))%nat
    with D in Ste.
  2:{ apply Zeven_bool_iff in He. apply Zeven_div2 in He.
      rewrite Z.div2_div in He. unfold D. lia. }
  assert (HD : (1 <= D)%nat) by (unfold D; lia).
  destruct (pack_time_shapes te x2 b n D Hb HD Ste Sx2) as [packed [Epk Spk]].
  rewrite Epk, bind_lift_ok. cbv beta iota.
  rewrite Hruns.
  destruct (Transformer_forward_shape _ _ _ _ _ _ _ packed [b] (S n) HC Htr Spk)
    as [x3 [Ex3 Sx3]].
  rewrite Ex3, bind_lift_ok, Hpred. rewrite Spk in Sx3.
  destruct (HLin (VoiceBox.Args.dim a) (VoiceBox.Args.dim a) false x3 [b; S n] Sx3)
    as [x4 [Ex4 Sx4]].
  rewrite Ex4, bind_lift_ok. fold D in Sx4. cbn [app] in Sx4.
  destruct (unpack_time_shapes x4 b n D Sx4) as (t1 & x5 & Eu & Sx5).
  rewrite Eu, bind_lift_ok. cbv beta iota. rewrite bind_lift_ok.
  cbn [exists_ negb]. exists x5. split; [reflexivity|exact Sx5].
Qed.

(** X19. The constructor of [VoiceBox] returns.  With non-negative
    [num_phoneme_tokens], positive sizes, an even [dim] and [depth], an odd
    kernel size, a usable group count, no flash attention and a library that
    accepts the requested layers, [VoiceBox.__init__] returns a model; its
    null phoneme id is [num_phoneme_tokens], the last row of the embedding
    table of [num_phoneme_tokens + 1] rows. *)
Theorem VoiceBox_init_returns {T : Torch} (a : VoiceBox.Args.t) :
  accepts_sane T -> VoiceBox_valid_args a ->
  exists vb,
    VoiceBox.init a = Ok vb
    /\ VoiceBox.null_phoneme_id vb = VoiceBox.Args.num_phoneme_tokens a
    /\ VoiceBox.to_phoneme_emb vb
       = nn_Embedding (VoiceBox.Args.num_phoneme_tokens a + 1)
           (VoiceBox.Args.dim_phoneme_emb a)
    /\ 0 <= VoiceBox.null_phoneme_id vb < VoiceBox.Args.num_phoneme_tokens a + 1.
Proof.
  intros Hsane Hvalid.
  destruct (VoiceBox_init_ok a Hsane Hvalid) as [vb Hvb].
  destruct (VoiceBox_init_inv a vb Hvb) as (_ & _ & Hnull & Hemb & _).
  exists vb. split; [exact Hvb|]. split; [exact Hnull|]. split; [exact Hemb|].
  rewrite Hnull. destruct Hvalid as (Hn & _). lia.
Qed.

Lemma VoiceBox_init_returns_witness :
  accepts_sane sane_torch
  /\ VoiceBox_valid_args (VoiceBox.Args.defaults 50)
  /\ exists vb,
       VoiceBox.init (T := sane_torch) (VoiceBox.Args.defaults 50) = Ok vb
       /\ VoiceBox.null_phoneme_id vb
          = VoiceBox.Args.num_phoneme_tokens (VoiceBox.Args.defaults 50)
       /\ VoiceBox.to_phoneme_emb vb
          = nn_Embedding (VoiceBox.Args.num_phoneme_tokens (VoiceBox.Args.defaults 50) + 1)
              (VoiceBox.Args.dim_phoneme_emb (VoiceBox.Args.defaults 50))
       /\ 0 <= VoiceBox.null_phoneme_id vb
          < VoiceBox.Args.num_phoneme_tokens (VoiceBox.Args.defaults 50) + 1.
Proof.
  assert (H1 : accepts_sane sane_torch) by exact sane_torch_accepts_sane.
  assert (H2 : VoiceBox_valid_args (VoiceBox.Args.defaults 50)).
  { unfold VoiceBox_valid_args. simpl. repeat split; try lia; reflexivity. }
  split; [exact H1|]. split; [exact H2|].
  exact (@VoiceBox_init_returns sane_torch (VoiceBox.Args.defaults 50) H1 H2).
Defined.

Lemma shaped_numerics_shapes : numerics_shapes shaped_numerics.
Proof.
  unfold numerics_shapes, keeps_shape. cbn.
  split; [|split; [|split]].
  - intros k e ids _. eexists. split; reflexivity.
  - intros i sz. eexists. split; [reflexivity|].
    rewrite repeat_length. unfold numel. simpl. lia.
  - intros h t b Ht. eexists. split; [reflexivity|]. cbn [zeros shape].
    now rewrite Ht.
  - intros _ x. exists x. split; reflexivity.
Qed.

Lemma shaped_shape_contract : shape_contract shaped_numerics plain_blocks.
Proof.
  unfold shape_contract, keeps_shape. cbn.
  split; [|split; [|split; [|split]]].
  - intros _ n. eexists; reflexivity.
  - intros _ _ x. exists x. split; reflexivity.
  - intros _ x. exists x. split; reflexivity.
  - intros _ x. exists x. split; reflexivity.
  - intros i o b x pre Hx. eexists. split; [reflexivity|].
    cbn [zeros shape]. now rewrite Hx, removelast_last.
Qed.

Lemma Transformer_layers_shaped (rot : tensor Q) (layers : list Transformer.block) :
  forall stack x,
    @Transformer_layers shaped_leaves plain_blocks rot layers stack x
    = @Transformer_layers shaped_numerics plain_blocks rot layers stack x.
Proof.
  induction layers as [|blk layers IH]; intros stack x; [reflexivity|].
  cbn [Transformer_layers].
  change (@Linear_forward shaped_numerics) with (@Linear_forward shaped_leaves).
  repeat match goal with
         | |- rbind ?r _ = rbind ?r _ =>
             destruct r as [?|?]; cbn [rbind fst snd]; [|reflexivity]
         end.
  apply IH.
Qed.

Lemma shaped_runs_layers : transformer_runs_layers shaped_numerics plain_blocks.
Proof.
  intros m x.
  change (@Transformer_forward shaped_numerics m x)
    with (@Transformer_forward_body shaped_leaves plain_blocks m x).
  unfold Transformer_forward_body.
  repeat match goal with
         | |- rbind ?r _ = rbind ?r _ =>
             destruct r as [?|?]; cbn [rbind fst snd]; [|reflexivity]
         end.
  rewrite Transformer_layers_shaped. reflexivity.
Qed.

(** X20. The forward pass of a constructed [VoiceBox] returns logits of the
    shape of its input.  For a model returned by the constructor, layers
    that honour their shapes (embedding, linear, parameter, sinusoidal and
    convolutional embeddings, and the kernels of the transformer blocks),
    a [frac_lengths_mask] whose bounds are ordered, inputs [x] and [cond]
    of shape (b, n, dim) with [b >= 1] and [n >= 1], phoneme ids of shape
    (b, n) between 0 and [num_phoneme_tokens], and a time that is a scalar
    or of shape (b,), [forward] without target returns a tensor of shape
    (b, n, dim), for every mask, drop probability and random draw:
    the width [2 * dim + dim_phoneme_emb] of [to_embed] is the width of the
    concatenation, the null phoneme id is a row of the embedding table, the
    time embedding has the width [dim] of the sequence it is packed with,
    and unpacking removes exactly its position. *)
Theorem VoiceBox_forward_logits_shape {T : Torch} {N : Numerics} {B : Blocks}
  (a : VoiceBox.Args.t) (vb : VoiceBox.t)
  (xd cd : list Q) (idd : list Z) (times : tensor Q) (prob : Q)
  (mask : option (tensor bool)) (w : world) (b n : nat) :
  numerics_shapes N -> shape_contract N B -> transformer_runs_layers N B ->
  VoiceBox.init a = Ok vb ->
  0 < VoiceBox.Args.dim a -> 0 < VoiceBox.Args.dim_phoneme_emb a ->
  0 <= VoiceBox.Args.num_phoneme_tokens a ->
  (fst (VoiceBox.Args.frac_lengths_mask a) <= snd (VoiceBox.Args.frac_lengths_mask a))%Q ->
  (1 <= b)%nat -> (1 <= n)%nat ->
  length cd = (b * (n * Z.to_nat (VoiceBox.Args.dim a)))%nat ->
  length idd = (b * n)%nat ->
  Forall (fun i => 0 <= i <= VoiceBox.Args.num_phoneme_tokens a) idd ->
  (shape times = [] /\ length (data times) = 1%nat)
  \/ (shape times = [b] /\ length (data times) = b) ->
  exists y,
    fst (VoiceBox.forward vb
           (mkTensor [b; n; Z.to_nat (VoiceBox.Args.dim a)] xd)
           (mkTensor [b; n] idd)
           (mkTensor [b; n; Z.to_nat (VoiceBox.Args.dim a)] cd)
           times prob None mask w) = Ok y
    /\ shape y = [b; n; Z.to_nat (VoiceBox.Args.dim a)].
Proof. apply VoiceBox_forward_shape. Qed.

Lemma VoiceBox_forward_logits_shape_witness :
  numerics_shapes shaped_numerics
  /\ shape_contract shaped_numerics plain_blocks
  /\ transformer_runs_layers shaped_numerics plain_blocks
  /\ VoiceBox.init (T := sane_torch) small_voicebox_args = Ok small_voicebox
  /\ 0 < 4 /\ 0 < 3 /\ 0 <= 10
  /\ (7 # 10 <= 1)%Q
  /\ (1 <= 1)%nat
  /\ (1 <= 2)%nat
  /\ length [1; 2; 3; 4; 5; 6; 7; 8]%Q = (1 * (2 * 4))%nat
  /\ length [7; 8] = (1 * 2)%nat
  /\ Forall (fun i => 0 <= i <= 10) [7; 8]
  /\ ((shape (mkTensor [1%nat] [1 # 2]%Q) = []
       /\ length (data (mkTensor [1%nat] [1 # 2]%Q)) = 1%nat)
      \/ (shape (mkTensor [1%nat] [1 # 2]%Q) = [1%nat]
          /\ length (data (mkTensor [1%nat] [1 # 2]%Q)) = 1%nat))
  /\ exists y,
       fst (VoiceBox.forward (N := shaped_numerics) small_voicebox
              (mkTensor [1; 2; 4]%nat [8; 7; 6; 5; 4; 3; 2; 1]%Q)
              (mkTensor [1; 2]%nat [7; 8])
              (mkTensor [1; 2; 4]%nat [1; 2; 3; 4; 5; 6; 7; 8]%Q)
              (mkTensor [1%nat] [1 # 2]%Q) (1 # 2) None None
              (constant_world 0 (1 # 4))) = Ok y
       /\ shape y = [1; 2; 4]%nat.
Proof.
  assert (H4 : VoiceBox.init (T := sane_torch) small_voicebox_args = Ok small_voicebox)
    by reflexivity.
  assert (H5 : 0 < 4) by lia.
  assert (H6 : 0 < 3) by lia.
  assert (H7 : 0 <= 10) by lia.
  assert (H8 : (7 # 10 <= 1)%Q) by (unfold Qle; simpl; lia).
  assert (H9b : (1 <= 1)%nat) by lia.
  assert (H9 : (1 <= 2)%nat) by lia.
  assert (H12 : Forall (fun i => 0 <= i <= 10) [7; 8])
    by (repeat constructor; lia).
  assert (H13 : (shape (mkTensor [1%nat] [1 # 2]%Q) = []
                 /\ length (data (mkTensor [1%nat] [1 # 2]%Q)) = 1%nat)
                \/ (shape (mkTensor [1%nat] [1 # 2]%Q) = [1%nat]
                    /\ length (data (mkTensor [1%nat] [1 # 2]%Q)) = 1%nat))
    by (right; split; reflexivity).
  split; [exact shaped_numerics_shapes|]. split; [exact shaped_shape_contract|].
  split; [exact shaped_runs_layers|]. split; [exact H4|].
  split; [exact H5|]. split; [exact H6|]. split; [exact H7|]. split; [exact H8|].
  split; [exact H9b|]. split; [exact H9|]. split; [reflexivity|]. split; [reflexivity|].
  split; [exact H12|]. split; [exact H13|].
  exact (@VoiceBox_forward_logits_shape sane_torch shaped_numerics plain_blocks
           small_voicebox_args small_voicebox
           [8; 7; 6; 5; 4; 3; 2; 1]%Q [1; 2; 3; 4; 5; 6; 7; 8]%Q [7; 8]
           (mkTensor [1%nat] [1 # 2]%Q) (1 # 2) None (constant_world 0 (1 # 4)) 1%nat 2%nat
           shaped_numerics_shapes shaped_shape_contract shaped_runs_layers
           H4 H5 H6 H7 H8 H9b H9 eq_refl eq_refl H12 H13).
Defined.
